(** * Ubuntu image fetcher: a shallow embedding of [index.py]

    The development follows the class [UbuntuImageFetcher]: the helpers on
    Python strings and POSIX paths it relies on, the content-type validator,
    the file-name derivation, the hash registry and the single-URL and batch
    fetchers, the latter two in a small state-and-exception monad.

    Conventions.
    - A Python [str] is a [string] whose characters are the code points
      0..255 (HTTP header values reach the program decoded as Latin-1).
    - A Python [bytes] is a [list byte].
    - The network, the clock and the faults of the file system are inputs:
      a [world] record gives the outcome of each call for one fetch.
    - The file system is a finite map from paths, spelled as the program
      spells them, to what is there: a directory, listable or not, a
      regular file, or something else. The entries [.] and [..] of a
      directory exist without being keys of the map.
    - Functions of Python's standard library whose tables or grammar are
      outside the program (the MD5 digest, [mimetypes.guess_extension],
      [urllib.parse.urlparse], [int]) are fields of the class [PyLib]. *)

From Stdlib Require Import ZArith Ascii.
From Stdlib.Strings Require Import Byte.
From stdpp Require Import base tactics option list gmap strings pretty.

Local Open Scope Z_scope.

(** ** Python strings *)

Module Str.

Definition of_ascii (c : ascii) : string := String c "".

Fixpoint startswith (p s : string) : bool :=
  match p, s with
  | "", _ => true
  | String a p', String b s' => bool_decide (a = b) && startswith p' s'
  | String _ _, "" => false
  end.

(** [sub in s] *)
Fixpoint contains (sub s : string) : bool :=
  startswith sub s
  || match s with "" => false | String _ s' => contains sub s' end.

(** [c in s] for a one-character string [c] *)
Fixpoint has_char (c : ascii) (s : string) : bool :=
  match s with
  | "" => false
  | String a s' => bool_decide (a = c) || has_char c s'
  end.

(** [str.lower] on code points below 256: [A-Z] and the accented capitals
    U+00C0..U+00DE other than the multiplication sign U+00D7 move up by
    32; every other character is its own lower case. *)
Definition lower_char (c : ascii) : ascii :=
  let n := N_of_ascii c in
  if ((65 <=? n) && (n <=? 90))%N
     || ((192 <=? n) && (n <=? 222) && negb (n =? 215))%N
  then ascii_of_N (n + 32) else c.

Fixpoint lower (s : string) : string :=
  match s with
  | "" => ""
  | String a s' => String (lower_char a) (lower s')
  end.

(** [str.isspace] on code points below 256. *)
Definition isspace (c : ascii) : bool :=
  let n := N_of_ascii c in
  ((9 <=? n) && (n <=? 13))%N || ((28 <=? n) && (n <=? 32))%N
  || (n =? 133)%N || (n =? 160)%N.

Fixpoint lstrip (s : string) : string :=
  match s with
  | "" => ""
  | String a s' => if isspace a then lstrip s' else s
  end.

(** [rstrip] keeps a character when it is not a space or when something
    is kept after it. *)
Fixpoint rstrip (s : string) : string :=
  match s with
  | "" => ""
  | String a s' =>
      match rstrip s' with
      | "" => if isspace a then "" else of_ascii a
      | r => String a r
      end
  end.

(** [s.strip()] *)
Definition strip (s : string) : string := rstrip (lstrip s).

(** [s.split(c)[0]]: the part of [s] before the first [c]. *)
Fixpoint before (c : ascii) (s : string) : string :=
  match s with
  | "" => ""
  | String a s' => if bool_decide (a = c) then "" else String a (before c s')
  end.

(** [s[:n]] and [s[n:]] for [0 <= n]. *)
Fixpoint take (n : nat) (s : string) : string :=
  match n, s with
  | S n', String a s' => String a (take n' s')
  | _, _ => ""
  end.

Fixpoint drop (n : nat) (s : string) : string :=
  match n, s with
  | S n', String _ s' => drop n' s'
  | _, _ => s
  end.

(** [s.find(c)] and [s.rfind(c)]: an index, or [-1]. *)
Fixpoint find (c : ascii) (s : string) : Z :=
  match s with
  | "" => -1
  | String a s' =>
      if bool_decide (a = c) then 0
      else let i := find c s' in if i <? 0 then -1 else i + 1
  end.

Fixpoint rfind (c : ascii) (s : string) : Z :=
  match s with
  | "" => -1
  | String a s' =>
      let i := rfind c s' in
      if 0 <=? i then i + 1
      else if bool_decide (a = c) then 0 else -1
  end.

(** [s[i:]] and [s[:i]] for an index [i >= 0] as the code computes them. *)
Definition from (i : Z) (s : string) : string := drop (Z.to_nat i) s.
Definition upto (i : Z) (s : string) : string := take (Z.to_nat i) s.

(** [all(c == x for x in s)] *)
Fixpoint all_char (c : ascii) (s : string) : bool :=
  match s with
  | "" => true
  | String a s' => bool_decide (a = c) && all_char c s'
  end.

(** [bool(s)]: a string is truthy when it is not empty. *)
Definition truthy (s : string) : bool :=
  match s with "" => false | _ => true end.

End Str.

(** ** The content-type validator (lines 43-49) *)

Definition safe_types : list string :=
  [ "image/jpeg"; "image/jpg"; "image/png"; "image/gif";
    "image/webp"; "image/bmp"; "image/svg+xml" ].

(** [any(safe_type in content_type.lower() for safe_type in safe_types)] *)
Definition _is_safe_content_type (content_type : string) : bool :=
  existsb (fun safe_type => Str.contains safe_type (Str.lower content_type))
          safe_types.

(** The reading of section 4.2 of the specification, kept apart from the
    code: the MIME type of a header value is what precedes the first [;],
    without surrounding blanks and in lower case, and a value is accepted
    when that type is on the allow-list. *)
Definition mime_type (content_type : string) : string :=
  Str.lower (Str.strip (Str.before ";" content_type)).

Definition spec_is_safe_content_type (content_type : string) : bool :=
  bool_decide (mime_type content_type ∈ safe_types).

(** ** POSIX paths ([posixpath]) *)

Module Path.

(** [os.path.basename]: [p[p.rfind('/') + 1:]] *)
Definition basename (p : string) : string :=
  Str.from (Str.rfind "/" p + 1) p.

(** [os.path.splitext]: the extension starts at the last dot of the last
    component, unless that component consists of dots up to there. The
    loop of the library walks [filenameIndex] from [sepIndex + 1] to
    [dotIndex] and returns at the first character that is not a dot;
    [all_char] over that slice is the loop's exit condition. *)
Definition splitext (p : string) : string * string :=
  let sepIndex := Str.rfind "/" p in
  let dotIndex := Str.rfind "." p in
  if (sepIndex <? dotIndex)
     && negb (Str.all_char "." (Str.from (sepIndex + 1) (Str.upto dotIndex p)))
  then (Str.upto dotIndex p, Str.from dotIndex p)
  else (p, "").

Definition endswith_sep (p : string) : bool :=
  match String.rev p with String "/" _ => true | _ => false end.

(** [os.path.join(a, b)] *)
Definition join (a b : string) : string :=
  if Str.startswith "/" b then b
  else if negb (Str.truthy a) || endswith_sep a then a +:+ b
  else a +:+ "/" +:+ b.

End Path.

(** ** Library functions taken as given *)

Class PyLib := {
  (** [hashlib.md5(content).hexdigest()] *)
  md5_hexdigest : list byte → string;
  (** [mimetypes.guess_extension]; [None] when the type is unknown *)
  guess_extension : string → option string;
  (** [urlparse(url).path], for a URL that [urlparse] takes *)
  urlparse_path : string → string;
  (** the message of the [ValueError] that [urlparse(url)] raises, for a
      URL that it does not take *)
  urlparse_error : string → option string;
  (** [int(s)] on a string; [None] stands for [ValueError] *)
  int_of_str : string → option Z;
}.

(** ** File-name derivation (lines 51-78) *)

Section Naming.
Context `{PyLib}.

Definition _get_file_extension (url content_type : string) : string :=
  let filename := Path.basename (urlparse_path url) in
  if Str.has_char "." filename then (Path.splitext filename).2
  else
    match guess_extension (Str.before ";" content_type) with
    | Some extension => if Str.truthy extension then extension else ".jpg"
    | None => ".jpg"
    end.

(** [now] is [int(time.time())], read where line 73 reads the clock. The
    two functions are the values lines 51-78 return for a URL that
    [urlparse] (lines 54 and 69) takes; [generate_filename] below is the
    call of line 146, which raises where [urlparse] does. *)
Definition _generate_filename (now : Z) (url content_type : string)
    (original_filename : option string) : string :=
  let generated :=
    let base_name := Path.basename (urlparse_path url) in
    let base_name :=
      if negb (Str.truthy base_name) || negb (Str.has_char "." base_name)
      then "image_" +:+ pretty now
      else (Path.splitext base_name).1 in
    let extension := _get_file_extension url content_type in
    base_name +:+ extension in
  match original_filename with
  | Some o => if Str.truthy o && Str.has_char "." o then o else generated
  | None => generated
  end.

End Naming.

(** ** Exceptions, results and the outside world *)

(** The exception classes the handlers of [fetch_image] tell apart. The
    first four are [requests.exceptions.RequestException] and its
    subclasses; an exception that is both a [ConnectionError] and a
    [Timeout] is caught by the [Timeout] clause, which comes first, and is
    a [Timeout] here. *)
Inductive exn :=
  | Timeout
  | ConnectionError
  | HTTPError (status_code : Z)
  | RequestException (what : string)
  | ValueError (what : string)
  | OSError (what : string)
  | OtherException (what : string).

Definition is_request_exception (e : exn) : bool :=
  match e with
  | Timeout | ConnectionError | HTTPError _ | RequestException _ => true
  | ValueError _ | OSError _ | OtherException _ => false
  end.

(** One constructor per message literal of [fetch_image], with the values
    its f-string interpolates; [Saved] carries [len(content)], which the
    program prints in KB. *)
Inductive message :=
  | NotSafeType (content_type : string)            (* line 105 *)
  | TooLargeDeclared                               (* line 110 *)
  | ResponseNotSafe (actual_content_type : string) (* line 124 *)
  | TooLargeStreamed                               (* line 135 *)
  | DuplicateDetected                              (* line 140 *)
  | Saved (name : string) (size : nat)             (* line 162 *)
  | ConnectionTimeout                              (* line 165 *)
  | ConnectionFailed                               (* line 167 *)
  | HttpErrorStatus (status_code : Z)              (* line 169 *)
  | NetworkError (e : exn)                         (* line 171 *)
  | UnexpectedError (e : exn).                     (* line 173 *)

(** [(success, message, filepath)] *)
Definition result : Type := bool * message * option string.

Definition success (r : result) : bool := r.1.1.
Definition message_of (r : result) : message := r.1.2.
Definition filepath_of (r : result) : option string := r.2.

Inductive outcome (A : Type) :=
  | Val (a : A)
  | Return (r : result)
  | Raise (e : exn).
Arguments Val {A} a.
Arguments Return {A} r.
Arguments Raise {A} e.

(** What a library call gives back: a value or an exception. *)
Inductive answer (A : Type) :=
  | Ok (a : A)
  | Fail (e : exn).
Arguments Ok {A} a.
Arguments Fail {A} e.

Record headers := Headers {
  content_type_header : option string;
  content_length_header : option string;
}.

(** A streamed response: its chunks as [iter_content] yields them, and the
    exception that ends the stream early, if any. *)
Record response := Response {
  status_code_of : Z;
  headers_of : headers;
  chunks_of : list (list byte);
  stream_fault : option exn;
}.

(** What the outside answers during one call of [fetch_image]:
    [open_fault p] is the error of [open(p, 'wb')], when it fails;
    [write_fault p] is the error of [f.write] or of closing the file
    (disk full, quota, file-size limit) after [open] succeeded, with the
    number of bytes that reached the file before it. *)
Record world := World {
  session_head : string → answer headers;
  session_get : string → answer response;
  clock : Z;
  makedirs_fault : option string;
  open_fault : string → option string;
  write_fault : string → option (string * nat);
}.

(** ** The fetcher's state: the object's fields and the file system *)

(** [Dir] is a directory that can be listed, [Sealed] one that cannot
    (no read permission; its entries can still be reached by name), and
    [Special] is what is neither a directory nor a regular file: a FIFO, a
    socket or a device. *)
Inductive node :=
  | Dir
  | File (data : list byte) (readable : bool)
  | Sealed
  | Special.

Record state := State {
  directory : string;
  downloaded_hashes : gset string;
  fs : gmap string node;
}.

Definition with_hashes (h : gset string) (s : state) : state :=
  State (directory s) h (fs s).
Definition with_fs (f : gmap string node) (s : state) : state :=
  State (directory s) (downloaded_hashes s) f.

(** ** A monad for method bodies: state, exceptions and early [return] *)

Definition M (A : Type) : Type := state → outcome A * state.

Global Instance M_ret : MRet M := λ A a s, (Val a, s).
Global Instance M_bind : MBind M := λ A B f m s,
  match m s with
  | (Val a, s') => f a s'
  | (Return r, s') => (Return r, s')
  | (Raise e, s') => (Raise e, s')
  end.

Definition get_state : M state := λ s, (Val s, s).
Definition put_state (s' : state) : M unit := λ _, (Val (), s').
Definition raise {A} (e : exn) : M A := λ s, (Raise e, s).
Definition return_ {A} (r : result) : M A := λ s, (Return r, s).
Definition call {A} (o : answer A) : M A := λ s,
  match o with
  | Ok a => (Val a, s)
  | Fail e => (Raise e, s)
  end.

(** [if b: return r] *)
Definition return_if (b : bool) (r : result) : M unit :=
  if b then return_ r else mret ().

(** [try: m / except <classes>: h]: [handler e] is the clause that catches
    [e], if there is one. *)
Definition try_except {A} (m : M A) (handler : exn → option (M A)) : M A :=
  λ s,
    match m s with
    | (Raise e, s') =>
        match handler e with
        | Some h => h s'
        | None => (Raise e, s')
        end
    | o => o
    end.

Fixpoint for_each {A} (l : list A) (body : A → M unit) : M unit :=
  match l with
  | [] => mret ()
  | x :: l' => body x ≫= λ _, for_each l' body
  end.

(** ** File-system calls *)

(** [os.path.isdir] *)
Definition isdir (f : gmap string node) (p : string) : bool :=
  match f !! p with Some Dir | Some Sealed => true | _ => false end.

(** The entries [.] and [..], which every directory has without their
    being keys of [fs]: a path whose last component is one of them exists
    when what precedes the component is a directory. The working directory
    and the root always exist. *)
Definition dot_entry (f : gmap string node) (p : string) : bool :=
  let name := Path.basename p in
  (bool_decide (name = ".") || bool_decide (name = ".."))
  && (let i := Str.rfind "/" p in
      (i <=? 0) || isdir f (Str.upto i p) || isdir f (Str.upto (i + 1) p)).

(** [os.path.exists] *)
Definition path_exists (f : gmap string node) (p : string) : bool :=
  bool_decide (is_Some (f !! p)) || dot_entry f p.

Definition isfile (f : gmap string node) (p : string) : bool :=
  match f !! p with Some (File _ _) => true | _ => false end.

(** The name under which the key [k] is listed in directory [d]. *)
Definition child_name (d k : string) : option string :=
  let prefix := Path.join d "" in
  if Str.startswith prefix k then
    let n := Str.drop (String.length prefix) k in
    if Str.truthy n && negb (Str.has_char "/" n) then Some n else None
  else None.

(** [os.listdir(d)] *)
Definition listdir (d : string) : M (list string) :=
  s ← get_state;
  match fs s !! d with
  | Some Dir => mret (omap (child_name d) (map_to_list (fs s)).*1)
  | Some Sealed => raise (OSError "Permission denied")
  | Some (File _ _) | Some Special => raise (OSError "Not a directory")
  | None => raise (OSError "No such file or directory")
  end.

(** [open(p, 'rb').read()] *)
Definition read_file (p : string) : M (list byte) :=
  s ← get_state;
  match fs s !! p with
  | Some (File data true) => mret data
  | Some (File _ false) => raise (OSError "Permission denied")
  | Some Dir | Some Sealed => raise (OSError "Is a directory")
  | Some Special => raise (OSError "Not a regular file")
  | None => raise (OSError "No such file or directory")
  end.

(** [os.makedirs(self.directory, exist_ok=True)]: an error for the empty
    path, nothing to do for a directory that exists, an error for
    anything else of that name, and otherwise the directory is made
    unless the world refuses. *)
Definition makedirs (w : world) : M unit :=
  s ← get_state;
  if negb (Str.truthy (directory s))
  then raise (OSError "No such file or directory")
  else
    match fs s !! directory s with
    | Some Dir | Some Sealed => mret ()
    | Some (File _ _) | Some Special => raise (OSError "File exists")
    | None =>
        match makedirs_fault w with
        | Some what => raise (OSError what)
        | None => put_state (with_fs (<[directory s := Dir]> (fs s)) s)
        end
    end.

(** [with open(p, 'wb') as f: f.write(content)]: [open] makes the file or
    fails; when the write or the close fails after that, the file stays
    with the bytes that reached it. *)
Definition write_file (w : world) (p : string) (content : list byte) : M unit :=
  s ← get_state;
  match open_fault w p with
  | Some what => raise (OSError what)
  | None =>
      match write_fault w p with
      | Some (what, written) =>
          _ ← put_state (with_fs (<[p := File (take written content) true]> (fs s)) s);
          raise (OSError what)
      | None => put_state (with_fs (<[p := File content true]> (fs s)) s)
      end
  end.

(** ** The methods of [UbuntuImageFetcher] *)

(** [50 * 1024 * 1024] (lines 109 and 129) *)
Definition max_size : Z := 50 * 1024 * 1024.

(** [len(b)] and [bool(b)] on bytes *)
Definition len (b : list byte) : Z := Z.of_nat (length b).
Definition nonempty (b : list byte) : bool :=
  match b with [] => false | _ => true end.

(** [response.raise_for_status()] *)
Definition raise_for_status (r : response) : M unit :=
  if (400 <=? status_code_of r) && (status_code_of r <? 600)
  then raise (HTTPError (status_code_of r)) else mret ().

(** The loop of lines 150-155. [counter] and [filepath] are the loop's
    variables; [fuel] bounds the number of iterations. *)
Fixpoint find_free (f : gmap string node) (original_filepath : string)
    (fuel counter : nat) (filepath : string) {struct fuel} : option string :=
  if path_exists f filepath then
    match fuel with
    | O => None
    | S fuel' =>
        let '(name, ext) := Path.splitext original_filepath in
        find_free f original_filepath fuel' (S counter)
                  (name +:+ "_" +:+ pretty counter +:+ ext)
    end
  else Some filepath.

(** Lines 150-155 from their initial values; one more iteration than the
    file system has entries always suffices ([find_free_total] below). *)
Definition resolve_conflict (f : gmap string node) (filepath : string) : string :=
  default filepath (find_free f filepath (S (size f)) 1 filepath).

Section Fetcher.
Context `{PyLib}.

(** [self.downloaded_hashes.add(h)] (lines 39 and 85) *)
Definition add_hash (h : string) : M unit :=
  self ← get_state;
  put_state (with_hashes ({[h]} ∪ downloaded_hashes self) self).

(** Lines 30-41. *)
Definition _load_existing_hashes : M unit :=
  self ← get_state;
  if path_exists (fs self) (directory self) then
    filenames ← listdir (directory self);
    for_each filenames (λ filename,
      let filepath := Path.join (directory self) filename in
      s ← get_state;
      if isfile (fs s) filepath then
        try_except
          (data ← read_file filepath;
           let file_hash := md5_hexdigest data in
           add_hash file_hash)
          (λ _, Some (mret ()))
      else mret ())
  else mret ().

(** Lines 20-28: a fetcher on [directory] over the file system [f]. *)
Definition __init__ (directory : string) (f : gmap string node)
    : outcome unit * state :=
  _load_existing_hashes (State directory ∅ f).

(** Lines 80-86. *)
Definition _check_duplicate (content : list byte) : M bool :=
  let content_hash := md5_hexdigest content in
  self ← get_state;
  if bool_decide (content_hash ∈ downloaded_hashes self) then mret true
  else
    _ ← add_hash content_hash;
    mret false.

(** Lines 96-114: the probe. Its value is [content_type]. *)
Definition probe (w : world) (url : string) : M string :=
  try_except
    (head_response ← call (session_head w url);
     let content_type := default "" (content_type_header head_response) in
     let content_length := content_length_header head_response in
     _ ← return_if (negb (_is_safe_content_type content_type))
           (false, NotSafeType content_type, None);
     too_large ←
       match content_length with
       | Some cl =>
           if Str.truthy cl then
             match int_of_str cl with
             | Some n => mret (max_size <? n)
             | None => raise (ValueError cl)
             end
           else mret false
       | None => mret false
       end;
     _ ← return_if too_large (false, TooLargeDeclared, None);
     mret content_type)
    (λ e, if is_request_exception e then Some (mret "image/jpeg") else None).

(** Lines 127-136: the loop over the chunks, from the values [content]
    and [downloaded_size] have when an iteration starts. *)
Fixpoint read_content (chunks : list (list byte)) (fault : option exn)
    (content : list byte) (downloaded_size : Z) : M (list byte) :=
  match chunks with
  | [] =>
      match fault with
      | Some e => raise e
      | None => mret content
      end
  | chunk :: rest =>
      if nonempty chunk then
        let downloaded_size := downloaded_size + len chunk in
        _ ← return_if (max_size <? downloaded_size)
              (false, TooLargeStreamed, None);
        read_content rest fault (content ++ chunk) downloaded_size
      else read_content rest fault content downloaded_size
  end.

(** Lines 116-136: the full request, given the probe's [content_type].
    Its value is [(actual_content_type, content)]. *)
Definition retrieve (w : world) (url content_type : string)
    : M (string * list byte) :=
  response ← call (session_get w url);
  _ ← raise_for_status response;
  let actual_content_type :=
    default content_type (content_type_header (headers_of response)) in
  _ ← return_if (negb (_is_safe_content_type actual_content_type))
        (false, ResponseNotSafe actual_content_type, None);
  content ← read_content (chunks_of response) (stream_fault response) [] 0;
  mret (actual_content_type, content).

(** Lines 96-136: everything before the duplicate check. *)
Definition download (w : world) (url : string) : M (string * list byte) :=
  content_type ← probe w url;
  retrieve w url content_type.

(** Line 146: the call of [_generate_filename], whose first statement
    after the test of [original_filename] is [urlparse(url)]. *)
Definition generate_filename (w : world) (url content_type : string)
    : M string :=
  match urlparse_error url with
  | Some what => raise (ValueError what)
  | None => mret (_generate_filename (clock w) url content_type None)
  end.

(** Lines 138-162: duplicate check, naming and write. *)
Definition save (w : world) (url actual_content_type : string)
    (content : list byte) : M result :=
  duplicate ← _check_duplicate content;
  _ ← return_if duplicate (false, DuplicateDetected, None);
  _ ← makedirs w;
  filename ← generate_filename w url actual_content_type;
  self ← get_state;
  let filepath := Path.join (directory self) filename in
  let filepath := resolve_conflict (fs self) filepath in
  _ ← write_file w filepath content;
  mret (true, Saved (Path.basename filepath) (length content), Some filepath).

(** The [try] block of [fetch_image], lines 93-162. *)
Definition fetch_image_body (w : world) (url : string) : M result :=
  '(actual_content_type, content) ← download w url;
  save w url actual_content_type content.

(** The [except] clauses, lines 164-173, in their order. *)
Definition on_exception (e : exn) : result :=
  match e with
  | Timeout => (false, ConnectionTimeout, None)
  | ConnectionError => (false, ConnectionFailed, None)
  | HTTPError status_code => (false, HttpErrorStatus status_code, None)
  | RequestException _ => (false, NetworkError e, None)
  | ValueError _ | OSError _ | OtherException _ =>
      (false, UnexpectedError e, None)
  end.

(** Lines 88-173. *)
Definition fetch_image (w : world) (url : string) (s : state)
    : result * state :=
  match fetch_image_body w url s with
  | (Val r, s') => (r, s')
  | (Return r, s') => (r, s')
  | (Raise e, s') => (on_exception e, s')
  end.

(** Lines 183-191: the loop of [fetch_multiple_images] from iteration
    [i]; the world of the [i]-th request is [W i]. *)
Fixpoint fetch_loop (W : nat → world) (i : nat) (urls : list string)
    (results : list (string * result)) (s : state)
    : list (string * result) * state :=
  match urls with
  | [] => (results, s)
  | url :: urls' =>
      let '(r, s') := fetch_image (W i) (Str.strip url) s in
      fetch_loop W (S i) urls' (results ++ [(url, r)]) s'
  end.

(** Lines 175-193. An entry [(url, (success, message, filepath))] stands
    for the tuple [(url, success, message, filepath)]. *)
Definition fetch_multiple_images (W : nat → world) (urls : list string)
    (s : state) : list (string * result) * state :=
  fetch_loop W 1 urls [] s.

End Fetcher.

(** ** Sample library and inputs for the worked examples *)

Module Sample.

Definition hex_digit (n : N) : ascii :=
  ascii_of_N (if (n <? 10)%N then 48 + n else 87 + n).

(** A stand-in for the digest: two hexadecimal digits per byte. Like MD5
    on the short inputs of the examples it tells different contents
    apart; nothing below depends on the digits themselves. *)
Fixpoint hexdigest (content : list byte) : string :=
  match content with
  | [] => ""
  | b :: content' =>
      let n := Byte.to_N b in
      String (hex_digit (n / 16)) (String (hex_digit (n mod 16))
             (hexdigest content'))
  end.

(** The entries of the [mimetypes] table for the allow-listed types. *)
Definition extension_of (mime : string) : option string :=
  let t := Str.lower mime in
  if bool_decide (t = "image/jpeg") then Some ".jpg"
  else if bool_decide (t = "image/png") then Some ".png"
  else if bool_decide (t = "image/gif") then Some ".gif"
  else if bool_decide (t = "image/webp") then Some ".webp"
  else if bool_decide (t = "image/bmp") then Some ".bmp"
  else if bool_decide (t = "image/svg+xml") then Some ".svg"
  else None.

Definition is_alpha (c : ascii) : bool :=
  let n := N_of_ascii (Str.lower_char c) in ((97 <=? n) && (n <=? 122))%N.
Definition is_digit (c : ascii) : bool :=
  let n := N_of_ascii c in ((48 <=? n) && (n <=? 57))%N.
Definition is_scheme_char (c : ascii) : bool :=
  is_alpha c || is_digit c
  || bool_decide (c = "+"%char) || bool_decide (c = "-"%char)
  || bool_decide (c = "."%char).

Fixpoint all_chars (p : ascii → bool) (s : string) : bool :=
  match s with
  | "" => true
  | String a s' => p a && all_chars p s'
  end.

(** [urlsplit] up to the path, for a URL without leading blanks, tabs or
    line breaks: the scheme, then the network location after [//], then
    the fragment and the query are cut off. *)
Definition split_scheme (url : string) : string * string :=
  let i := Str.find ":" url in
  if (0 <? i)
     && match url with String c _ => is_alpha c | "" => false end
     && all_chars is_scheme_char (Str.upto i url)
  then (Str.lower (Str.upto i url), Str.from (i + 1) url)
  else ("", url).

Fixpoint skip_netloc (s : string) : string :=
  match s with
  | "" => ""
  | String a s' =>
      if bool_decide (a = "/"%char) || bool_decide (a = "?"%char)
         || bool_decide (a = "#"%char)
      then s else skip_netloc s'
  end.

Definition uses_params : list string :=
  [ ""; "ftp"; "hdl"; "prospero"; "http"; "imap"; "https"; "shttp";
    "rtsp"; "rtspu"; "sip"; "sips"; "mms"; "sftp"; "tel" ].

(** [urlparse(url).path]: the path of [urlsplit] without the parameters
    of its last segment. *)
Definition url_path (url : string) : string :=
  let '(scheme, url) := split_scheme url in
  let url := if Str.startswith "//" url then skip_netloc (Str.drop 2 url)
             else url in
  let url := Str.before "#" url in
  let url := Str.before "?" url in
  if bool_decide (scheme ∈ uses_params) && Str.has_char ";" url then
    let k := Z.max 0 (Str.rfind "/" url) in
    Str.upto k url +:+ Str.before ";" (Str.from k url)
  else url.

Fixpoint digits_value (s : string) (acc : Z) : option Z :=
  match s with
  | "" => Some acc
  | String a s' =>
      if is_digit a
      then digits_value s' (10 * acc + Z.of_N (N_of_ascii a) - 48)
      else None
  end.

(** [int] on a string of decimal digits with blanks around it. *)
Definition int (s : string) : option Z :=
  let s := Str.strip s in
  if Str.truthy s then digits_value s 0 else None.

(** The check of [urlsplit] on the network location: a bracket without
    its partner is an invalid IPv6 address. *)
Definition url_error (url : string) : option string :=
  let '(_, url) := split_scheme url in
  if Str.startswith "//" url then
    let rest := Str.drop 2 url in
    let netloc :=
      Str.take (String.length rest - String.length (skip_netloc rest))%nat rest in
    if xorb (Str.has_char "[" netloc) (Str.has_char "]" netloc)
    then Some "Invalid IPv6 URL" else None
  else None.

Global Instance lib : PyLib := {|
  md5_hexdigest := hexdigest;
  guess_extension := extension_of;
  urlparse_path := url_path;
  urlparse_error := url_error;
  int_of_str := int;
|}.

(** A world in which no request is answered and no file operation
    fails; the examples override the fields they need. *)
Definition offline : world := {|
  session_head := λ _, Fail ConnectionError;
  session_get := λ _, Fail ConnectionError;
  clock := 1700000000;
  makedirs_fault := None;
  open_fault := λ _, None;
  write_fault := λ _, None;
|}.

Definition png_headers : headers :=
  Headers (Some "image/png") None.

(** A fetcher on the default directory before anything was saved. *)
Definition fresh : state := State "Fetched_Images" ∅ ∅.

(** A world that answers every HEAD with [head] and every GET with
    [get], at a fixed time and without file-system faults. *)
Definition serving (head : answer headers) (get : answer response) : world := {|
  session_head := λ _, head;
  session_get := λ _, get;
  clock := 1700000000;
  makedirs_fault := None;
  open_fault := λ _, None;
  write_fault := λ _, None;
|}.

(** The same when the directory is write-protected: every [open] for
    writing fails. *)
Definition write_protected (head : answer headers) (get : answer response)
    : world := {|
  session_head := λ _, head;
  session_get := λ _, get;
  clock := 1700000000;
  makedirs_fault := None;
  open_fault := λ _, Some "Permission denied";
  write_fault := λ _, None;
|}.

(** The same when the disk is full: [open] makes the file and the write
    fails after [written] bytes. *)
Definition disk_full (head : answer headers) (get : answer response)
    (written : nat) : world := {|
  session_head := λ _, head;
  session_get := λ _, get;
  clock := 1700000000;
  makedirs_fault := None;
  open_fault := λ _, None;
  write_fault := λ _, Some ("No space left on device", written);
|}.

(** A fetcher whose directory exists and is empty. *)
Definition empty_directory : state :=
  State "Fetched_Images" ∅ {["Fetched_Images" := Dir]}.

Definition picture : list byte := [x89; x50; x4e; x47].
Definition drawing : list byte := [x47; x49; x46; x38].

(** A 200 answer of type [image/png] that streams [content] in one chunk. *)
Definition png_response (content : list byte) : response :=
  Response 200 png_headers [content] None.

(** A 200 answer without a content-type header. *)
Definition untyped_response (content : list byte) : response :=
  Response 200 (Headers None None) [content] None.

(** A 200 answer of type [image/png] whose stream is 6401 chunks of
    8192 bytes, 8192 bytes more than [max_size], followed by one more
    chunk and a broken connection. *)
Definition full_chunk : list byte := replicate (Z.to_nat 8192) x00.
Definition flood : list (list byte) := replicate (Z.to_nat 6401) full_chunk.
Definition oversized_response : response :=
  Response 200 png_headers (flood ++ [full_chunk]) (Some ConnectionError).

End Sample.

(** ** Notions used to state the properties *)

(** The [counter]-th name tried by lines 153-154 for [original_filepath]. *)
Definition candidate (original_filepath : string) (counter : nat) : string :=
  let '(name, ext) := Path.splitext original_filepath in
  name +:+ "_" +:+ pretty counter +:+ ext.

(** What a method may do to the state: it keeps the directory, it may add
    hashes to the registry and entries to the file system, and it changes
    or removes neither. *)
Definition grows (s s' : state) : Prop :=
  directory s' = directory s
  ∧ downloaded_hashes s ⊆ downloaded_hashes s'
  ∧ fs s ⊆ fs s'.

(** A failure result: [(False, message, None)]. *)
Definition failure (r : result) : Prop :=
  success r = false ∧ filepath_of r = None.

(** [m] leaves every state it is run in related by [R] to the state it
    ends in, however it ends, and when it ends in an early [return] the
    tuple it returns is a failure. *)
Definition behaves (R : relation state) {A} (m : M A) : Prop :=
  ∀ s, R s (m s).2 ∧ ∀ r, (m s).1 = Return r → failure r.

(** The number of bytes in a sequence of chunks. *)
Definition streamed (chunks : list (list byte)) : Z :=
  foldr (λ chunk n, len chunk + n) 0 chunks.

(** The status codes on which [raise_for_status] does not raise. *)
Definition http_ok (r : response) : bool :=
  negb ((400 <=? status_code_of r) && (status_code_of r <? 600)).

(** The state after a sequence of [fetch_image] calls, each with its own
    world and URL. *)
Fixpoint fetch_all `{PyLib} (calls : list (world * string)) (s : state)
    : state :=
  match calls with
  | [] => s
  | (w, url) :: calls' => fetch_all calls' (fetch_image w url s).2
  end.

(** The file system once [os.makedirs(d, exist_ok=True)] has passed. *)
Definition ensure_directory (f : gmap string node) (d : string)
    : gmap string node :=
  match f !! d with
  | None => <[d := Dir]> f
  | Some _ => f
  end.

(** The paths on which [os.makedirs(d, exist_ok=True)] has nothing to
    refuse: not empty, and absent or a directory already. *)
Definition directory_ready (f : gmap string node) (d : string) : bool :=
  Str.truthy d
  && match f !! d with
     | None | Some Dir | Some Sealed => true
     | Some (File _ _) | Some Special => false
     end.

Definition is_regular (n : node) : bool :=
  match n with File _ _ => true | Dir | Sealed | Special => false end.

(** The number of regular files in a file system. *)
Definition regular_files (f : gmap string node) : nat :=
  size (filter (λ entry, is_regular entry.2 = true) f).

(** The entries of directory [d] that the start-up scan hashes: the
    readable regular files directly inside it. *)
Definition scanned (f : gmap string node) (d : string) (h : list byte → string)
    (digest : string) : Prop :=
  ∃ name data,
    f !! Path.join d name = Some (File data true)
    ∧ Str.truthy name = true
    ∧ Str.has_char "/" name = false
    ∧ digest = h data.

(** ** The summary and the command line (lines 195-264) *)

(** [os.path.abspath], which depends on the working directory. *)
Class PyOs := {
  abspath : string → string;
}.

(** The values [display_summary] prints, in the order of its lines. *)
Record summary := Summary {
  successful : Z;
  failed : Z;
  stored_in : string;
  connections : Z;
  celebrated : bool;
}.

(** What [main] did, as far as its messages tell. *)
Inductive report :=
  | SingleFetched (r : result)
  | BatchFetched (results : list (string * result)) (shown : summary)
  | NothingFetched
  | InvalidChoice.

(** [input()] on the lines still to be read; at the end of the input it
    raises [EOFError]. *)
Definition input (stdin : list string) : M (string * list string) :=
  match stdin with
  | [] => raise (OtherException "EOFError")
  | line :: stdin' => mret (line, stdin')
  end.

(** Lines 244-249: the loop that reads URLs up to the first blank line,
    from the value [urls] has when an iteration starts. *)
Fixpoint read_urls (stdin : list string) (urls : list string)
    : M (list string) :=
  match stdin with
  | [] => raise (OtherException "EOFError")
  | line :: stdin' =>
      let url := Str.strip line in
      if Str.truthy url then read_urls stdin' (urls ++ [url]) else mret urls
  end.

(** A method that always ends normally, as a computation. *)
Definition run {A} (method : state → A * state) : M A :=
  λ s, let '(a, s') := method s in (Val a, s').

Section Cli.
Context `{PyLib} `{PyOs}.

(** [sum(1 for _, success, _, _ in results if success)] *)
Definition count_successful (results : list (string * result)) : Z :=
  foldr (λ entry n, if success entry.2 then 1 + n else n) 0 results.

(** Lines 195-210. *)
Definition display_summary (results : list (string * result)) : M summary :=
  self ← get_state;
  let successful := count_successful results in
  let total := Z.of_nat (length results) in
  mret (Summary successful (total - successful) (abspath (directory self))
                total (0 <? successful)).

(** Lines 213-260, after the banner: [stdin] holds the lines the user
    will type and [W i] is the world of the [i]-th request. The fetcher of
    line 221 is the state the computation starts in, scanned first. *)
Definition main (W : nat → world) (stdin : list string) : M report :=
  _ ← _load_existing_hashes;
  '(line, stdin) ← input stdin;
  let choice := Str.strip line in
  if bool_decide (choice = "1") then
    '(line, stdin) ← input stdin;
    let url := Str.strip line in
    if Str.truthy url then
      r ← run (fetch_image (W 1%nat) url);
      mret (SingleFetched r)
    else mret NothingFetched
  else if bool_decide (choice = "2") then
    urls ← read_urls stdin [];
    match urls with
    | _ :: _ =>
        results ← run (fetch_multiple_images W urls);
        shown ← display_summary results;
        mret (BatchFetched results shown)
    | [] => mret NothingFetched
    end
  else mret InvalidChoice.

(** [main()] in a process whose file system is [f]: line 221 makes the
    fetcher on the default directory with an empty registry. *)
Definition run_main (W : nat → world) (stdin : list string)
    (f : gmap string node) : outcome report * state :=
  main W stdin (State "Fetched_Images" ∅ f).

End Cli.

Module SampleCli.

(** [abspath] in a process started in [/home/ubuntu]. *)
Global Instance os : PyOs := {|
  abspath := λ p, if Str.startswith "/" p then p else "/home/ubuntu/" +:+ p;
|}.

(** A directory with one picture, one unreadable file and one folder. *)
Definition gallery : gmap string node :=
  {[ "Fetched_Images" := Dir;
     "Fetched_Images/old.png" := File Sample.picture true;
     "Fetched_Images/locked.png" := File Sample.drawing false;
     "Fetched_Images/thumbs" := Dir;
     "Fetched_Images/thumbs/t.png" := File Sample.drawing true;
     "notes.txt" := File [x68; x69] true ]}.

(** A 200 answer of type [image/png] whose stream is 6400 chunks of 8192
    bytes: [max_size] bytes exactly. *)
Definition brim : list (list byte) :=
  replicate (Z.to_nat 6400) Sample.full_chunk.
Definition brimful_response : response :=
  Response 200 Sample.png_headers brim None.

End SampleCli.

(** * Properties *)

(** ** Strings *)

Module StrFacts.
Import Str.

Lemma app_nil_l s : "" +:+ s = s.
Proof. reflexivity. Qed.

Lemma app_cons a s t : String a s +:+ t = String a (s +:+ t).
Proof. reflexivity. Qed.

Lemma app_nil_r s : s +:+ "" = s.
Proof. induction s as [|a s IH]; [done|]. by rewrite app_cons, IH. Qed.

Lemma app_assoc s t u : (s +:+ t) +:+ u = s +:+ t +:+ u.
Proof. induction s as [|a s IH]; [done|]. by rewrite !app_cons, IH. Qed.

Lemma length_app s t :
  String.length (s +:+ t) = (String.length s + String.length t)%nat.
Proof. induction s as [|a s IH]; [done|]. rewrite app_cons. simpl. by rewrite IH. Qed.

Lemma app_inv_tail s t u : s +:+ u = t +:+ u → s = t.
Proof.
  revert t. induction s as [|a s IH]; intros [|b t] Heq; [done| | |].
  - apply (f_equal String.length) in Heq.
    rewrite app_nil_l, length_app in Heq. simpl in Heq. lia.
  - apply (f_equal String.length) in Heq.
    rewrite app_nil_l, length_app in Heq. simpl in Heq. lia.
  - rewrite !app_cons in Heq. injection Heq as -> Heq. f_equal. by apply IH.
Qed.

Lemma startswith_spec p s : startswith p s = true ↔ ∃ t, s = p +:+ t.
Proof.
  revert s. induction p as [|a p IH]; intros s; simpl.
  - split; [intros _; by exists s | by destruct s].
  - destruct s as [|b s].
    + split; [done | intros [t Ht]; by rewrite app_cons in Ht].
    + rewrite andb_true_iff, bool_decide_eq_true, IH. split.
      * intros [-> [t ->]]. by exists t.
      * intros [t Ht]. rewrite app_cons in Ht. injection Ht as -> ->. eauto.
Qed.

Lemma contains_spec sub s :
  contains sub s = true ↔ ∃ pre post, s = pre +:+ sub +:+ post.
Proof.
  induction s as [|a s IH]; simpl; rewrite orb_true_iff, startswith_spec.
  - split.
    + intros [[t Ht]|?]; [|done]. by exists "", t.
    + intros ([|??] & post & Hs); [|by rewrite app_cons in Hs].
      left. by exists post.
  - rewrite IH. split.
    + intros [[t Ht]|(pre & post & ->)]; [by exists "", t|].
      by exists (String a pre), post.
    + intros ([|b pre] & post & Hs).
      * left. by exists post.
      * right. rewrite app_cons in Hs. injection Hs as -> ->. by exists pre, post.
Qed.

Lemma lower_app s t : lower (s +:+ t) = lower s +:+ lower t.
Proof. induction s as [|a s IH]; [done|]. rewrite app_cons. simpl. by rewrite IH. Qed.

Lemma before_prefix c s : ∃ t, s = before c s +:+ t.
Proof.
  induction s as [|a s [t IH]]; simpl; [by exists ""|].
  case_bool_decide; [by eexists|]. exists t. by rewrite app_cons, <-IH.
Qed.

Lemma lstrip_suffix s : ∃ pre, s = pre +:+ lstrip s.
Proof.
  induction s as [|a s [pre IH]]; simpl; [by exists ""|].
  destruct (isspace a); [|by exists ""].
  exists (String a pre). by rewrite app_cons, <-IH.
Qed.

Lemma rstrip_prefix s : ∃ post, s = rstrip s +:+ post.
Proof.
  induction s as [|a s [post IH]]; simpl; [by exists ""|].
  destruct (rstrip s) as [|b r] eqn:Hr.
  - destruct (isspace a); [by eexists|]. exists post. by rewrite IH at 1.
  - exists post. by rewrite app_cons, <-IH.
Qed.

Lemma strip_infix s : ∃ pre post, s = pre +:+ strip s +:+ post.
Proof.
  destruct (lstrip_suffix s) as [pre Hpre].
  destruct (rstrip_prefix (lstrip s)) as [post Hpost].
  exists pre, post. unfold strip. by rewrite <-Hpost.
Qed.

Lemma has_char_app c s t : has_char c (s +:+ t) = has_char c s || has_char c t.
Proof.
  induction s as [|a s IH]; [done|]. rewrite app_cons. simpl.
  by rewrite IH, orb_assoc.
Qed.

Lemma take_drop n s : take n s +:+ drop n s = s.
Proof.
  revert s. induction n as [|n IH]; intros [|a s]; simpl; try done.
  by rewrite app_cons, IH.
Qed.

End StrFacts.

(** ** The validator *)

Lemma is_safe_content_type_iff content_type :
  _is_safe_content_type content_type = true ↔
  ∃ t pre post, t ∈ safe_types ∧ Str.lower content_type = pre +:+ t +:+ post.
Proof.
  unfold _is_safe_content_type. rewrite existsb_exists. split.
  - intros (t & Hin & (pre & post & Hs)%StrFacts.contains_spec).
    exists t, pre, post. by rewrite list_elem_of_In.
  - intros (t & pre & post & Hin & Hs). exists t. split.
    + by apply list_elem_of_In.
    + apply StrFacts.contains_spec. eauto.
Qed.

Lemma mime_type_infix content_type :
  ∃ pre post, Str.lower content_type = pre +:+ mime_type content_type +:+ post.
Proof.
  destruct (StrFacts.before_prefix ";" content_type) as [params Hb].
  destruct (StrFacts.strip_infix (Str.before ";" content_type))
    as (pre & post & Hs).
  exists (Str.lower pre), (Str.lower (post +:+ params)).
  unfold mime_type. rewrite <-!StrFacts.lower_app. f_equal.
  rewrite Hb at 1. rewrite Hs at 1. by rewrite !StrFacts.app_assoc.
Qed.

(** C1, as the code has it. The validator accepts a header value exactly
    when its lower-cased text contains one of the seven allow-listed types
    somewhere inside it. Hence every value whose MIME type (before the
    first semicolon, blanks trimmed, any case) is on the list is accepted,
    and the empty value is rejected. *)
Theorem safe_content_type_by_containment (content_type : string) :
  (_is_safe_content_type content_type = true ↔
     ∃ t pre post,
       t ∈ safe_types ∧ Str.lower content_type = pre +:+ t +:+ post)
  ∧ (spec_is_safe_content_type content_type = true →
     _is_safe_content_type content_type = true)
  ∧ _is_safe_content_type "" = false.
Proof.
  split; [apply is_safe_content_type_iff|]. split; [|done].
  unfold spec_is_safe_content_type. rewrite bool_decide_eq_true. intros Hin.
  apply is_safe_content_type_iff.
  destruct (mime_type_infix content_type) as (pre & post & Hs). eauto.
Qed.

Lemma safe_content_type_by_containment_witness :
  spec_is_safe_content_type " IMAGE/PNG ; charset=utf-8" = true
  ∧ _is_safe_content_type " IMAGE/PNG ; charset=utf-8" = true.
Proof.
  split; [reflexivity|].
  apply (safe_content_type_by_containment " IMAGE/PNG ; charset=utf-8").
  reflexivity.
Defined.

(** C1 as the specification words it fails: a value whose MIME type is
    [text/html] is accepted because a parameter mentions [image/png], and
    so is a type that merely extends an allow-listed one. *)
Lemma containment_accepts_unlisted_type :
  mime_type "text/html; note=image/png" = "text/html"
  ∧ spec_is_safe_content_type "text/html; note=image/png" = false
  ∧ _is_safe_content_type "text/html; note=image/png" = true
  ∧ (mime_type "image/pngx" ∉ safe_types)
  ∧ _is_safe_content_type "image/pngx" = true.
Proof.
  repeat split; try reflexivity.
  intros Hin. by apply (bool_decide_pack _) in Hin.
Qed.

(** ** Paths and file names *)

Module PathFacts.

Lemma upto_from i p : Str.upto i p +:+ Str.from i p = p.
Proof. apply StrFacts.take_drop. Qed.

(** [splitext] cuts its argument in two. *)
Lemma splitext_app p : (Path.splitext p).1 +:+ (Path.splitext p).2 = p.
Proof.
  unfold Path.splitext. case_match; simpl.
  - apply upto_from.
  - apply StrFacts.app_nil_r.
Qed.

Lemma rfind_lt_0 c s : Str.rfind c s < 0 → Str.has_char c s = false.
Proof.
  induction s as [|a s IH]; simpl; [done|].
  destruct (Z.leb_spec 0 (Str.rfind c s)); [lia|].
  case_bool_decide; [lia|]. intros _. by rewrite IH by lia.
Qed.

Lemma rfind_ge c s : -1 ≤ Str.rfind c s.
Proof.
  induction s as [|a s IH]; simpl; [done|].
  destruct (Z.leb_spec 0 (Str.rfind c s)); [lia|]. case_bool_decide; lia.
Qed.

Lemma from_rfind c s :
  Str.has_char c (Str.from (Str.rfind c s + 1) s) = false.
Proof.
  induction s as [|a s IH]; simpl; [done|].
  destruct (Z.leb_spec 0 (Str.rfind c s)) as [Hge|Hlt].
  - unfold Str.from in *.
    replace (Z.to_nat (Str.rfind c s + 1 + 1))
      with (S (Z.to_nat (Str.rfind c s + 1))) by lia.
    done.
  - case_bool_decide; unfold Str.from; simpl.
    + by apply rfind_lt_0.
    + rewrite bool_decide_eq_false_2 by done. by apply rfind_lt_0.
Qed.

(** A base name has no separator in it. *)
Lemma basename_no_sep p : Str.has_char "/" (Path.basename p) = false.
Proof. apply from_rfind. Qed.

Lemma startswith_has_char c s :
  Str.startswith (Str.of_ascii c) s = true → Str.has_char c s = true.
Proof.
  destruct s as [|a s]; simpl; [done|].
  intros [Ha _]%andb_true_iff. apply bool_decide_eq_true in Ha as ->.
  by rewrite bool_decide_eq_true_2.
Qed.

Lemma length_join a b :
  Str.startswith "/" b = false →
  (String.length a + String.length b ≤ String.length (Path.join a b))%nat.
Proof.
  intros Hb. unfold Path.join. rewrite Hb.
  case_match; rewrite !StrFacts.length_app; simpl; lia.
Qed.

End PathFacts.

Section NamingFacts.
Context `{PyLib}.

Lemma generate_filename_with_dot now url content_type :
  Str.has_char "." (Path.basename (urlparse_path url)) = true →
  _generate_filename now url content_type None
  = Path.basename (urlparse_path url).
Proof.
  intros Hdot. unfold _generate_filename, _get_file_extension.
  rewrite Hdot. destruct (Path.basename (urlparse_path url)) eqn:Hb; [done|].
  simpl. apply PathFacts.splitext_app.
Qed.

Lemma generate_filename_without_dot now url content_type :
  Str.has_char "." (Path.basename (urlparse_path url)) = false →
  _generate_filename now url content_type None
  = "image_" +:+ pretty now
    +:+ _get_file_extension url content_type.
Proof.
  intros Hdot. unfold _generate_filename. rewrite Hdot.
  by rewrite orb_true_r, StrFacts.app_assoc.
Qed.

(** A derived file name is not empty and does not start with a
    separator, so joining it to a directory extends the directory. *)
Lemma generate_filename_relative now url content_type :
  let filename := _generate_filename now url content_type None in
  Str.truthy filename = true ∧ Str.startswith "/" filename = false.
Proof.
  cbv zeta.
  destruct (Str.has_char "." (Path.basename (urlparse_path url))) eqn:Hdot.
  - rewrite generate_filename_with_dot by done.
    pose proof (PathFacts.basename_no_sep (urlparse_path url)) as Hsep.
    destruct (Path.basename (urlparse_path url)) as [|a b]; [done|].
    split; [done|]. apply not_true_is_false. intros Hs.
    apply (PathFacts.startswith_has_char "/") in Hs. congruence.
  - rewrite generate_filename_without_dot by done. done.
Qed.

(** C9. A URL whose base name contains a dot keeps that base name as the
    file name. A URL whose base name is empty or has no dot is named
    [image_<epoch seconds>] followed by the extension that
    [mimetypes] gives for the content type without its parameters, or by
    [.jpg] when it gives none. *)
Theorem generate_filename_cases (now : Z) (url content_type : string) :
  let base_name := Path.basename (urlparse_path url) in
  let filename := _generate_filename now url content_type None in
  (Str.has_char "." base_name = true → filename = base_name)
  ∧ (base_name = "" ∨ Str.has_char "." base_name = false →
     (∀ extension,
        guess_extension (Str.before ";" content_type) = Some extension →
        extension ≠ "" →
        filename = "image_" +:+ pretty now +:+ extension)
     ∧ (guess_extension (Str.before ";" content_type) = None →
        filename = "image_" +:+ pretty now +:+ ".jpg")).
Proof.
  cbv zeta. split; [apply generate_filename_with_dot|].
  intros Hbase.
  assert (Str.has_char "." (Path.basename (urlparse_path url)) = false)
    as Hdot by (destruct Hbase as [->|]; done).
  rewrite generate_filename_without_dot by done.
  unfold _get_file_extension. rewrite Hdot. split.
  - intros extension -> Hne. by destruct extension.
  - by intros ->.
Qed.

End NamingFacts.

Lemma generate_filename_cases_witness :
  _generate_filename (H := Sample.lib) 1700000000
    "http://example.org/photos/cat.tar.png?size=2" "image/png" None
  = "cat.tar.png"
  ∧ _generate_filename (H := Sample.lib) 1700000000
      "http://example.org/photos/" "image/png; q=1" None
    = "image_1700000000.png"
  ∧ _generate_filename (H := Sample.lib) 1700000000
      "http://example.org/download" "image/x-icon" None
    = "image_1700000000.jpg".
Proof.
  split; [|split].
  - apply (generate_filename_cases (H := Sample.lib)). reflexivity.
  - apply (generate_filename_cases (H := Sample.lib) 1700000000
             "http://example.org/photos/" "image/png; q=1");
      [by left | reflexivity | done].
  - apply (generate_filename_cases (H := Sample.lib) 1700000000
             "http://example.org/download" "image/x-icon");
      [by right | reflexivity].
Defined.

(** ** Names without separator *)

Lemma pretty_N_char_no_sep x : pretty_N_char x ≠ "/"%char.
Proof. unfold pretty_N_char. by repeat case_match. Qed.

Lemma pretty_N_go_no_sep x s :
  Str.has_char "/" s = false → Str.has_char "/" (pretty_N_go x s) = false.
Proof.
  revert s. induction (N.lt_wf_0 x) as [x _ IH]; intros s Hs.
  destruct (decide (x = 0%N)) as [->|Hx].
  - by rewrite pretty_N_go_0.
  - rewrite pretty_N_go_step by lia. apply IH.
    + apply N.div_lt; lia.
    + simpl. rewrite Hs.
      by rewrite bool_decide_eq_false_2 by apply pretty_N_char_no_sep.
Qed.

Lemma pretty_nat_no_sep (k : nat) : Str.has_char "/" (pretty k) = false.
Proof.
  unfold pretty, pretty_nat, pretty, pretty_N.
  case_decide; [done|]. by apply pretty_N_go_no_sep.
Qed.

Lemma drop_app_length p t : Str.drop (String.length p) (p +:+ t) = t.
Proof.
  induction p as [|a p IH]; [by destruct t|]. by rewrite StrFacts.app_cons.
Qed.

Lemma rfind_absent c s : Str.has_char c s = false → Str.rfind c s = -1.
Proof.
  induction s as [|a s IH]; simpl; [done|].
  intros [Ha Hs]%orb_false_iff. rewrite IH by done. simpl.
  by rewrite Ha.
Qed.

Lemma rfind_app_absent c s t :
  Str.has_char c t = false → Str.rfind c (s +:+ t) = Str.rfind c s.
Proof.
  intros Ht. induction s as [|a s IH].
  - rewrite StrFacts.app_nil_l. by apply rfind_absent.
  - rewrite StrFacts.app_cons. simpl. by rewrite IH.
Qed.

Lemma rfind_lt_length c s : Str.rfind c s < Z.of_nat (String.length s).
Proof.
  induction s as [|a s IH]; simpl; [done|].
  destruct (Z.leb_spec 0 (Str.rfind c s)); [lia|]. case_bool_decide; lia.
Qed.

Lemma drop_app_le n s t :
  (n ≤ String.length s)%nat → Str.drop n (s +:+ t) = Str.drop n s +:+ t.
Proof.
  revert n. induction s as [|a s IH]; intros n Hn.
  - simpl in Hn. by replace n with 0%nat by lia.
  - destruct n as [|n]; [done|]. rewrite StrFacts.app_cons. simpl.
    apply IH. simpl in Hn. lia.
Qed.

Lemma has_char_drop c n s :
  Str.has_char c s = false → Str.has_char c (Str.drop n s) = false.
Proof.
  revert n. induction s as [|a s IH]; intros n; [by destruct n|].
  destruct n as [|n]; [done|]. simpl. intros [_ Hs]%orb_false_iff. by apply IH.
Qed.

Lemma drop_drop n m s : Str.drop (n + m) s = Str.drop m (Str.drop n s).
Proof.
  revert s. induction n as [|n IH]; intros s; [done|].
  destruct s as [|a s]; simpl; [by destruct m|]. apply IH.
Qed.

(** What follows a name without separator stays in its last component. *)
Lemma basename_app s t :
  Str.has_char "/" t = false → Path.basename (s +:+ t) = Path.basename s +:+ t.
Proof.
  intros Ht. unfold Path.basename, Str.from. rewrite rfind_app_absent by done.
  apply drop_app_le.
  pose proof (rfind_lt_length "/" s). pose proof (PathFacts.rfind_ge "/" s). lia.
Qed.

Lemma splitext_ext_no_sep p : Str.has_char "/" (Path.splitext p).2 = false.
Proof.
  unfold Path.splitext. case_match eqn:Hcond; simpl; [|done].
  apply andb_true_iff in Hcond as [Hlt%Z.ltb_lt _].
  pose proof (PathFacts.rfind_ge "/" p).
  pose proof (PathFacts.from_rfind "/" p) as Hfrom. unfold Str.from in *.
  replace (Z.to_nat (Str.rfind "." p))
    with (Z.to_nat (Str.rfind "/" p + 1)
          + (Z.to_nat (Str.rfind "." p) - Z.to_nat (Str.rfind "/" p + 1)))%nat
    by lia.
  rewrite drop_drop. by apply has_char_drop.
Qed.

Lemma rfind_app_ge c q t :
  Z.of_nat (String.length q) ≤ Str.rfind c (q +:+ String c t).
Proof.
  induction q as [|a q IH].
  - rewrite StrFacts.app_nil_l. simpl. pose proof (PathFacts.rfind_ge c t).
    destruct (Z.leb_spec 0 (Str.rfind c t)); [lia|].
    by rewrite bool_decide_eq_true_2.
  - rewrite StrFacts.app_cons. simpl String.length. simpl Str.rfind.
    destruct (Z.leb_spec 0 (Str.rfind c (q +:+ String c t))); lia.
Qed.

Lemma take_app_ge n p t :
  (String.length p ≤ n)%nat →
  Str.take n (p +:+ t) = p +:+ Str.take (n - String.length p) t.
Proof.
  revert n. induction p as [|a p IH]; intros n Hn.
  - by rewrite !StrFacts.app_nil_l, Nat.sub_0_r.
  - destruct n as [|n]; [simpl in Hn; lia|].
    rewrite !StrFacts.app_cons. simpl. rewrite IH; [done|]. simpl in Hn. lia.
Qed.

Lemma take_app_length p t : Str.take (String.length p) (p +:+ t) = p.
Proof.
  rewrite take_app_ge by done. rewrite Nat.sub_diag.
  destruct t; simpl; apply StrFacts.app_nil_r.
Qed.

Lemma rfind_app_sep d name :
  Str.has_char "/" name = false →
  Str.rfind "/" (d +:+ "/" +:+ name) = Z.of_nat (String.length d).
Proof.
  intros Hname.
  replace (d +:+ "/" +:+ name) with ((d +:+ "/") +:+ name)
    by by rewrite StrFacts.app_assoc.
  rewrite rfind_app_absent by done.
  pose proof (rfind_app_ge "/" d "") as Hge.
  pose proof (rfind_lt_length "/" (d +:+ "/")) as Hlt.
  rewrite StrFacts.length_app in Hlt. simpl in Hlt. lia.
Qed.

Lemma basename_app_sep d name :
  Str.has_char "/" name = false → Path.basename (d +:+ "/" +:+ name) = name.
Proof.
  intros Hname. unfold Path.basename, Str.from.
  rewrite rfind_app_sep by done.
  replace (Z.to_nat (Z.of_nat (String.length d) + 1))
    with (String.length (d +:+ "/")) by (rewrite StrFacts.length_app; simpl; lia).
  replace (d +:+ "/" +:+ name) with ((d +:+ "/") +:+ name)
    by by rewrite StrFacts.app_assoc.
  apply drop_app_length.
Qed.

(** The entries [.] and [..] of a directory exist. *)
Lemma dot_entry_exists (f : gmap string node) d name :
  isdir f d = true → name = "." ∨ name = ".." →
  path_exists f (d +:+ "/" +:+ name) = true.
Proof.
  intros Hd Hname. unfold path_exists, dot_entry.
  assert (Str.has_char "/" name = false) as Hsep by by destruct Hname as [->| ->].
  rewrite basename_app_sep, rfind_app_sep by done.
  unfold Str.upto at 1. rewrite Nat2Z.id, take_app_length, Hd.
  apply orb_true_iff. right. apply andb_true_iff. split.
  - destruct Hname as [->| ->]; done.
  - by rewrite orb_true_r.
Qed.

(** A numbered name is never the entry [.] or [..] of a directory. *)
Lemma basename_candidate o k :
  Str.has_char "_" (Path.basename (candidate o k)) = true.
Proof.
  unfold candidate. pose proof (splitext_ext_no_sep o) as Hext.
  destruct (Path.splitext o) as [name ext]. simpl in Hext.
  rewrite basename_app.
  - rewrite StrFacts.has_char_app. apply orb_true_iff. by right.
  - rewrite StrFacts.app_cons, StrFacts.app_nil_l. simpl.
    rewrite StrFacts.has_char_app, pretty_nat_no_sep, Hext. done.
Qed.

Lemma dot_entry_candidate (f : gmap string node) o k :
  dot_entry f (candidate o k) = false.
Proof.
  unfold dot_entry. pose proof (basename_candidate o k) as Hb.
  rewrite !bool_decide_eq_false_2; [done| |]; intros Heq; by rewrite Heq in Hb.
Qed.

Lemma path_exists_candidate (f : gmap string node) o k :
  path_exists f (candidate o k) = bool_decide (is_Some (f !! candidate o k)).
Proof. unfold path_exists. by rewrite dot_entry_candidate, orb_false_r. Qed.

Lemma path_exists_lookup (f : gmap string node) p :
  path_exists f p = false → f !! p = None.
Proof.
  unfold path_exists. intros [Hp _]%orb_false_iff.
  apply bool_decide_eq_false in Hp. by apply eq_None_not_Some.
Qed.

Lemma lookup_path_exists (f : gmap string node) p :
  is_Some (f !! p) → path_exists f p = true.
Proof. intros Hp. unfold path_exists. by rewrite bool_decide_eq_true_2. Qed.

(** ** Collision resolution (lines 150-155) *)

Section Collision.
Implicit Types (f : gmap string node) (o p q : string).

Lemma find_free_step f o fuel counter p :
  find_free f o (S fuel) counter p
  = if path_exists f p then find_free f o fuel (S counter) (candidate o counter)
    else Some p.
Proof. simpl. unfold candidate. by destruct (Path.splitext o). Qed.

Global Instance candidate_inj o : Inj (=) (=) (candidate o).
Proof.
  intros j k. unfold candidate. destruct (Path.splitext o) as [name ext].
  intros Heq. apply (inj (String.app name)), (inj (String.app "_")) in Heq.
  apply StrFacts.app_inv_tail in Heq. by apply (inj pretty) in Heq.
Qed.

Lemma length_candidate o k :
  (String.length o < String.length (candidate o k))%nat.
Proof.
  unfold candidate. pose proof (PathFacts.splitext_app o) as Ho.
  destruct (Path.splitext o) as [name ext]. simpl in Ho.
  rewrite <-Ho at 1. rewrite !StrFacts.length_app. simpl. lia.
Qed.

Lemma find_free_Some f o fuel counter p q :
  find_free f o fuel counter p = Some q →
  path_exists f q = false
  ∧ ((q = p)
     ∨ (path_exists f p = true
        ∧ ∃ k, (counter ≤ k)%nat ∧ q = candidate o k
             ∧ ∀ j, (counter ≤ j < k)%nat →
                    path_exists f (candidate o j) = true)).
Proof.
  revert counter p. induction fuel as [|fuel IH]; intros counter p.
  - simpl. destruct (path_exists f p) eqn:Hp; [done|].
    intros [= <-]. auto.
  - rewrite find_free_step. destruct (path_exists f p) eqn:Hp.
    + intros [Hq Hcases]%IH. split; [done|]. right. split; [done|].
      destruct Hcases as [->|(Hc & k & Hk & -> & Hbelow)].
      * exists counter. split; [lia|]. split; [done|]. intros j ?. lia.
      * exists k. split; [lia|]. split; [done|]. intros j Hj.
        destruct (decide (j = counter)) as [->|]; [done|]. apply Hbelow. lia.
    + intros [= <-]. auto.
Qed.

Lemma find_free_None f o fuel counter p :
  find_free f o fuel counter p = None →
  ∀ j, (counter ≤ j < counter + fuel)%nat →
       path_exists f (candidate o j) = true.
Proof.
  revert counter p. induction fuel as [|fuel IH]; intros counter p.
  - intros _ j ?. lia.
  - rewrite find_free_step. destruct (path_exists f p) eqn:Hp; [|done].
    intros Hnone j Hj. destruct (decide (j = counter)) as [->|].
    + destruct fuel as [|fuel']; [simpl in Hnone|rewrite find_free_step in Hnone];
        by destruct (path_exists f (candidate o counter)).
    + apply (IH _ _ Hnone). lia.
Qed.

(** The loop ends: among [size f + 1] different names one is free. *)
Lemma find_free_total f o : is_Some (find_free f o (S (size f)) 1 o).
Proof.
  destruct (find_free f o (S (size f)) 1 o) eqn:Hfind; [eauto|exfalso].
  pose proof (find_free_None _ _ _ _ _ Hfind) as Hall.
  set (names := candidate o <$> seq 1 (S (size f))).
  assert (NoDup names) as Hnodup.
  { apply (NoDup_fmap_2 _), NoDup_seq. }
  assert (list_to_set names ⊆ dom f) as Hsub.
  { intros q [k [-> Hk%elem_of_seq]]%elem_of_list_to_set%list_elem_of_fmap.
    apply elem_of_dom. specialize (Hall k ltac:(lia)).
    rewrite path_exists_candidate in Hall.
    by apply bool_decide_eq_true in Hall. }
  apply subseteq_size in Hsub.
  rewrite size_list_to_set, size_dom in Hsub by done.
  unfold names in Hsub. rewrite length_fmap, length_seq in Hsub. lia.
Qed.

Lemma resolve_conflict_find f o :
  find_free f o (S (size f)) 1 o = Some (resolve_conflict f o).
Proof.
  unfold resolve_conflict. by destruct (find_free_total f o) as [q ->].
Qed.

Lemma resolve_conflict_free f o : f !! resolve_conflict f o = None.
Proof.
  pose proof (resolve_conflict_find f o) as [Hfree _]%find_free_Some.
  by apply path_exists_lookup.
Qed.

Lemma resolve_conflict_not_exists f o :
  path_exists f (resolve_conflict f o) = false.
Proof. by pose proof (resolve_conflict_find f o) as [Hfree _]%find_free_Some. Qed.

Lemma resolve_conflict_absent f o :
  path_exists f o = false → resolve_conflict f o = o.
Proof.
  intros Ho. unfold resolve_conflict. rewrite find_free_step. by rewrite Ho.
Qed.

Lemma resolve_conflict_first f o :
  path_exists f o = true → path_exists f (candidate o 1) = false →
  resolve_conflict f o = candidate o 1.
Proof.
  intros Ho H1. unfold resolve_conflict. rewrite find_free_step, Ho.
  destruct (size f); simpl; by rewrite H1.
Qed.

End Collision.

(** ** The monad *)

Global Instance grows_preorder : PreOrder grows.
Proof.
  split.
  - by intros s.
  - intros s1 s2 s3 (Hd1 & Hh1 & Hf1) (Hd2 & Hh2 & Hf2).
    split; [congruence|]. split; by etrans.
Qed.

Create HintDb behave discriminated.

Section Behaves.
Context (R : relation state) `{!PreOrder R}.

Lemma behaves_ret {A} (a : A) : behaves R (mret a).
Proof. by intros s. Qed.

Lemma behaves_bind {A B} (m : M A) (k : A → M B) :
  behaves R m → (∀ a, behaves R (k a)) → behaves R (m ≫= k).
Proof.
  intros Hm Hk s. unfold mbind, M_bind. destruct (Hm s) as [HR Hr].
  destruct (m s) as [[a|r|e] s1]; simpl in *.
  - destruct (Hk a s1) as [HR' Hr']. split; [by etrans|done].
  - split; [done|]. intros r' [= <-]. by apply Hr.
  - by split.
Qed.

Lemma behaves_get_state : behaves R get_state.
Proof. by intros s. Qed.

Lemma behaves_raise {A} e : behaves R (raise (A:=A) e).
Proof. by intros s. Qed.

Lemma behaves_call {A} (o : answer A) : behaves R (call o).
Proof. by intros s; destruct o. Qed.

Lemma behaves_return_if b m : behaves R (return_if b (false, m, None)).
Proof. destruct b; intros s; (split; [done|]); by intros r [= <-]. Qed.

Lemma behaves_try_except {A} (m : M A) handler :
  behaves R m → (∀ e h, handler e = Some h → behaves R h) →
  behaves R (try_except m handler).
Proof.
  intros Hm Hh s. unfold try_except. destruct (Hm s) as [HR Hr].
  destruct (m s) as [[a|r|e] s1]; simpl in *; [done..|].
  destruct (handler e) as [h|] eqn:He; [|done].
  destruct (Hh _ _ He s1) as [HR' Hr']. split; [by etrans|done].
Qed.

Lemma behaves_for_each {A} (l : list A) body :
  (∀ x, behaves R (body x)) → behaves R (for_each l body).
Proof.
  intros Hbody. induction l as [|x l IH]; simpl.
  - apply behaves_ret.
  - by apply behaves_bind.
Qed.

Lemma behaves_raise_for_status r : behaves R (raise_for_status r).
Proof. unfold raise_for_status. case_match; by intros s. Qed.

Lemma behaves_listdir d : behaves R (listdir d).
Proof.
  intros s. unfold listdir, mbind, M_bind. simpl. by repeat case_match.
Qed.

Lemma behaves_read_file p : behaves R (read_file p).
Proof.
  intros s. unfold read_file, mbind, M_bind. simpl. by repeat case_match.
Qed.

End Behaves.

Global Hint Resolve behaves_ret behaves_get_state behaves_raise behaves_call
  behaves_return_if behaves_raise_for_status behaves_listdir
  behaves_read_file : behave.
Global Hint Extern 0 (PreOrder _) => apply _ : behave.

(** Splits a monadic program along its binds and branches and closes the
    leaves with the [behave] hints. *)
Ltac behave :=
  repeat first
    [ progress eauto with behave
    | apply behaves_bind; [try apply _ | | intros ?]
    | apply behaves_try_except; [try apply _ | | intros ? ? ?; simplify_eq/=]
    | apply behaves_for_each; [try apply _ | intros ?]
    | case_match; simplify_eq ].

Section FetcherBehaves.
Context `{PyLib}.
Context (R : relation state) `{!PreOrder R}.

Lemma behaves_read_content chunks fault content downloaded_size :
  behaves R (read_content chunks fault content downloaded_size).
Proof.
  revert content downloaded_size.
  induction chunks as [|chunk rest IH]; intros content downloaded_size; simpl.
  - destruct fault; auto with behave.
  - destruct (nonempty chunk); [|done]. behave.
Qed.

Lemma behaves_probe w url : behaves R (probe w url).
Proof. unfold probe. behave. Qed.

Lemma behaves_retrieve w url content_type :
  behaves R (retrieve w url content_type).
Proof. unfold retrieve. pose proof behaves_read_content. behave. Qed.

Lemma behaves_download w url : behaves R (download w url).
Proof.
  unfold download. pose proof behaves_probe.
  pose proof behaves_retrieve. behave.
Qed.

End FetcherBehaves.

(** ** What the methods do to the state *)

Section FetcherState.
Context `{PyLib}.
Local Arguments _generate_filename : simpl never.

Lemma download_state w url s : (download w url s).2 = s.
Proof. by destruct (behaves_download eq w url s) as [<- _]. Qed.

Lemma download_Return w url s r s' :
  download w url s = (Return r, s') → failure r.
Proof.
  intros Hd. destruct (behaves_download eq w url s) as [_ Hr].
  apply Hr. by rewrite Hd.
Qed.

Lemma download_eq w url s :
  download w url s = ((download w url s).1, s).
Proof. rewrite <-(download_state w url s) at 3. by destruct (download _ _ _). Qed.

Lemma behaves_add_hash h : behaves grows (add_hash h).
Proof.
  intros s. split; [|done]. simpl. split; [done|]. split; [|done].
  simpl. set_solver.
Qed.

Lemma behaves_check_duplicate content :
  behaves grows (_check_duplicate content).
Proof. unfold _check_duplicate. pose proof behaves_add_hash. behave. Qed.

Lemma makedirs_unfold w s :
  makedirs w s
  = if negb (Str.truthy (directory s))
    then (Raise (OSError "No such file or directory"), s)
    else
      match fs s !! directory s with
      | Some Dir | Some Sealed => (Val (), s)
      | Some (File _ _) | Some Special => (Raise (OSError "File exists"), s)
      | None =>
          match makedirs_fault w with
          | Some what => (Raise (OSError what), s)
          | None => (Val (), with_fs (<[directory s := Dir]> (fs s)) s)
          end
      end.
Proof.
  unfold makedirs, mbind, M_bind. simpl. by repeat case_match.
Qed.

Lemma write_file_unfold w p content s :
  write_file w p content s
  = match open_fault w p with
    | Some what => (Raise (OSError what), s)
    | None =>
        match write_fault w p with
        | Some (what, written) =>
            (Raise (OSError what),
             with_fs (<[p := File (take written content) true]> (fs s)) s)
        | None => (Val (), with_fs (<[p := File content true]> (fs s)) s)
        end
    end.
Proof.
  unfold write_file, mbind, M_bind. simpl. by repeat case_match.
Qed.

Lemma generate_filename_unfold w url content_type s :
  generate_filename w url content_type s
  = match urlparse_error url with
    | Some what => (Raise (ValueError what), s)
    | None => (Val (_generate_filename (clock w) url content_type None), s)
    end.
Proof. unfold generate_filename. by case_match. Qed.

Lemma behaves_makedirs w : behaves grows (makedirs w).
Proof.
  intros s. rewrite makedirs_unfold.
  destruct (negb (Str.truthy (directory s))); [done|].
  destruct (fs s !! directory s) as [[|data readable| |]|] eqn:Hd; [done..|].
  destruct (makedirs_fault w); [done|].
  split; [|done]. simpl. split; [done|]. split; [done|]. simpl.
  by apply insert_subseteq.
Qed.

Lemma behaves_generate_filename R `{!PreOrder R} w url content_type :
  behaves R (generate_filename w url content_type).
Proof. intros s. rewrite generate_filename_unfold. by case_match. Qed.

Lemma behaves_write_file w p content s :
  fs s !! p = None →
  grows s (write_file w p content s).2
  ∧ ∀ r, (write_file w p content s).1 ≠ Return r.
Proof.
  intros Hp. rewrite write_file_unfold.
  destruct (open_fault w p); [done|].
  destruct (write_fault w p) as [[what written]|]; simpl;
    (split; [|done]); (split; [done|]); (split; [done|]); simpl;
    by apply insert_subseteq.
Qed.

Lemma behaves_save w url actual_content_type content :
  behaves grows (save w url actual_content_type content).
Proof.
  unfold save. apply behaves_bind; [apply _|apply behaves_check_duplicate|].
  intros duplicate. apply behaves_bind; [apply _|auto with behave|].
  intros _. apply behaves_bind; [apply _|apply behaves_makedirs|].
  intros _. apply behaves_bind; [apply _|apply (behaves_generate_filename grows)|].
  intros filename s. unfold mbind, M_bind. simpl.
  destruct (behaves_write_file w
              (resolve_conflict (fs s) (Path.join (directory s) filename))
              content s (resolve_conflict_free _ _)) as [Hg Hr].
  destruct (write_file w _ content s) as [[[]|r|e] s'] eqn:Hw; simpl in *;
    (split; [done|]); [done| |done].
  by destruct (Hr r).
Qed.

Lemma behaves_fetch_image_body w url : behaves grows (fetch_image_body w url).
Proof.
  unfold fetch_image_body.
  apply behaves_bind; [apply _|apply behaves_download; apply _|].
  intros [actual_content_type content]. apply behaves_save.
Qed.

Lemma fetch_image_grows w url s : grows s (fetch_image w url s).2.
Proof.
  destruct (behaves_fetch_image_body w url s) as [Hg _].
  unfold fetch_image. by destruct (fetch_image_body w url s) as [[r|r|e] s'].
Qed.

Lemma fetch_loop_grows W i urls results s :
  grows s (fetch_loop W i urls results s).2.
Proof.
  revert i results s. induction urls as [|url urls IH]; intros i results s.
  - done.
  - simpl. pose proof (fetch_image_grows (W i) (Str.strip url) s) as Hg.
    destruct (fetch_image (W i) (Str.strip url) s) as [r s'].
    etrans; [exact Hg|]. apply IH.
Qed.

Lemma behaves_load_existing_hashes : behaves grows _load_existing_hashes.
Proof.
  unfold _load_existing_hashes. pose proof behaves_add_hash. behave.
Qed.

(** *** [fetch_image] case by case *)

Lemma on_exception_failure e : failure (on_exception e).
Proof. by destruct e. Qed.

(** An early [return] of the download is the result, and nothing changes. *)
Lemma fetch_image_returned w url s r :
  (download w url s).1 = Return r → fetch_image w url s = (r, s).
Proof.
  intros Hd. unfold fetch_image, fetch_image_body, mbind, M_bind.
  by rewrite download_eq, Hd.
Qed.

(** An exception of the download is reported, and nothing changes. *)
Lemma fetch_image_raised w url s e :
  (download w url s).1 = Raise e → fetch_image w url s = (on_exception e, s).
Proof.
  intros Hd. unfold fetch_image, fetch_image_body, mbind, M_bind.
  by rewrite download_eq, Hd.
Qed.

Lemma fetch_image_downloaded w url s actual_content_type content :
  (download w url s).1 = Val (actual_content_type, content) →
  fetch_image w url s
  = match save w url actual_content_type content s with
    | (Val r, s') => (r, s')
    | (Return r, s') => (r, s')
    | (Raise e, s') => (on_exception e, s')
    end.
Proof.
  intros Hd. unfold fetch_image, fetch_image_body, mbind, M_bind.
  by rewrite download_eq, Hd.
Qed.

Lemma fetch_image_not_downloaded w url s :
  (∀ x, (download w url s).1 ≠ Val x) →
  (fetch_image w url s).2 = s ∧ failure (fetch_image w url s).1.
Proof.
  intros Hd. destruct (download w url s).1 as [x|r|e] eqn:Hdl.
  - by destruct (Hd x).
  - rewrite (fetch_image_returned _ _ _ _ Hdl). split; [done|].
    eapply (download_Return w url s r s). by rewrite download_eq, Hdl.
  - rewrite (fetch_image_raised _ _ _ _ Hdl). split; [done|].
    apply on_exception_failure.
Qed.

(** Lines 138-162 as one case analysis. *)
Lemma save_unfold w url actual_content_type content s :
  save w url actual_content_type content s
  = match _check_duplicate content s with
    | (Val true, s1) => (Return (false, DuplicateDetected, None), s1)
    | (Val false, s1) =>
        match makedirs w s1 with
        | (Val _, s2) =>
            match urlparse_error url with
            | Some what => (Raise (ValueError what), s2)
            | None =>
                let p := resolve_conflict (fs s2)
                           (Path.join (directory s2)
                              (_generate_filename (clock w) url actual_content_type None)) in
                match write_file w p content s2 with
                | (Val _, s3) =>
                    (Val (true, Saved (Path.basename p) (length content), Some p), s3)
                | (Return r, s3) => (Return r, s3)
                | (Raise e, s3) => (Raise e, s3)
                end
            end
        | (Return r, s2) => (Return r, s2)
        | (Raise e, s2) => (Raise e, s2)
        end
    | (Return r, s1) => (Return r, s1)
    | (Raise e, s1) => (Raise e, s1)
    end.
Proof.
  unfold save. unfold mbind at 1, M_bind at 1.
  destruct (_check_duplicate content s) as [[[]|r|e] s1]; try done.
  unfold mbind at 1, M_bind at 1. simpl.
  unfold mbind at 1, M_bind at 1.
  destruct (makedirs w s1) as [[[]|r|e] s2]; try done.
  unfold mbind at 1, M_bind at 1. rewrite generate_filename_unfold.
  destruct (urlparse_error url); [done|].
  unfold mbind at 1, M_bind at 1. simpl.
  unfold mbind at 1, M_bind at 1.
  by destruct (write_file w _ content s2) as [[[]|r|e] s3].
Qed.

(** The three ways [save] ends: a duplicate; an exception after the hash
    was recorded, which line 172 reports as unexpected; or a new file at
    a path that was free. *)
Lemma save_cases w url actual_content_type content s :
  let h := md5_hexdigest content in
  (h ∈ downloaded_hashes s
   ∧ save w url actual_content_type content s
     = (Return (false, DuplicateDetected, None), s))
  ∨ ((h ∉ downloaded_hashes s)
     ∧ ∃ e s',
         save w url actual_content_type content s = (Raise e, s')
         ∧ downloaded_hashes s' = {[h]} ∪ downloaded_hashes s
         ∧ on_exception e = (false, UnexpectedError e, None)
         ∧ ((∃ what, e = OSError what)
            ∨ (e = ValueError (default "" (urlparse_error url))
               ∧ is_Some (urlparse_error url))))
  ∨ ((h ∉ downloaded_hashes s)
     ∧ ∃ s2,
         let p := resolve_conflict (fs s2)
                    (Path.join (directory s)
                       (_generate_filename (clock w) url actual_content_type None)) in
         save w url actual_content_type content s
         = (Val (true, Saved (Path.basename p) (length content), Some p),
            with_fs (<[p := File content true]> (fs s2)) s2)
         ∧ makedirs w (with_hashes ({[h]} ∪ downloaded_hashes s) s) = (Val (), s2)
         ∧ downloaded_hashes s2 = {[h]} ∪ downloaded_hashes s
         ∧ urlparse_error url = None
         ∧ open_fault w p = None
         ∧ write_fault w p = None).
Proof.
  intros h. rewrite save_unfold. unfold _check_duplicate, mbind, M_bind. simpl.
  fold h. case_bool_decide as Hh; simpl; [by left|right].
  set (s1 := with_hashes ({[h]} ∪ downloaded_hashes s) s).
  destruct (makedirs w s1) as [[[]|r|e] s2] eqn:Hmk.
  - assert (downloaded_hashes s2 = {[h]} ∪ downloaded_hashes s
            ∧ directory s2 = directory s) as [Hh2 Hd2].
    { rewrite makedirs_unfold in Hmk. by repeat case_match; simplify_eq. }
    destruct (urlparse_error url) as [what|] eqn:Hurl.
    { left. split; [done|]. eexists _, _. split; [done|]. split; [done|].
      split; [done|]. right. by split. }
    cbv zeta. rewrite Hd2, write_file_unfold.
    destruct (open_fault w _) as [what|] eqn:Hopen.
    { left. split; [done|]. eexists _, _. split; [done|]. split; [done|].
      split; [done|]. left. by eexists. }
    destruct (write_fault w _) as [[what written]|] eqn:Hwrite.
    { left. split; [done|]. eexists _, _. split; [done|]. split; [done|].
      split; [done|]. left. by eexists. }
    right. split; [done|]. by exists s2.
  - rewrite makedirs_unfold in Hmk. by repeat case_match.
  - left. split; [done|]. exists e, s2. split; [done|].
    rewrite makedirs_unfold in Hmk.
    repeat case_match; simplify_eq; (split; [done|]); (split; [done|]);
      left; by eexists.
Qed.

End FetcherState.

(** ** The download, step by step *)

Section DownloadFacts.
Context `{PyLib}.

(** Lines 96-114 as one case analysis on the answer to the HEAD request. *)
Lemma probe_unfold w url s :
  probe w url s
  = match session_head w url with
    | Fail e =>
        if is_request_exception e then (Val "image/jpeg", s) else (Raise e, s)
    | Ok head_response =>
        let content_type :=
          default "" (content_type_header head_response) in
        if negb (_is_safe_content_type content_type)
        then (Return (false, NotSafeType content_type, None), s)
        else
          match content_length_header head_response with
          | Some cl =>
              if Str.truthy cl then
                match int_of_str cl with
                | Some n =>
                    if max_size <? n
                    then (Return (false, TooLargeDeclared, None), s)
                    else (Val content_type, s)
                | None => (Raise (ValueError cl), s)
                end
              else (Val content_type, s)
          | None => (Val content_type, s)
          end
    end.
Proof.
  unfold probe, try_except, mbind, M_bind, call.
  destruct (session_head w url) as [head_response|e]; simpl.
  - destruct (_is_safe_content_type _); simpl; [|done].
    destruct (content_length_header head_response) as [cl|]; simpl; [|done].
    destruct (Str.truthy cl); simpl; [|done].
    destruct (int_of_str cl) as [n|]; simpl; [|done].
    by destruct (max_size <? n).
  - by destruct e.
Qed.

(** A probe that lets the fetch continue hands on an accepted type. *)
Lemma probe_Val_safe w url s content_type :
  (probe w url s).1 = Val content_type →
  _is_safe_content_type content_type = true.
Proof.
  rewrite probe_unfold. destruct (session_head w url) as [h|e]; simpl.
  - destruct (_is_safe_content_type (default "" _)) eqn:Hsafe; simpl; [|done].
    repeat case_match; simpl; intros; by simplify_eq.
  - destruct (is_request_exception e); simpl; [|done]. by intros [= <-].
Qed.

Lemma read_content_state chunks fault content downloaded_size s :
  (read_content chunks fault content downloaded_size s).2 = s.
Proof.
  by destruct (behaves_read_content eq chunks fault content downloaded_size s)
    as [<- _].
Qed.

(** The loop returns early with one message only. *)
Lemma read_content_Return chunks fault content downloaded_size s r :
  (read_content chunks fault content downloaded_size s).1 = Return r →
  r = (false, TooLargeStreamed, None).
Proof.
  revert content downloaded_size.
  induction chunks as [|chunk rest IH]; intros content downloaded_size; simpl.
  - by destruct fault.
  - destruct (nonempty chunk); [|by apply IH].
    unfold mbind, M_bind, return_if.
    destruct (max_size <? downloaded_size + len chunk); simpl.
    + by intros [= <-].
    + by apply IH.
Qed.

(** Once the running total passes the limit the loop returns, whatever
    follows in the stream. *)
Lemma read_content_over_limit pre post fault content downloaded_size s :
  downloaded_size ≤ max_size →
  max_size < downloaded_size + streamed pre →
  read_content (pre ++ post) fault content downloaded_size s
  = (Return (false, TooLargeStreamed, None), s).
Proof.
  revert content downloaded_size.
  induction pre as [|chunk pre IH]; intros content downloaded_size Hle Hlt;
    simpl in *; [lia|].
  destruct chunk as [|b chunk]; simpl.
  - apply IH; [done|]. unfold len in Hlt. simpl in Hlt. lia.
  - unfold mbind, M_bind, return_if.
    destruct (Z.ltb_spec max_size (downloaded_size + len (b :: chunk)));
      simpl; [done|].
    apply IH; lia.
Qed.

(** Lines 116-136 as one case analysis on the answer to the GET request. *)
Lemma retrieve_unfold w url content_type s :
  retrieve w url content_type s
  = match session_get w url with
    | Fail e => (Raise e, s)
    | Ok response =>
        if http_ok response then
          let actual_content_type :=
            default content_type
                    (content_type_header (headers_of response)) in
          if negb (_is_safe_content_type actual_content_type)
          then (Return (false, ResponseNotSafe actual_content_type, None), s)
          else
            match read_content (chunks_of response) (stream_fault response)
                               [] 0 s with
            | (Val content, s') => (Val (actual_content_type, content), s')
            | (Return r, s') => (Return r, s')
            | (Raise e, s') => (Raise e, s')
            end
        else (Raise (HTTPError (status_code_of response)), s)
    end.
Proof.
  unfold retrieve, mbind, M_bind, call, raise_for_status, http_ok.
  destruct (session_get w url) as [response|e]; simpl; [|done].
  destruct (_ && _); simpl; [done|].
  by destruct (_is_safe_content_type _).
Qed.

Lemma download_unfold w url s :
  download w url s
  = match (probe w url s).1 with
    | Val content_type => retrieve w url content_type s
    | Return r => (Return r, s)
    | Raise e => (Raise e, s)
    end.
Proof.
  unfold download, mbind, M_bind.
  destruct (behaves_probe eq w url s) as [Hs _].
  by destruct (probe w url s) as [[content_type|r|e] s']; simpl in *; subst.
Qed.

End DownloadFacts.

(** ** The registry *)

Section Registry.
Context `{PyLib}.

Lemma fetch_all_grows calls s : grows s (fetch_all calls s).
Proof.
  revert s. induction calls as [|[w url] calls IH]; intros s; simpl; [done|].
  etrans; [apply (fetch_image_grows w url)|apply IH].
Qed.

(** C10. No method removes a hash: the registry before the start-up
    scan, a duplicate check, a single fetch or a batch is contained in
    the registry after it. *)
Theorem registry_only_grows :
  (∀ s, downloaded_hashes s ⊆ downloaded_hashes (_load_existing_hashes s).2)
  ∧ (∀ content s,
       downloaded_hashes s ⊆ downloaded_hashes (_check_duplicate content s).2)
  ∧ (∀ w url s,
       downloaded_hashes s ⊆ downloaded_hashes (fetch_image w url s).2)
  ∧ (∀ W urls s,
       downloaded_hashes s
       ⊆ downloaded_hashes (fetch_multiple_images W urls s).2).
Proof.
  split; [|split; [|split]].
  - intros s. by destruct (behaves_load_existing_hashes s) as [(_ & ? & _) _].
  - intros content s.
    by destruct (behaves_check_duplicate content s) as [(_ & ? & _) _].
  - intros w url s. by destruct (fetch_image_grows w url s) as (_ & ? & _).
  - intros W urls s. unfold fetch_multiple_images.
    by destruct (fetch_loop_grows W 1 urls [] s) as (_ & ? & _).
Qed.

End Registry.

(** ** Batches *)

Section Batch.
Context `{PyLib}.

Lemma fetch_loop_cons W i url urls results s :
  fetch_loop W i (url :: urls) results s
  = fetch_loop W (S i) urls
      (results ++ [(url, (fetch_image (W i) (Str.strip url) s).1)])
      (fetch_image (W i) (Str.strip url) s).2.
Proof. simpl. by destruct (fetch_image _ _ _). Qed.

(** The loop only appends to [results], one entry per URL. *)
Lemma fetch_loop_extends W i urls results s :
  ∃ new, (fetch_loop W i urls results s).1 = results ++ new
         ∧ length new = length urls.
Proof.
  revert i results s. induction urls as [|url urls IH]; intros i results s.
  - exists []. by rewrite app_nil_r.
  - rewrite fetch_loop_cons.
    destruct (IH (S i) (results ++ [(url, (fetch_image (W i) (Str.strip url) s).1)])
                 (fetch_image (W i) (Str.strip url) s).2) as (new & -> & Hlen).
    eexists (_ :: new). rewrite <-app_assoc. split; [done|]. simpl. lia.
Qed.

Lemma fetch_loop_lookup W urls i results s k :
  (fetch_loop W i urls results s).1 !! (length results + k)%nat
  = (λ url, (url, (fetch_image (W (i + k)%nat) (Str.strip url)
                     (fetch_loop W i (take k urls) results s).2).1))
    <$> urls !! k.
Proof.
  revert i results s k.
  induction urls as [|url urls IH]; intros i results s k.
  - simpl. apply lookup_ge_None_2. lia.
  - rewrite fetch_loop_cons. destruct k as [|k].
    + destruct (fetch_loop_extends W (S i) urls
        (results ++ [(url, (fetch_image (W i) (Str.strip url) s).1)])
        (fetch_image (W i) (Str.strip url) s).2) as (new & -> & _).
      rewrite <-!app_assoc, Nat.add_0_r, lookup_app_r by lia.
      by rewrite Nat.sub_diag, Nat.add_0_r.
    + specialize (IH (S i)
        (results ++ [(url, (fetch_image (W i) (Str.strip url) s).1)])
        (fetch_image (W i) (Str.strip url) s).2 k).
      rewrite length_app in IH. simpl in IH.
      replace (length results + S k)%nat with (length results + 1 + k)%nat by lia.
      rewrite IH. simpl take. rewrite fetch_loop_cons.
      by replace (i + S k)%nat with (S i + k)%nat by lia.
Qed.

Lemma fetch_image_failure w url s :
  success (fetch_image w url s).1 = false → failure (fetch_image w url s).1.
Proof.
  destruct (download w url s).1 as [[act content]|r|e] eqn:Hd.
  - rewrite (fetch_image_downloaded _ _ _ _ _ Hd).
    destruct (save_cases w url act content s)
      as [[_ ->]|[(_ & e & s' & -> & _ & -> & _)|(_ & s2 & -> & _)]]; done.
  - intros _. apply fetch_image_not_downloaded. intros x. by rewrite Hd.
  - intros _. apply fetch_image_not_downloaded. intros x. by rewrite Hd.
Qed.

(** C7. A batch yields one entry per URL, in order: the entry at
    position [i] pairs the [i]-th URL with the result of fetching it in
    the state the earlier URLs left, whatever their results were. An
    exception raised inside a fetch becomes that URL's result, a failure
    without a path, and so does every other unsuccessful result. *)
Theorem batch_results_follow_urls (W : nat → world) (urls : list string)
    (s : state) :
  let results := (fetch_multiple_images W urls s).1 in
  length results = length urls
  ∧ results.*1 = urls
  ∧ (∀ i,
       results !! i
       = (λ url, (url, (fetch_image (W (S i)) (Str.strip url)
                          (fetch_multiple_images W (take i urls) s).2).1))
         <$> urls !! i)
  ∧ (∀ w url s e s',
       fetch_image_body w url s = (Raise e, s') →
       fetch_image w url s = (on_exception e, s')
       ∧ failure (on_exception e))
  ∧ Forall (λ entry, success entry.2 = false → failure entry.2) results.
Proof.
  cbv zeta. unfold fetch_multiple_images.
  assert (∀ i, (fetch_loop W 1 urls [] s).1 !! i
               = (λ url, (url, (fetch_image (W (S i)) (Str.strip url)
                                  (fetch_loop W 1 (take i urls) [] s).2).1))
                 <$> urls !! i) as Hlookup.
  { intros i. apply (fetch_loop_lookup W urls 1 [] s i). }
  destruct (fetch_loop_extends W 1 urls [] s) as (new & Hnew & Hlen).
  simpl in Hnew. split; [by rewrite Hnew|]. split; [|split; [done|split]].
  - apply list_eq. intros i. rewrite list_lookup_fmap, Hlookup.
    by destruct (urls !! i).
  - intros w url s0 e s' Hbody. split; [|apply on_exception_failure].
    unfold fetch_image. by rewrite Hbody.
  - apply Forall_lookup. intros i [url r] Hi. rewrite Hlookup in Hi.
    destruct (urls !! i) as [url'|]; simplify_eq/=.
    apply fetch_image_failure.
Qed.

End Batch.

Lemma batch_results_follow_urls_witness :
  fetch_image_body (H := Sample.lib) Sample.offline " http://example.org/a.png"
    Sample.fresh = (Raise ConnectionError, Sample.fresh)
  ∧ fetch_image (H := Sample.lib) Sample.offline " http://example.org/a.png"
      Sample.fresh = ((false, ConnectionFailed, None), Sample.fresh)
  ∧ (fetch_multiple_images (H := Sample.lib) (λ _, Sample.offline)
       [" http://example.org/a.png"; "http://example.org/b.png"]
       Sample.fresh).1
    = [(" http://example.org/a.png", (false, ConnectionFailed, None));
       ("http://example.org/b.png", (false, ConnectionFailed, None))].
Proof.
  pose proof (batch_results_follow_urls (H := Sample.lib) (λ _, Sample.offline)
                [" http://example.org/a.png"; "http://example.org/b.png"]
                Sample.fresh) as (_ & _ & _ & Hraise & _).
  split; [reflexivity|]. split; [|reflexivity].
  apply (Hraise Sample.offline " http://example.org/a.png" Sample.fresh
           ConnectionError Sample.fresh).
  reflexivity.
Defined.

(** ** Duplicates and failures *)

Section Duplicates.
Context `{PyLib}.

(** A content that got as far as the duplicate check is in the registry
    afterwards, whether or not its file was written. *)
Lemma downloaded_is_registered w url s actual_content_type content :
  (download w url s).1 = Val (actual_content_type, content) →
  md5_hexdigest content ∈ downloaded_hashes (fetch_image w url s).2.
Proof.
  intros Hd. rewrite (fetch_image_downloaded _ _ _ _ _ Hd).
  destruct (save_cases w url actual_content_type content s)
    as [[Hin Hsave]|[(_ & e & s' & Hsave & Hs' & _)
                    |(_ & s2 & Hsave & _ & Hs2 & _)]];
    rewrite Hsave; simpl.
  - done.
  - rewrite Hs'. apply elem_of_union_l. by apply elem_of_singleton.
  - rewrite Hs2. apply elem_of_union_l. by apply elem_of_singleton.
Qed.

Lemma fetch_image_duplicate w url s actual_content_type content :
  (download w url s).1 = Val (actual_content_type, content) →
  md5_hexdigest content ∈ downloaded_hashes s →
  fetch_image w url s = ((false, DuplicateDetected, None), s).
Proof.
  intros Hd Hin. rewrite (fetch_image_downloaded _ _ _ _ _ Hd).
  destruct (save_cases w url actual_content_type content s)
    as [[_ ->]|[(Hnin & _)|(Hnin & _)]]; done.
Qed.

(** C4. When two fetches of one run download the same bytes, the second
    one fails as a duplicate and leaves the whole state, registry and
    files, as it found it; this holds whatever was fetched in between
    and whatever became of the first file. *)
Theorem identical_bytes_are_refused
    (w1 w2 : world) (url1 url2 : string) (between : list (world * string))
    (s : state) (type1 type2 : string) (content : list byte) :
  (download w1 url1 s).1 = Val (type1, content) →
  (download w2 url2 (fetch_all between (fetch_image w1 url1 s).2)).1
  = Val (type2, content) →
  fetch_image w2 url2 (fetch_all between (fetch_image w1 url1 s).2)
  = ((false, DuplicateDetected, None),
     fetch_all between (fetch_image w1 url1 s).2).
Proof.
  intros Hd1 Hd2. apply (fetch_image_duplicate _ _ _ _ _ Hd2).
  pose proof (downloaded_is_registered _ _ _ _ _ Hd1) as Hin.
  destruct (fetch_all_grows between (fetch_image w1 url1 s).2)
    as (_ & Hsub & _).
  by apply Hsub.
Qed.

End Duplicates.

Lemma identical_bytes_are_refused_witness :
  let w := Sample.serving (Ok Sample.png_headers)
             (Ok (Sample.png_response Sample.picture)) in
  let s1 := (fetch_image (H := Sample.lib) w "http://x/test.png" Sample.fresh).2 in
  (download (H := Sample.lib) w "http://x/test.png" Sample.fresh).1
  = Val ("image/png", Sample.picture)
  ∧ (download (H := Sample.lib) w "http://x/copy.png" s1).1
    = Val ("image/png", Sample.picture)
  ∧ fs s1 !! "Fetched_Images/test.png" = Some (File Sample.picture true)
  ∧ fetch_image (H := Sample.lib) w "http://x/copy.png" s1
    = ((false, DuplicateDetected, None), s1).
Proof.
  cbv zeta. split; [reflexivity|]. split; [reflexivity|]. split; [reflexivity|].
  apply (identical_bytes_are_refused (H := Sample.lib) _ _
           "http://x/test.png" "http://x/copy.png" [] Sample.fresh
           "image/png" "image/png" Sample.picture); reflexivity.
Defined.

Section Failures.
Context `{PyLib}.

(** C3, as the code has it. The duplicate check itself records the hash
    of a new content, before the directory is made, the file name derived
    and the file written. A call that fails leaves the state, and so the
    registry, exactly as it was, unless it reports as unexpected an
    exception raised after that check had passed: it does so whenever
    its message is another one, and whenever the download did not
    complete or its content was in the registry already. A call that
    succeeds leaves the registry with one more hash, that of the file it
    wrote. *)
Theorem registry_after_fetch (w : world) (url : string) (s : state) :
  (success (fetch_image w url s).1 = false →
   (∀ e, message_of (fetch_image w url s).1 ≠ UnexpectedError e) →
   (fetch_image w url s).2 = s)
  ∧ (success (fetch_image w url s).1 = false →
     (∀ actual_content_type content,
        (download w url s).1 = Val (actual_content_type, content) →
        md5_hexdigest content ∈ downloaded_hashes s) →
     (fetch_image w url s).2 = s)
  ∧ (success (fetch_image w url s).1 = true →
     ∃ actual_content_type content p,
       (download w url s).1 = Val (actual_content_type, content)
       ∧ (md5_hexdigest content ∉ downloaded_hashes s)
       ∧ downloaded_hashes (fetch_image w url s).2
         = {[md5_hexdigest content]} ∪ downloaded_hashes s
       ∧ filepath_of (fetch_image w url s).1 = Some p
       ∧ fs (fetch_image w url s).2 !! p = Some (File content true))
  ∧ (∀ content,
       md5_hexdigest content ∈ downloaded_hashes (_check_duplicate content s).2
       ∧ fs (_check_duplicate content s).2 = fs s).
Proof.
  split; [|split; [|split]].
  - destruct (download w url s).1 as [[act content]|r|e] eqn:Hd.
    + rewrite (fetch_image_downloaded _ _ _ _ _ Hd).
      destruct (save_cases w url act content s)
        as [[_ ->]|[(_ & e & s' & -> & _ & -> & _)|(_ & s2 & -> & _)]]; simpl;
        [done| |done].
      intros _ Hmsg. by destruct (Hmsg e).
    + intros _ _. by rewrite (fetch_image_returned _ _ _ _ Hd).
    + intros _ _. by rewrite (fetch_image_raised _ _ _ _ Hd).
  - destruct (download w url s).1 as [[act content]|r|e] eqn:Hd.
    + rewrite (fetch_image_downloaded _ _ _ _ _ Hd).
      destruct (save_cases w url act content s)
        as [[_ ->]|[(Hnin & _)|(Hnin & _)]]; [done|..];
        intros _ Hin; by destruct (Hnin (Hin act content eq_refl)).
    + intros _ _. by rewrite (fetch_image_returned _ _ _ _ Hd).
    + intros _ _. by rewrite (fetch_image_raised _ _ _ _ Hd).
  - destruct (download w url s).1 as [[act content]|r|e] eqn:Hd.
    + rewrite (fetch_image_downloaded _ _ _ _ _ Hd).
      destruct (save_cases w url act content s)
        as [[_ ->]|[(_ & e & s' & -> & _ & -> & _)
                   |(Hnin & s2 & -> & _ & Hs2 & _)]];
        simpl; [done..|].
      intros _. eexists act, content, _. split; [done|]. split; [done|].
      split; [done|]. split; [done|]. simpl. apply lookup_insert_eq.
    + intros Hok. destruct (fetch_image_not_downloaded w url s) as [_ [Hf _]].
      { intros x. by rewrite Hd. }
      congruence.
    + intros Hok. destruct (fetch_image_not_downloaded w url s) as [_ [Hf _]].
      { intros x. by rewrite Hd. }
      congruence.
  - intros content. unfold _check_duplicate, add_hash, mbind, M_bind. simpl.
    case_bool_decide; simpl; [done|]. split; [set_solver|done].
Qed.

End Failures.

Lemma registry_after_fetch_witness :
  let w := Sample.serving (Ok (Headers (Some "application/pdf") None))
             (Ok (Sample.png_response Sample.picture)) in
  let v := Sample.serving (Ok (Headers (Some "image/png") (Some "4 KB")))
             (Ok (Sample.png_response Sample.picture)) in
  fetch_image (H := Sample.lib) w "http://x/test.png" Sample.fresh
  = ((false, NotSafeType "application/pdf", None), Sample.fresh)
  ∧ (fetch_image (H := Sample.lib) w "http://x/test.png" Sample.fresh).2
    = Sample.fresh
  ∧ (fetch_image (H := Sample.lib) v "http://x/test.png" Sample.fresh).1
    = (false, UnexpectedError (ValueError "4 KB"), None)
  ∧ (fetch_image (H := Sample.lib) v "http://x/test.png" Sample.fresh).2
    = Sample.fresh.
Proof.
  cbv zeta. split; [reflexivity|]. split; [|split; [reflexivity|]].
  - apply (proj1 (registry_after_fetch (H := Sample.lib) _ _ _));
      [reflexivity | done].
  - apply (proj1 (proj2 (registry_after_fetch (H := Sample.lib) _ _ _)));
      [reflexivity | intros act content Hd; by vm_compute in Hd].
Defined.

(** C3 as the specification words it fails. The duplicate check alone
    records the hash of a new content, with no file written. So when the
    file then cannot be written the call fails, yet the hash is in the
    registry, and a second attempt is turned away as a duplicate of a file
    that does not exist. *)
Lemma failed_write_leaves_hash :
  let w := Sample.write_protected (Ok Sample.png_headers)
             (Ok (Sample.png_response Sample.picture)) in
  let s := Sample.empty_directory in
  let h := md5_hexdigest (PyLib := Sample.lib) Sample.picture in
  let r := fetch_image (H := Sample.lib) w "http://x/test.png" s in
  downloaded_hashes s = ∅
  ∧ _check_duplicate (H := Sample.lib) Sample.picture s
    = (Val false, State "Fetched_Images" {[h]} (fs s))
  ∧ r.1 = (false, UnexpectedError (OSError "Permission denied"), None)
  ∧ downloaded_hashes r.2 = {[h]}
  ∧ downloaded_hashes r.2 ≠ downloaded_hashes s
  ∧ fs r.2 = fs s
  ∧ fetch_image (H := Sample.lib) w "http://x/test.png" r.2
    = ((false, DuplicateDetected, None), r.2).
Proof.
  cbv zeta. split; [reflexivity|]. split; [by vm_compute|].
  split; [reflexivity|].
  split; [by vm_compute|]. split; [|split; by vm_compute].
  intros Heq.
  assert (md5_hexdigest (PyLib := Sample.lib) Sample.picture
          ∈ downloaded_hashes Sample.empty_directory) as Hin.
  { rewrite <-Heq. by vm_compute. }
  by vm_compute in Hin.
Qed.

(** The same happens when [urlparse] does not take the URL: line 146
    raises after the hash was recorded and the directory made. *)
Lemma rejected_url_leaves_hash :
  let w := Sample.serving (Ok Sample.png_headers)
             (Ok (Sample.png_response Sample.picture)) in
  let h := md5_hexdigest (PyLib := Sample.lib) Sample.picture in
  let r := fetch_image (H := Sample.lib) w "http://a[@example.com/x.png"
             Sample.fresh in
  r.1 = (false, UnexpectedError (ValueError "Invalid IPv6 URL"), None)
  ∧ downloaded_hashes r.2 = {[h]}
  ∧ fs r.2 = {["Fetched_Images" := Dir]}
  ∧ fetch_image (H := Sample.lib) w "http://a[@example.com/x.png" r.2
    = ((false, DuplicateDetected, None), r.2).
Proof. cbv zeta. repeat split; by vm_compute. Qed.

(** ** The probe and the full request *)

Section Validation.
Context `{PyLib}.

Lemma probe_Return w url s r :
  (probe w url s).1 = Return r →
  (∃ t, r = (false, NotSafeType t, None)) ∨ r = (false, TooLargeDeclared, None).
Proof.
  rewrite probe_unfold. destruct (session_head w url) as [h|e]; simpl.
  - destruct (_is_safe_content_type (default "" _)); simpl.
    + repeat case_match; simpl; intros; simplify_eq. by right.
    + intros [= <-]. left. by eexists.
  - by destruct (is_request_exception e).
Qed.

Lemma on_exception_message e t :
  message_of (on_exception e) ≠ ResponseNotSafe t.
Proof. by destruct e. Qed.

(** The download when the GET answer carries no content type: the type
    of the probe stands in, it is accepted, and the body is read. *)
Lemma retrieve_untyped w url content_type s response :
  session_get w url = Ok response →
  content_type_header (headers_of response) = None →
  _is_safe_content_type content_type = true →
  http_ok response = true →
  retrieve w url content_type s
  = match read_content (chunks_of response) (stream_fault response) [] 0 s with
    | (Val content, s') => (Val (content_type, content), s')
    | (Return r, s') => (Return r, s')
    | (Raise e, s') => (Raise e, s')
    end.
Proof.
  intros Hget Hnone Hsafe Hok. rewrite retrieve_unfold, Hget, Hok, Hnone.
  simpl. by rewrite Hsafe.
Qed.

(** C2, as the code has it. When the GET answer declares no content
    type, the second validation is made on the probe's content type,
    which the first validation accepted, or on [image/jpeg] when the
    probe failed. That validation succeeds: the fetch never reports
    that the response is not a safe image, and it goes on to read the
    body. *)
Theorem missing_content_type_falls_back
    (w : world) (url : string) (s : state) (response : response) :
  session_get w url = Ok response →
  content_type_header (headers_of response) = None →
  (∀ t, message_of (fetch_image w url s).1 ≠ ResponseNotSafe t)
  ∧ (∀ content_type,
       (probe w url s).1 = Val content_type →
       _is_safe_content_type content_type = true
       ∧ (∀ e, session_head w url = Fail e → content_type = "image/jpeg")
       ∧ (∀ h, session_head w url = Ok h →
               content_type = default "" (content_type_header h))
       ∧ (http_ok response = true →
          download w url s
          = match read_content (chunks_of response) (stream_fault response)
                               [] 0 s with
            | (Val content, s') => (Val (content_type, content), s')
            | (Return r, s') => (Return r, s')
            | (Raise e, s') => (Raise e, s')
            end)).
Proof.
  intros Hget Hnone. split.
  - intros t. destruct (download w url s).1 as [[act content]|r|e] eqn:Hd.
    + rewrite (fetch_image_downloaded _ _ _ _ _ Hd).
      by destruct (save_cases w url act content s)
        as [[_ ->]|[(_ & e & s' & -> & _ & -> & _)|(_ & s2 & -> & _)]].
    + rewrite (fetch_image_returned _ _ _ _ Hd).
      rewrite download_unfold in Hd.
      destruct (probe w url s).1 as [content_type|r'|e] eqn:Hp; simpl in Hd.
      * pose proof (probe_Val_safe _ _ _ _ Hp) as Hsafe.
        rewrite retrieve_unfold, Hget, Hnone in Hd. simpl in Hd.
        rewrite Hsafe in Hd. simpl in Hd.
        destruct (http_ok response); [|done].
        destruct (read_content _ _ _ _ s) as [[content|r'|e] s'] eqn:Hread;
          simplify_eq/=.
        by rewrite (read_content_Return _ _ _ _ s r)
          by (by rewrite Hread).
      * simplify_eq. by destruct (probe_Return _ _ _ _ Hp) as [[t' ->]| ->].
      * done.
    + rewrite (fetch_image_raised _ _ _ _ Hd). apply on_exception_message.
  - intros content_type Hp.
    pose proof (probe_Val_safe _ _ _ _ Hp) as Hsafe. split; [done|].
    split; [|split].
    + intros e He. rewrite probe_unfold, He in Hp.
      destruct (is_request_exception e); by simplify_eq/=.
    + intros h Hh. rewrite probe_unfold, Hh in Hp. simpl in Hp.
      destruct (negb _); [done|]. repeat case_match; by simplify_eq/=.
    + intros Hok. rewrite download_unfold, Hp.
      by apply retrieve_untyped.
Qed.

(** C8. When the HEAD request raises a [requests] exception the fetch
    does not end there: the probe yields the default [image/jpeg], the
    GET request is made, and the result is decided by its answer: its
    exception if it raises one, a refusal if the type it declares is
    not accepted, and otherwise the reading of its body under the type
    it declares. *)
Theorem probe_failure_is_not_fatal
    (w : world) (url : string) (s : state) (e : exn) :
  session_head w url = Fail e →
  is_request_exception e = true →
  probe w url s = (Val "image/jpeg", s)
  ∧ download w url s = retrieve w url "image/jpeg" s
  ∧ (∀ e', session_get w url = Fail e' →
           fetch_image w url s = (on_exception e', s))
  ∧ (∀ response t,
       session_get w url = Ok response →
       http_ok response = true →
       content_type_header (headers_of response) = Some t →
       (_is_safe_content_type t = false →
        fetch_image w url s = ((false, ResponseNotSafe t, None), s))
       ∧ (_is_safe_content_type t = true →
          download w url s
          = match read_content (chunks_of response) (stream_fault response)
                               [] 0 s with
            | (Val content, s') => (Val (t, content), s')
            | (Return r, s') => (Return r, s')
            | (Raise e, s') => (Raise e, s')
            end)).
Proof.
  intros Hhead Hreq.
  assert (probe w url s = (Val "image/jpeg", s)) as Hp.
  { by rewrite probe_unfold, Hhead, Hreq. }
  assert (download w url s = retrieve w url "image/jpeg" s) as Hd.
  { by rewrite download_unfold, Hp. }
  split; [done|]. split; [done|]. split.
  - intros e' Hget. apply fetch_image_raised.
    by rewrite Hd, retrieve_unfold, Hget.
  - intros response t Hget Hok Ht. split; intros Hsafe.
    + apply fetch_image_returned.
      rewrite Hd, retrieve_unfold, Hget, Hok, Ht. simpl. by rewrite Hsafe.
    + rewrite Hd, retrieve_unfold, Hget, Hok, Ht. simpl. by rewrite Hsafe.
Qed.

End Validation.

Lemma missing_content_type_falls_back_witness :
  let w := Sample.serving (Ok Sample.png_headers)
             (Ok (Sample.untyped_response Sample.picture)) in
  session_get w "http://x/test.png"
  = Ok (Sample.untyped_response Sample.picture)
  ∧ content_type_header (headers_of (Sample.untyped_response Sample.picture))
    = None
  ∧ (∀ t, message_of (fetch_image (H := Sample.lib) w "http://x/test.png"
                        Sample.fresh).1 ≠ ResponseNotSafe t)
  ∧ (probe (H := Sample.lib) w "http://x/test.png" Sample.fresh).1
    = Val "image/png"
  ∧ _is_safe_content_type "image/png" = true.
Proof.
  cbv zeta. split; [reflexivity|]. split; [reflexivity|].
  destruct (missing_content_type_falls_back (H := Sample.lib)
              (Sample.serving (Ok Sample.png_headers)
                 (Ok (Sample.untyped_response Sample.picture)))
              "http://x/test.png" Sample.fresh
              (Sample.untyped_response Sample.picture) eq_refl eq_refl)
    as [Hmessage Hprobe].
  split; [exact Hmessage|]. split; [reflexivity|].
  apply (Hprobe "image/png"). reflexivity.
Defined.

(** C2 as the specification words it fails: a GET answer without a
    content type is saved, both after a probe that declared [image/png]
    and after a probe that timed out. *)
Lemma untyped_response_is_saved :
  content_type_header (headers_of (Sample.untyped_response Sample.picture)) = None
  ∧ (fetch_image (H := Sample.lib)
       (Sample.serving (Ok Sample.png_headers)
          (Ok (Sample.untyped_response Sample.picture)))
       "http://x/test.png" Sample.fresh).1
    = (true, Saved "test.png" 4, Some "Fetched_Images/test.png")
  ∧ (fetch_image (H := Sample.lib)
       (Sample.serving (Fail Timeout)
          (Ok (Sample.untyped_response Sample.picture)))
       "http://x/test.png" Sample.fresh).1
    = (true, Saved "test.png" 4, Some "Fetched_Images/test.png").
Proof. repeat split; reflexivity. Qed.

Lemma probe_failure_is_not_fatal_witness :
  let w := Sample.serving (Fail Timeout)
             (Ok (Sample.png_response Sample.picture)) in
  session_head w "http://x/test.png" = Fail Timeout
  ∧ is_request_exception Timeout = true
  ∧ probe (H := Sample.lib) w "http://x/test.png" Sample.fresh
    = (Val "image/jpeg", Sample.fresh)
  ∧ (fetch_image (H := Sample.lib) w "http://x/test.png" Sample.fresh).1
    = (true, Saved "test.png" 4, Some "Fetched_Images/test.png").
Proof.
  cbv zeta. split; [reflexivity|]. split; [reflexivity|]. split; [|reflexivity].
  apply (probe_failure_is_not_fatal (H := Sample.lib) _ "http://x/test.png"
           Sample.fresh Timeout); reflexivity.
Defined.

(** ** The size limit *)

Lemma streamed_replicate n chunk :
  streamed (replicate n chunk) = Z.of_nat n * len chunk.
Proof.
  induction n as [|n IH]; [done|].
  change (streamed (replicate (S n) chunk))
    with (len chunk + streamed (replicate n chunk)).
  rewrite IH. lia.
Qed.

Lemma streamed_flood : max_size < streamed Sample.flood.
Proof.
  unfold Sample.flood, Sample.full_chunk, len.
  rewrite streamed_replicate. unfold len. rewrite length_replicate.
  rewrite !Z2Nat.id by done. done.
Qed.

Section SizeLimit.
Context `{PyLib}.

(** C5. When the chunks of the GET answer add up to more than 50 MiB,
    the fetch fails and leaves the state as it was: no file appears and
    the registry is untouched. If the fetch gets as far as reading the
    stream, the failure is the too-large one, and it is decided at the
    chunk that takes the total over the limit: what the
    stream holds or does after that chunk plays no part. *)
Theorem oversized_stream_is_aborted
    (w : world) (url : string) (s : state) (response : response)
    (pre post : list (list byte)) :
  session_get w url = Ok response →
  chunks_of response = pre ++ post →
  max_size < streamed pre →
  (fetch_image w url s).2 = s
  ∧ failure (fetch_image w url s).1
  ∧ (∀ content_type,
       (probe w url s).1 = Val content_type →
       http_ok response = true →
       _is_safe_content_type
         (default content_type (content_type_header (headers_of response)))
       = true →
       (fetch_image w url s).1 = (false, TooLargeStreamed, None)).
Proof.
  intros Hget Hchunks Hover.
  assert (read_content (chunks_of response) (stream_fault response) [] 0 s
          = (Return (false, TooLargeStreamed, None), s)) as Hread.
  { rewrite Hchunks. apply read_content_over_limit; [done|lia]. }
  assert (∀ content_type x, (retrieve w url content_type s).1 ≠ Val x)
    as Hretrieve.
  { intros content_type x. rewrite retrieve_unfold, Hget, Hread.
    destruct (http_ok response); [|done]. simpl. by destruct (negb _). }
  split; [|split].
  - apply fetch_image_not_downloaded. intros x. rewrite download_unfold.
    destruct (probe w url s).1; [apply Hretrieve|done..].
  - apply fetch_image_not_downloaded. intros x. rewrite download_unfold.
    destruct (probe w url s).1; [apply Hretrieve|done..].
  - intros content_type Hp Hok Hsafe.
    rewrite (fetch_image_returned w url s (false, TooLargeStreamed, None));
      [done|].
    rewrite download_unfold, Hp, retrieve_unfold, Hget, Hok. simpl.
    by rewrite Hsafe, Hread.
Qed.

End SizeLimit.

Lemma oversized_stream_is_aborted_witness :
  let w := Sample.serving (Ok Sample.png_headers)
             (Ok Sample.oversized_response) in
  session_get w "http://x/huge.png" = Ok Sample.oversized_response
  ∧ chunks_of Sample.oversized_response = Sample.flood ++ [Sample.full_chunk]
  ∧ max_size < streamed Sample.flood
  ∧ (fetch_image (H := Sample.lib) w "http://x/huge.png" Sample.fresh).2
    = Sample.fresh
  ∧ (fetch_image (H := Sample.lib) w "http://x/huge.png" Sample.fresh).1
    = (false, TooLargeStreamed, None).
Proof.
  cbv zeta. split; [reflexivity|]. split; [reflexivity|].
  split; [exact streamed_flood|].
  destruct (oversized_stream_is_aborted (H := Sample.lib)
              (Sample.serving (Ok Sample.png_headers)
                 (Ok Sample.oversized_response))
              "http://x/huge.png" Sample.fresh Sample.oversized_response
              Sample.flood [Sample.full_chunk] eq_refl eq_refl streamed_flood)
    as (Hstate & _ & Hresult).
  split; [exact Hstate|].
  apply (Hresult "image/png"); reflexivity.
Defined.

(** ** Saving under a free name *)

Section Saving.
Context `{PyLib}.
Local Arguments _generate_filename : simpl never.

Lemma makedirs_ensure w s :
  directory_ready (fs s) (directory s) = true →
  (fs s !! directory s = None → makedirs_fault w = None) →
  makedirs w s = (Val (), with_fs (ensure_directory (fs s) (directory s)) s).
Proof.
  intros [Ht Hready]%andb_true_iff Hmk. rewrite makedirs_unfold, Ht. simpl.
  unfold ensure_directory in *.
  destruct (fs s !! directory s) as [[|data readable| |]|];
    try done; try by destruct s.
  by rewrite Hmk.
Qed.

Lemma makedirs_Val w s s2 :
  makedirs w s = (Val (), s2) →
  s2 = with_fs (ensure_directory (fs s) (directory s)) s
  ∧ directory_ready (fs s) (directory s) = true.
Proof.
  rewrite makedirs_unfold. unfold ensure_directory, directory_ready.
  destruct (Str.truthy (directory s)); [simpl|done].
  destruct (fs s !! directory s) as [[|data readable| |]|];
    intros; simplify_eq; try by destruct s2.
  by destruct (makedirs_fault w); simplify_eq.
Qed.

(** [save] on a new content when no file operation fails and the URL
    can be parsed. *)
Lemma save_fresh w url actual_content_type content s :
  md5_hexdigest content ∉ downloaded_hashes s →
  directory_ready (fs s) (directory s) = true →
  (fs s !! directory s = None → makedirs_fault w = None) →
  urlparse_error url = None →
  (∀ p, open_fault w p = None) →
  (∀ p, write_fault w p = None) →
  let f := ensure_directory (fs s) (directory s) in
  let p := resolve_conflict f
             (Path.join (directory s)
                (_generate_filename (clock w) url actual_content_type None)) in
  save w url actual_content_type content s
  = (Val (true, Saved (Path.basename p) (length content), Some p),
     State (directory s)
           ({[md5_hexdigest content]} ∪ downloaded_hashes s)
           (<[p := File content true]> f)).
Proof.
  intros Hnew Hready Hmk Hurl Hopen Hwrite. cbv zeta.
  rewrite save_unfold. unfold _check_duplicate, add_hash, mbind, M_bind. simpl.
  rewrite bool_decide_eq_false_2 by done. simpl.
  rewrite makedirs_ensure by done. rewrite Hurl. cbv zeta.
  by rewrite write_file_unfold, Hopen, Hwrite.
Qed.

Lemma length_truthy t : Str.truthy t = true → (0 < String.length t)%nat.
Proof. destruct t; [done|]. simpl. lia. Qed.

(** The path of a derived file name is longer than the directory's. *)
Lemma length_filepath d now url content_type :
  (String.length d
   < String.length (Path.join d (_generate_filename now url content_type None)))%nat.
Proof.
  destruct (generate_filename_relative now url content_type) as [Ht Hs].
  apply length_truthy in Ht. pose proof (PathFacts.length_join d _ Hs). lia.
Qed.

(** A successful fetch, read backwards: the content was new, the URL
    could be parsed, and the file was written where the loop of lines
    150-155 ended, on the file system as [os.makedirs] left it. *)
Lemma fetch_image_success_inv w url s :
  success (fetch_image w url s).1 = true →
  ∃ actual_content_type content,
    (download w url s).1 = Val (actual_content_type, content)
    ∧ (md5_hexdigest content ∉ downloaded_hashes s)
    ∧ let f := ensure_directory (fs s) (directory s) in
      let p := resolve_conflict f
                 (Path.join (directory s)
                    (_generate_filename (clock w) url actual_content_type None)) in
      fetch_image w url s
      = ((true, Saved (Path.basename p) (length content), Some p),
         State (directory s)
               ({[md5_hexdigest content]} ∪ downloaded_hashes s)
               (<[p := File content true]> f)).
Proof.
  destruct (download w url s).1 as [[act content]|r|e] eqn:Hd.
  - rewrite (fetch_image_downloaded _ _ _ _ _ Hd).
    destruct (save_cases w url act content s)
      as [[_ Hsave]|[(_ & e & s' & Hsave & _ & He & _)
                    |(Hnew & s2 & Hsave & Hmk & Hs2 & _)]];
      rewrite Hsave; simpl; [done|by rewrite He|].
    intros _. exists act, content. split; [done|]. split; [done|].
    by apply makedirs_Val in Hmk as [-> _].
  - intros Hok. destruct (fetch_image_not_downloaded w url s) as [_ [Hf _]].
    { intros x. by rewrite Hd. }
    congruence.
  - intros Hok. destruct (fetch_image_not_downloaded w url s) as [_ [Hf _]].
    { intros x. by rewrite Hd. }
    congruence.
Qed.

Lemma ensure_directory_subseteq (f : gmap string node) d :
  f ⊆ ensure_directory f d.
Proof.
  unfold ensure_directory. destruct (f !! d) eqn:Hd; [done|].
  by apply insert_subseteq.
Qed.

(** A successful fetch wrote its content at a path that was free. *)
Lemma fetch_image_wrote_fresh w url s :
  success (fetch_image w url s).1 = true →
  ∃ p content,
    filepath_of (fetch_image w url s).1 = Some p
    ∧ fs s !! p = None
    ∧ fs (fetch_image w url s).2 !! p = Some (File content true).
Proof.
  intros Hok.
  destruct (fetch_image_success_inv w url s Hok) as (act & content & _ & _ & Hrun).
  cbv zeta in Hrun. rewrite Hrun. simpl. eexists _, content.
  split; [done|]. split; [|apply lookup_insert_eq].
  eapply lookup_weaken_None; [apply resolve_conflict_free|].
  apply ensure_directory_subseteq.
Qed.

(** The same, with the path the loop of lines 150-155 arrives at. *)
Lemma fetch_image_wrote_resolved w url s :
  success (fetch_image w url s).1 = true →
  ∃ actual_content_type content,
    (download w url s).1 = Val (actual_content_type, content)
    ∧ let f := ensure_directory (fs s) (directory s) in
      let p := resolve_conflict f
                 (Path.join (directory s)
                    (_generate_filename (clock w) url actual_content_type None)) in
      filepath_of (fetch_image w url s).1 = Some p
      ∧ path_exists f p = false
      ∧ fs s !! p = None
      ∧ fs (fetch_image w url s).2 = <[p := File content true]> f.
Proof.
  intros Hok.
  destruct (fetch_image_success_inv w url s Hok) as (act & content & Hd & _ & Hrun).
  exists act, content. split; [done|]. cbv zeta in *. rewrite Hrun. simpl.
  split; [done|]. split; [apply resolve_conflict_not_exists|]. split; [|done].
  eapply lookup_weaken_None; [apply resolve_conflict_free|].
  apply ensure_directory_subseteq.
Qed.

(** Two downloads that derive the same file name, in a directory where
    neither that name nor its first numbered variant is taken. *)
Lemma same_name_twice w1 w2 url1 url2 s type1 type2 content1 content2 filename :
  let o := Path.join (directory s) filename in
  let s1 := (fetch_image w1 url1 s).2 in
  let s2 := (fetch_image w2 url2 s1).2 in
  (download w1 url1 s).1 = Val (type1, content1) →
  (download w2 url2 s1).1 = Val (type2, content2) →
  urlparse_error url1 = None →
  urlparse_error url2 = None →
  _generate_filename (clock w1) url1 type1 None = filename →
  _generate_filename (clock w2) url2 type2 None = filename →
  md5_hexdigest content1 ∉ downloaded_hashes s →
  md5_hexdigest content2 ∉ downloaded_hashes s →
  md5_hexdigest content1 ≠ md5_hexdigest content2 →
  makedirs_fault w1 = None →
  (∀ p, open_fault w1 p = None) → (∀ p, write_fault w1 p = None) →
  (∀ p, open_fault w2 p = None) → (∀ p, write_fault w2 p = None) →
  directory_ready (fs s) (directory s) = true →
  path_exists (ensure_directory (fs s) (directory s)) o = false →
  fs s !! candidate o 1 = None →
  (fetch_image w1 url1 s).1
  = (true, Saved (Path.basename o) (length content1), Some o)
  ∧ (fetch_image w2 url2 s1).1
    = (true, Saved (Path.basename (candidate o 1)) (length content2),
       Some (candidate o 1))
  ∧ o ≠ candidate o 1
  ∧ fs s2 !! o = Some (File content1 true)
  ∧ fs s2 !! candidate o 1 = Some (File content2 true).
Proof.
  intros o s1 s2 Hd1 Hd2 Hu1 Hu2 Hn1 Hn2 Hnew1 Hnew2 Hne Hmk1 Hop1 Hwr1
    Hop2 Hwr2 Hready Ho Hc.
  assert (o ≠ candidate o 1) as Hoc.
  { intros Heq. pose proof (length_candidate o 1) as Hl.
    rewrite <-Heq in Hl. lia. }
  assert (candidate o 1 ≠ directory s) as Hcd.
  { intros Heq. pose proof (length_candidate o 1) as Hl.
    pose proof (length_filepath (directory s) (clock w1) url1 type1) as Hl'.
    rewrite Hn1 in Hl'. fold o in Hl'. rewrite Heq in Hl. lia. }
  set (f1 := ensure_directory (fs s) (directory s)) in *.
  assert (f1 !! o = None) as Hf1o by by apply path_exists_lookup.
  assert (f1 !! candidate o 1 = None) as Hf1c.
  { unfold f1, ensure_directory. destruct (fs s !! directory s); [done|].
    by rewrite lookup_insert_ne. }
  assert (is_Some (f1 !! directory s)) as [n Hf1d].
  { unfold f1, ensure_directory.
    destruct (fs s !! directory s) eqn:Hd; [by rewrite Hd|].
    by rewrite lookup_insert_eq. }
  assert (directory_ready f1 (directory s) = true) as Hready1.
  { unfold f1, ensure_directory, directory_ready in *.
    destruct (Str.truthy (directory s)); [simpl in *|done].
    destruct (fs s !! directory s) eqn:Hd; [by rewrite Hd|].
    by rewrite lookup_insert_eq. }
  assert (o ≠ directory s) as Hod.
  { intros Heq. rewrite Heq in Hf1o. congruence. }
  assert (fetch_image w1 url1 s
          = ((true, Saved (Path.basename o) (length content1), Some o),
             State (directory s)
               ({[md5_hexdigest content1]} ∪ downloaded_hashes s)
               (<[o := File content1 true]> f1))) as Hfirst.
  { rewrite (fetch_image_downloaded _ _ _ _ _ Hd1).
    rewrite save_fresh by done. cbv zeta. rewrite Hn1. fold o f1.
    by rewrite resolve_conflict_absent. }
  assert (s1 = State (directory s)
                 ({[md5_hexdigest content1]} ∪ downloaded_hashes s)
                 (<[o := File content1 true]> f1)) as Hs1.
  { unfold s1. by rewrite Hfirst. }
  clearbody s1. subst s1.
  set (s1 := State (directory s)
               ({[md5_hexdigest content1]} ∪ downloaded_hashes s)
               (<[o := File content1 true]> f1)) in *.
  assert (ensure_directory (fs s1) (directory s1) = fs s1) as Hens.
  { unfold ensure_directory. simpl. by rewrite lookup_insert_ne, Hf1d. }
  assert (fetch_image w2 url2 s1
          = ((true, Saved (Path.basename (candidate o 1)) (length content2),
              Some (candidate o 1)),
             State (directory s)
               ({[md5_hexdigest content2]}
                ∪ ({[md5_hexdigest content1]} ∪ downloaded_hashes s))
               (<[candidate o 1 := File content2 true]>
                  (<[o := File content1 true]> f1)))) as Hsecond.
  { rewrite (fetch_image_downloaded _ _ _ _ _ Hd2).
    rewrite save_fresh; try done.
    - cbv zeta. rewrite Hn2, Hens. simpl. fold o.
      rewrite resolve_conflict_first; [done| |].
      + apply lookup_path_exists. by rewrite lookup_insert_eq.
      + rewrite path_exists_candidate, lookup_insert_ne, Hf1c by done.
        apply bool_decide_eq_false_2. by intros [? ?].
    - simpl. rewrite not_elem_of_union, not_elem_of_singleton. by split.
    - simpl. unfold directory_ready in *.
      by rewrite lookup_insert_ne.
    - simpl. intros Hnone. by rewrite lookup_insert_ne, Hf1d in Hnone. }
  split; [by rewrite Hfirst|]. split; [by rewrite Hsecond|].
  split; [done|]. unfold s2. rewrite Hsecond. simpl. split.
  - by rewrite lookup_insert_ne, lookup_insert_eq.
  - by rewrite lookup_insert_eq.
Qed.

End Saving.

Section Collisions.
Context `{PyLib}.

(** C6. The loop of lines 150-155 ends, at a path that does not exist:
    the path it was given when that one is free, and otherwise the
    name with [_k] before the extension for the first [k >= 1] that is
    free, all names with a smaller number being taken. A successful fetch
    writes its file at the path the loop arrives at from the directory
    joined with the derived name, on the file system as [os.makedirs]
    left it, so that every entry the file system had is still there with
    its content. Hence, when two downloads of different contents derive
    the same file name and, once the directory exists, neither that name
    nor its [_1] variant is taken, the first is saved under the name and
    the second under the [_1] variant, and both files exist afterwards.
    The names [.] and [..] are taken in every directory. *)
Theorem collisions_get_numbered_names :
  (∀ (f : gmap string node) (o : string),
     find_free f o (S (size f)) 1 o = Some (resolve_conflict f o)
     ∧ path_exists f (resolve_conflict f o) = false
     ∧ f !! resolve_conflict f o = None
     ∧ (path_exists f o = false → resolve_conflict f o = o)
     ∧ (path_exists f o = true →
        ∃ k, (1 ≤ k)%nat ∧ resolve_conflict f o = candidate o k
             ∧ ∀ j, (1 ≤ j < k)%nat →
                    path_exists f (candidate o j) = true))
  ∧ (∀ o k,
       candidate o k
       = (Path.splitext o).1 +:+ "_" +:+ pretty k +:+ (Path.splitext o).2)
  ∧ (∀ w url s,
       fs s ⊆ fs (fetch_image w url s).2
       ∧ (success (fetch_image w url s).1 = true →
          ∃ actual_content_type content,
            (download w url s).1 = Val (actual_content_type, content)
            ∧ let f := ensure_directory (fs s) (directory s) in
              let p := resolve_conflict f
                         (Path.join (directory s)
                            (_generate_filename (clock w) url
                               actual_content_type None)) in
              filepath_of (fetch_image w url s).1 = Some p
              ∧ path_exists f p = false
              ∧ fs s !! p = None
              ∧ fs (fetch_image w url s).2 = <[p := File content true]> f))
  ∧ (∀ w1 w2 url1 url2 s type1 type2 content1 content2 filename,
       let o := Path.join (directory s) filename in
       let s1 := (fetch_image w1 url1 s).2 in
       let s2 := (fetch_image w2 url2 s1).2 in
       (download w1 url1 s).1 = Val (type1, content1) →
       (download w2 url2 s1).1 = Val (type2, content2) →
       urlparse_error url1 = None →
       urlparse_error url2 = None →
       _generate_filename (clock w1) url1 type1 None = filename →
       _generate_filename (clock w2) url2 type2 None = filename →
       md5_hexdigest content1 ∉ downloaded_hashes s →
       md5_hexdigest content2 ∉ downloaded_hashes s →
       md5_hexdigest content1 ≠ md5_hexdigest content2 →
       makedirs_fault w1 = None →
       (∀ p, open_fault w1 p = None) → (∀ p, write_fault w1 p = None) →
       (∀ p, open_fault w2 p = None) → (∀ p, write_fault w2 p = None) →
       directory_ready (fs s) (directory s) = true →
       path_exists (ensure_directory (fs s) (directory s)) o = false →
       fs s !! candidate o 1 = None →
       (fetch_image w1 url1 s).1
       = (true, Saved (Path.basename o) (length content1), Some o)
       ∧ (fetch_image w2 url2 s1).1
         = (true, Saved (Path.basename (candidate o 1)) (length content2),
            Some (candidate o 1))
       ∧ o ≠ candidate o 1
       ∧ fs s2 !! o = Some (File content1 true)
       ∧ fs s2 !! candidate o 1 = Some (File content2 true))
  ∧ (∀ (f : gmap string node) (d : string),
       isdir f d = true →
       path_exists f (d +:+ "/.") = true
       ∧ path_exists f (d +:+ "/..") = true).
Proof.
  split; [|split; [|split; [|split]]].
  - intros f o. pose proof (resolve_conflict_find f o) as Hfind.
    split; [done|]. split; [apply resolve_conflict_not_exists|].
    split; [apply resolve_conflict_free|].
    split; [apply resolve_conflict_absent|]. intros Ho.
    destruct (find_free_Some _ _ _ _ _ _ Hfind)
      as [Hfree [Heq|(_ & k & Hk & Hp & Hbelow)]].
    + rewrite Heq in Hfree. congruence.
    + by exists k.
  - intros o k. unfold candidate. by destruct (Path.splitext o).
  - intros w url s. split; [|apply fetch_image_wrote_resolved].
    by destruct (fetch_image_grows w url s) as (_ & _ & ?).
  - intros. by eapply same_name_twice.
  - intros f d Hd. split.
    + apply (dot_entry_exists f d "."); [done|by left].
    + apply (dot_entry_exists f d ".."); [done|by right].
Qed.

End Collisions.

Lemma collisions_get_numbered_names_witness :
  let w1 := Sample.serving (Ok Sample.png_headers)
              (Ok (Sample.png_response Sample.picture)) in
  let w2 := Sample.serving (Ok Sample.png_headers)
              (Ok (Sample.png_response Sample.drawing)) in
  let s1 := (fetch_image (H := Sample.lib) w1 "http://a.example/cat.png"
               Sample.fresh).2 in
  let s2 := (fetch_image (H := Sample.lib) w2
               "http://b.example/pets/cat.png?v=2" s1).2 in
  (fetch_image (H := Sample.lib) w1 "http://a.example/cat.png" Sample.fresh).1
  = (true, Saved "cat.png" 4, Some "Fetched_Images/cat.png")
  ∧ (fetch_image (H := Sample.lib) w2 "http://b.example/pets/cat.png?v=2" s1).1
    = (true, Saved "cat_1.png" 4, Some "Fetched_Images/cat_1.png")
  ∧ fs s2 !! "Fetched_Images/cat.png" = Some (File Sample.picture true)
  ∧ fs s2 !! "Fetched_Images/cat_1.png" = Some (File Sample.drawing true).
Proof.
  cbv zeta.
  pose proof (collisions_get_numbered_names (H := Sample.lib))
    as (_ & _ & _ & Htwice & _).
  destruct (Htwice
              (Sample.serving (Ok Sample.png_headers)
                 (Ok (Sample.png_response Sample.picture)))
              (Sample.serving (Ok Sample.png_headers)
                 (Ok (Sample.png_response Sample.drawing)))
              "http://a.example/cat.png" "http://b.example/pets/cat.png?v=2"
              Sample.fresh "image/png" "image/png"
              Sample.picture Sample.drawing "cat.png")
    as (Hfirst & Hsecond & _ & Hcat & Hcat1);
    [reflexivity | reflexivity | reflexivity | reflexivity
    | reflexivity | reflexivity
    | apply not_elem_of_empty | apply not_elem_of_empty | done
    | reflexivity
    | intros; reflexivity | intros; reflexivity
    | intros; reflexivity | intros; reflexivity
    | reflexivity | reflexivity | reflexivity | ].
  split; [exact Hfirst|]. split; [exact Hsecond|].
  split; [exact Hcat|exact Hcat1].
Defined.

(** The base names [.] and [..] are never written to: once the directory
    exists they are taken, and the loop moves on to the numbered name. *)
Lemma dot_names_are_numbered :
  let w := Sample.serving (Ok Sample.png_headers)
             (Ok (Sample.png_response Sample.picture)) in
  _generate_filename (H := Sample.lib) (clock w) "http://x/a/.." "image/png" None
  = ".."
  ∧ path_exists (fs Sample.fresh) "Fetched_Images/.." = false
  ∧ path_exists (ensure_directory (fs Sample.fresh) "Fetched_Images")
      "Fetched_Images/.." = true
  ∧ (fetch_image (H := Sample.lib) w "http://x/a/.." Sample.fresh).1
    = (true, Saved ".._1" 4, Some "Fetched_Images/.._1").
Proof. cbv zeta. repeat split; by vm_compute. Qed.

(** * Further properties *)

(** ** The start-up scan (lines 20-41) *)

Lemma join_relative d n :
  Str.startswith "/" n = false → Path.join d n = Path.join d "" +:+ n.
Proof.
  intros Hn. unfold Path.join. rewrite Hn. simpl.
  destruct (negb (Str.truthy d) || Path.endswith_sep d).
  - by rewrite StrFacts.app_nil_r.
  - by rewrite !StrFacts.app_assoc.
Qed.

Lemma no_sep_relative n :
  Str.has_char "/" n = false → Str.startswith "/" n = false.
Proof.
  intros Hn. apply not_true_is_false. intros Hs.
  apply (PathFacts.startswith_has_char "/") in Hs. congruence.
Qed.

(** Listing and joining are inverse to each other. *)
Lemma child_name_Some d k n :
  child_name d k = Some n ↔
  k = Path.join d n ∧ Str.truthy n = true ∧ Str.has_char "/" n = false.
Proof.
  unfold child_name. split.
  - destruct (Str.startswith (Path.join d "") k) eqn:Hs; [|done].
    apply StrFacts.startswith_spec in Hs as [t ->].
    rewrite drop_app_length.
    destruct (Str.truthy t) eqn:Ht; [|done].
    destruct (Str.has_char "/" t) eqn:Hc; [done|]. intros [= <-].
    split; [|done]. symmetry. by apply join_relative, no_sep_relative.
  - intros (-> & Ht & Hc).
    rewrite (join_relative d n) by (by apply no_sep_relative).
    assert (Str.startswith (Path.join d "") (Path.join d "" +:+ n) = true) as ->.
    { apply StrFacts.startswith_spec. by eexists. }
    by rewrite drop_app_length, Ht, Hc.
Qed.

Lemma for_each_cons {A} (x : A) l body s :
  for_each (x :: l) body s
  = match body x s with
    | (Val _, s') => for_each l body s'
    | (Return r, s') => (Return r, s')
    | (Raise e, s') => (Raise e, s')
    end.
Proof. done. Qed.

Section Scan.
Context `{PyLib}.

(** One iteration of the loop of lines 33-41. *)
Lemma scan_entry_step d filename s0 :
  (s ← get_state;
   if isfile (fs s) (Path.join d filename) then
     try_except
       (data ← read_file (Path.join d filename);
        add_hash (md5_hexdigest data))
       (λ _, Some (mret ()))
   else mret ()) s0
  = (Val (),
     match fs s0 !! Path.join d filename with
     | Some (File data true) =>
         with_hashes ({[md5_hexdigest data]} ∪ downloaded_hashes s0) s0
     | _ => s0
     end).
Proof.
  unfold mbind, M_bind, isfile, try_except, read_file, mbind, M_bind. simpl.
  destruct (fs s0 !! Path.join d filename) as [[|data [|]| |]|] eqn:Hp; simpl;
    try done.
  - by rewrite Hp.
  - by rewrite Hp.
Qed.

Lemma scan_loop d names s :
  ∃ s',
    for_each names
      (λ filename : string,
       let filepath := Path.join d filename in
       s ← get_state;
       if isfile (fs s) filepath then
         try_except
           (data ← read_file filepath;
            let file_hash := md5_hexdigest data in
            add_hash file_hash)
           (λ _, Some (mret ()))
       else mret ()) s
    = (Val (), s')
    ∧ fs s' = fs s
    ∧ directory s' = directory s
    ∧ ∀ h, h ∈ downloaded_hashes s' ↔
           h ∈ downloaded_hashes s
           ∨ ∃ name data,
               name ∈ names
               ∧ fs s !! Path.join d name = Some (File data true)
               ∧ h = md5_hexdigest data.
Proof.
  revert s. induction names as [|name names IH]; intros s.
  - exists s. split; [done|]. split; [done|]. split; [done|].
    intros h. split; [by left|]. intros [?|(n & data & Hn & _)]; [done|].
    by apply elem_of_nil in Hn.
  - rewrite for_each_cons. cbv beta zeta.
    rewrite (scan_entry_step d name s).
    set (s1 := match fs s !! Path.join d name with
               | Some (File data true) =>
                   with_hashes ({[md5_hexdigest data]} ∪ downloaded_hashes s) s
               | _ => s
               end).
    assert (fs s1 = fs s ∧ directory s1 = directory s) as [Hfs Hdir].
    { unfold s1. by repeat case_match. }
    destruct (IH s1) as (s' & Hrun & Hfs' & Hdir' & Hhashes).
    exists s'. split; [done|]. split; [congruence|]. split; [congruence|].
    intros h. rewrite Hhashes, Hfs. split.
    + intros [Hin|(n & data & Hn & Hlook & ->)].
      * unfold s1 in Hin.
        destruct (fs s !! Path.join d name) as [[|data [|]| |]|] eqn:Hp;
          simpl in Hin; auto.
        apply elem_of_union in Hin as [->%elem_of_singleton|?]; [|by left].
        right. exists name, data. split; [apply elem_of_cons; by left|done].
      * right. exists n, data. split; [apply elem_of_cons; by right|done].
    + intros [Hin|(n & data & [->|Hn]%elem_of_cons & Hlook & ->)].
      * left. unfold s1. repeat case_match; simpl; try done.
        apply elem_of_union. by right.
      * left. unfold s1. rewrite Hlook. simpl.
        apply elem_of_union. left. by apply elem_of_singleton.
      * right. by exists n, data.
Qed.

Lemma listed_names (f : gmap string node) d name :
  name ∈ omap (child_name d) (map_to_list f).*1 ↔
  is_Some (f !! Path.join d name)
  ∧ Str.truthy name = true ∧ Str.has_char "/" name = false.
Proof.
  rewrite list_elem_of_omap. split.
  - intros (k & Hk & (-> & Ht & Hc)%child_name_Some).
    apply list_elem_of_fmap in Hk as ([k' n] & -> & Hk).
    apply elem_of_map_to_list in Hk. simpl in *. eauto.
  - intros ([n Hn] & Ht & Hc). exists (Path.join d name). split.
    + apply list_elem_of_fmap. exists (Path.join d name, n). split; [done|].
      by apply elem_of_map_to_list.
    + by apply child_name_Some.
Qed.

(** The scan of a directory that exists and can be listed. *)
Lemma scan_result (s : state) :
  fs s !! directory s = Some Dir →
  ∃ s',
    _load_existing_hashes s = (Val (), s')
    ∧ fs s' = fs s
    ∧ directory s' = directory s
    ∧ ∀ digest,
        digest ∈ downloaded_hashes s' ↔
        digest ∈ downloaded_hashes s
        ∨ scanned (fs s) (directory s) md5_hexdigest digest.
Proof.
  intros Hdir. unfold _load_existing_hashes, mbind at 1, M_bind at 1. simpl.
  rewrite lookup_path_exists by (rewrite Hdir; eauto).
  unfold mbind at 1, M_bind at 1, listdir, mbind at 1, M_bind at 1. simpl.
  rewrite Hdir. simpl.
  destruct (scan_loop (directory s)
              (omap (child_name (directory s)) (map_to_list (fs s)).*1) s)
    as (s' & Hrun & Hfs & Hd & Hhashes).
  exists s'. split; [exact Hrun|]. split; [done|]. split; [done|].
  intros digest. rewrite Hhashes. unfold scanned. split.
  - intros [?|(name & data & (_ & Ht & Hc)%listed_names & Hlook & ->)];
      [by left|].
    right. by exists name, data.
  - intros [?|(name & data & Hlook & Ht & Hc & ->)]; [by left|].
    right. exists name, data. split; [|done]. apply listed_names. eauto.
Qed.

(** X1. The start-up scan of a directory that exists and can be listed
    ends normally and changes neither the file system nor the directory.
    Afterwards the
    registry holds what it held before and the digest of every readable
    regular file directly inside the directory, and nothing else:
    unreadable files, folders and files further down are passed over. *)
Theorem scan_registers_readable_files (s : state) :
  fs s !! directory s = Some Dir →
  (_load_existing_hashes s).1 = Val ()
  ∧ fs (_load_existing_hashes s).2 = fs s
  ∧ directory (_load_existing_hashes s).2 = directory s
  ∧ ∀ digest,
      digest ∈ downloaded_hashes (_load_existing_hashes s).2 ↔
      digest ∈ downloaded_hashes s
      ∨ ∃ name data,
          fs s !! Path.join (directory s) name = Some (File data true)
          ∧ Str.truthy name = true
          ∧ Str.has_char "/" name = false
          ∧ digest = md5_hexdigest data.
Proof.
  intros Hdir. destruct (scan_result s Hdir) as (s' & -> & Hfs & Hd & Hhashes).
  done.
Qed.

(** The scan where [os.listdir] (line 33, outside the [try]) raises. *)
Lemma scan_raises (s : state) (n : node) :
  fs s !! directory s = Some n →
  n ≠ Dir →
  _load_existing_hashes s
  = (Raise (OSError (match n with
                     | Sealed => "Permission denied"
                     | _ => "Not a directory"
                     end)), s).
Proof.
  intros Hd Hn. unfold _load_existing_hashes, mbind at 1, M_bind at 1. simpl.
  rewrite lookup_path_exists by (rewrite Hd; eauto).
  unfold mbind at 1, M_bind at 1, listdir, mbind at 1, M_bind at 1. simpl.
  rewrite Hd. by destruct n.
Qed.

Lemma scan_absent (s : state) :
  path_exists (fs s) (directory s) = false →
  _load_existing_hashes s = (Val (), s).
Proof.
  intros Hd. unfold _load_existing_hashes, mbind at 1, M_bind at 1. simpl.
  by rewrite Hd.
Qed.

(** X2. How the scan ends, by what is at the directory's path. When
    nothing exists there the scan does nothing. When a directory that
    can be listed is there it ends normally. In the other cases
    [os.listdir] raises, outside any [try], and the exception leaves
    [__init__] with the state untouched: a permission error for a
    directory that cannot be listed, and a not-a-directory error for a
    regular file, a FIFO, a socket or a device. *)
Theorem scan_raises_where_listing_fails (s : state) :
  (path_exists (fs s) (directory s) = false →
   _load_existing_hashes s = (Val (), s))
  ∧ (fs s !! directory s = Some Dir → (_load_existing_hashes s).1 = Val ())
  ∧ (fs s !! directory s = Some Sealed →
     _load_existing_hashes s = (Raise (OSError "Permission denied"), s))
  ∧ (isfile (fs s) (directory s) = true ∨ fs s !! directory s = Some Special →
     _load_existing_hashes s = (Raise (OSError "Not a directory"), s)).
Proof.
  split; [apply scan_absent|]. split; [|split].
  - intros Hd. by destruct (scan_result s Hd) as (s' & -> & _).
  - intros Hd. by rewrite (scan_raises s Sealed).
  - unfold isfile. intros [Hfile|Hd].
    + destruct (fs s !! directory s) as [[|data readable| |]|] eqn:Hd;
        try done.
      by rewrite (scan_raises s (File data readable)).
    + by rewrite (scan_raises s Special).
Qed.

(** X3. A content that lies in the directory as a readable file when the
    fetcher is made is never saved again: whatever is fetched meanwhile, a
    fetch that downloads the same bytes fails as a duplicate and changes
    nothing. *)
Theorem existing_file_is_not_fetched_again
    (w : world) (url : string) (s : state) (between : list (world * string))
    (name actual_content_type : string) (content : list byte) :
  fs s !! directory s = Some Dir →
  fs s !! Path.join (directory s) name = Some (File content true) →
  Str.truthy name = true →
  Str.has_char "/" name = false →
  (download w url (fetch_all between (_load_existing_hashes s).2)).1
  = Val (actual_content_type, content) →
  fetch_image w url (fetch_all between (_load_existing_hashes s).2)
  = ((false, DuplicateDetected, None),
     fetch_all between (_load_existing_hashes s).2).
Proof.
  intros Hdir Hfile Ht Hc Hd. apply (fetch_image_duplicate _ _ _ _ _ Hd).
  destruct (scan_result s Hdir) as (s' & Hrun & _ & _ & Hhashes).
  rewrite Hrun. simpl.
  destruct (fetch_all_grows between s') as (_ & Hsub & _). apply Hsub.
  apply Hhashes. right. by exists name, content.
Qed.

End Scan.

Lemma scan_registers_readable_files_witness :
  let s := State "Fetched_Images" ∅ SampleCli.gallery in
  fs s !! directory s = Some Dir
  ∧ md5_hexdigest (PyLib := Sample.lib) Sample.picture
    ∈ downloaded_hashes (_load_existing_hashes (H := Sample.lib) s).2.
Proof.
  cbv zeta. split; [reflexivity|].
  apply (scan_registers_readable_files (H := Sample.lib)); [reflexivity|].
  right. exists "old.png", Sample.picture. repeat split; reflexivity.
Defined.

Lemma scan_raises_where_listing_fails_witness :
  let s := State "Fetched_Images" ∅ {["Fetched_Images" := Sealed]} in
  let t := State "Fetched_Images" ∅ {["Fetched_Images" := Special]} in
  path_exists (fs s) (directory s) = true
  ∧ isfile (fs s) (directory s) = false
  ∧ _load_existing_hashes (H := Sample.lib) s
    = (Raise (OSError "Permission denied"), s)
  ∧ isfile (fs t) (directory t) = false
  ∧ _load_existing_hashes (H := Sample.lib) t
    = (Raise (OSError "Not a directory"), t).
Proof.
  cbv zeta. split; [reflexivity|]. split; [reflexivity|].
  split; [|split; [reflexivity|]].
  - apply (scan_raises_where_listing_fails (H := Sample.lib)). reflexivity.
  - apply (scan_raises_where_listing_fails (H := Sample.lib)).
    right. reflexivity.
Defined.

Lemma existing_file_is_not_fetched_again_witness :
  let s := State "Fetched_Images" ∅ SampleCli.gallery in
  let w := Sample.serving (Ok Sample.png_headers)
             (Ok (Sample.png_response Sample.picture)) in
  fs s !! "Fetched_Images/old.png" = Some (File Sample.picture true)
  ∧ fetch_image (H := Sample.lib) w "http://x/new.png"
      (_load_existing_hashes (H := Sample.lib) s).2
    = ((false, DuplicateDetected, None),
       (_load_existing_hashes (H := Sample.lib) s).2).
Proof.
  cbv zeta. split; [reflexivity|].
  apply (existing_file_is_not_fetched_again (H := Sample.lib) _
           "http://x/new.png" (State "Fetched_Images" ∅ SampleCli.gallery) []
           "old.png" "image/png" Sample.picture); reflexivity.
Defined.

(** ** The outcome of a single fetch (lines 88-173) *)

Lemma streamed_nonneg chunks : 0 ≤ streamed chunks.
Proof.
  induction chunks as [|chunk chunks IH]; [done|].
  change (streamed (chunk :: chunks)) with (len chunk + streamed chunks).
  unfold len. lia.
Qed.

Section Outcome.
Context `{PyLib}.
Local Arguments _generate_filename : simpl never.

Lemma read_content_under_limit chunks fault content downloaded_size s :
  downloaded_size + streamed chunks ≤ max_size →
  read_content chunks fault content downloaded_size s
  = (match fault with
     | Some e => Raise e
     | None => Val (content ++ concat chunks)
     end, s).
Proof.
  revert content downloaded_size.
  induction chunks as [|chunk chunks IH]; intros content downloaded_size Hle.
  - simpl. rewrite app_nil_r. by destruct fault.
  - change (streamed (chunk :: chunks)) with (len chunk + streamed chunks) in Hle.
    pose proof (streamed_nonneg chunks) as Hnn. simpl.
    destruct chunk as [|b chunk]; simpl.
    + apply IH. unfold len in Hle. simpl in Hle. lia.
    + unfold mbind, M_bind, return_if.
      destruct (Z.ltb_spec max_size (downloaded_size + len (b :: chunk)));
        [lia|]. simpl.
      rewrite IH by lia. by rewrite <-app_assoc.
Qed.

(** The loop of lines 131-136 decides on the total alone. *)
Lemma read_content_unfold chunks fault s :
  read_content chunks fault [] 0 s
  = (if max_size <? streamed chunks
     then Return (false, TooLargeStreamed, None)
     else match fault with
          | Some e => Raise e
          | None => Val (concat chunks)
          end, s).
Proof.
  destruct (Z.ltb_spec max_size (streamed chunks)) as [Hlt|Hle].
  - rewrite <-(app_nil_r chunks) at 1.
    apply read_content_over_limit; [done|lia].
  - by rewrite read_content_under_limit by lia.
Qed.

(** When the download completes, and with what. *)
Lemma download_Val w url s actual_content_type content :
  (download w url s).1 = Val (actual_content_type, content) ↔
  ∃ content_type response,
    (probe w url s).1 = Val content_type
    ∧ session_get w url = Ok response
    ∧ http_ok response = true
    ∧ actual_content_type
      = default content_type (content_type_header (headers_of response))
    ∧ _is_safe_content_type actual_content_type = true
    ∧ streamed (chunks_of response) ≤ max_size
    ∧ stream_fault response = None
    ∧ content = concat (chunks_of response).
Proof.
  rewrite download_unfold. split.
  - destruct (probe w url s).1 as [content_type|r|e] eqn:Hp; [|done..].
    rewrite retrieve_unfold.
    destruct (session_get w url) as [response|e]; [|done].
    destruct (http_ok response) eqn:Hhttp; [|done]. simpl.
    destruct (_is_safe_content_type _) eqn:Hsafe; [|done]. simpl.
    rewrite read_content_unfold.
    destruct (Z.ltb_spec max_size (streamed (chunks_of response))); [done|].
    destruct (stream_fault response) eqn:Hfault; [done|]. intros [= <- <-].
    exists content_type, response. repeat split; done.
  - intros (content_type & response & -> & Hget & Hok & -> & Hsafe & Hle
            & Hfault & ->).
    rewrite retrieve_unfold, Hget, Hok. simpl.
    rewrite Hsafe. simpl. rewrite read_content_unfold, Hfault.
    by destruct (Z.ltb_spec max_size (streamed (chunks_of response))); [lia|].
Qed.

(** X4. A successful fetch saved exactly what the GET request streamed:
    the request was answered without an error status, its stream ended
    without a fault within 50 MiB, the file at the returned path holds the
    chunks joined in order, the size and name in the message are that
    file's, the path was free before, and the registry gained the
    file's digest, which it did not hold. *)
Theorem saved_file_is_the_stream (w : world) (url : string) (s : state) :
  success (fetch_image w url s).1 = true →
  ∃ response p,
    session_get w url = Ok response
    ∧ http_ok response = true
    ∧ stream_fault response = None
    ∧ streamed (chunks_of response) ≤ max_size
    ∧ (fetch_image w url s).1
      = (true,
         Saved (Path.basename p) (length (concat (chunks_of response))),
         Some p)
    ∧ fs s !! p = None
    ∧ fs (fetch_image w url s).2 !! p
      = Some (File (concat (chunks_of response)) true)
    ∧ (md5_hexdigest (concat (chunks_of response)) ∉ downloaded_hashes s)
    ∧ downloaded_hashes (fetch_image w url s).2
      = {[md5_hexdigest (concat (chunks_of response))]} ∪ downloaded_hashes s.
Proof.
  intros Hok.
  destruct (fetch_image_wrote_fresh w url s Hok) as (p' & content' & Hp' & Hfree & _).
  destruct (fetch_image_success_inv w url s Hok)
    as (act & content & Hd & Hnew & Hrun).
  apply download_Val in Hd
    as (ct & response & _ & Hget & Hhttp & _ & _ & Hle & Hfault & ->).
  cbv zeta in Hrun. rewrite Hrun in *. simpl in *. simplify_eq.
  eexists response, _. repeat split; try done. apply lookup_insert_eq.
Qed.

(** X5. The conditions under which a fetch succeeds: the probe lets it
    through, the GET request is answered without an error status and with
    an accepted type, the stream ends without a fault at a total of at
    most 50 MiB (the limit itself is accepted), the content is new,
    [urlparse] takes the URL, the directory's path is free or a directory
    and it can be made where it is missing, and the file can be opened
    and written. The state that results is the old one with the digest,
    the directory and the file added, the file being at the path the
    loop of lines 150-155 arrives at once the directory exists. *)
Theorem fetch_succeeds
    (w : world) (url : string) (s : state) (content_type : string)
    (response : response) :
  (probe w url s).1 = Val content_type →
  session_get w url = Ok response →
  http_ok response = true →
  _is_safe_content_type
    (default content_type (content_type_header (headers_of response))) = true →
  streamed (chunks_of response) ≤ max_size →
  stream_fault response = None →
  md5_hexdigest (concat (chunks_of response)) ∉ downloaded_hashes s →
  urlparse_error url = None →
  directory_ready (fs s) (directory s) = true →
  (fs s !! directory s = None → makedirs_fault w = None) →
  (∀ p, open_fault w p = None) →
  (∀ p, write_fault w p = None) →
  let content := concat (chunks_of response) in
  let f := ensure_directory (fs s) (directory s) in
  let p := resolve_conflict f
             (Path.join (directory s)
                (_generate_filename (clock w) url
                   (default content_type
                            (content_type_header (headers_of response)))
                   None)) in
  fetch_image w url s
  = ((true, Saved (Path.basename p) (length content), Some p),
     State (directory s)
           ({[md5_hexdigest content]} ∪ downloaded_hashes s)
           (<[p := File content true]> f)).
Proof.
  intros Hp Hget Hhttp Hsafe Hle Hfault Hnew Hurl Hready Hmk Hopen Hwrite.
  cbv zeta.
  rewrite (fetch_image_downloaded w url s
             (default content_type (content_type_header (headers_of response)))
             (concat (chunks_of response))).
  - by rewrite save_fresh.
  - apply download_Val. by exists content_type, response.
Qed.

(** X6. A connection that breaks while the body is read leaves no trace:
    when the stream raises before its total passes 50 MiB, the fetch
    reports that exception through the handlers of lines 164-173 and the
    state, files and registry, is what it was. *)
Theorem broken_stream_leaves_no_trace
    (w : world) (url : string) (s : state) (content_type : string)
    (response : response) (e : exn) :
  (probe w url s).1 = Val content_type →
  session_get w url = Ok response →
  http_ok response = true →
  _is_safe_content_type
    (default content_type (content_type_header (headers_of response))) = true →
  streamed (chunks_of response) ≤ max_size →
  stream_fault response = Some e →
  fetch_image w url s = (on_exception e, s).
Proof.
  intros Hp Hget Hhttp Hsafe Hle Hfault. apply fetch_image_raised.
  rewrite download_unfold, Hp, retrieve_unfold, Hget, Hhttp.
  simpl. rewrite Hsafe. simpl. rewrite read_content_unfold, Hfault.
  by destruct (Z.ltb_spec max_size (streamed (chunks_of response))); [lia|].
Qed.

(** X7. When the probe lets the fetch through, a GET request that raises
    is reported through the handlers, and one answered with a status from
    400 to 599 is reported as an HTTP error with that status, whatever
    type and body the answer carries. In both cases the state is what it
    was. *)
Theorem failed_request_is_reported
    (w : world) (url : string) (s : state) (content_type : string) :
  (probe w url s).1 = Val content_type →
  (∀ e, session_get w url = Fail e →
        fetch_image w url s = (on_exception e, s))
  ∧ (∀ response,
       session_get w url = Ok response →
       400 ≤ status_code_of response < 600 →
       fetch_image w url s
       = ((false, HttpErrorStatus (status_code_of response), None), s)).
Proof.
  intros Hp. split.
  - intros e Hget. apply fetch_image_raised.
    by rewrite download_unfold, Hp, retrieve_unfold, Hget.
  - intros response Hget [Hlo Hhi].
    rewrite (fetch_image_raised w url s (HTTPError (status_code_of response)));
      [done|].
    rewrite download_unfold, Hp, retrieve_unfold, Hget. unfold http_ok.
    destruct (Z.leb_spec 400 (status_code_of response)); [|lia].
    by destruct (Z.ltb_spec (status_code_of response) 600); [|lia].
Qed.

End Outcome.

Lemma streamed_brim : streamed SampleCli.brim ≤ max_size.
Proof.
  unfold SampleCli.brim, Sample.full_chunk.
  rewrite streamed_replicate. unfold len. rewrite length_replicate.
  rewrite !Z2Nat.id by done. done.
Qed.

Lemma saved_file_is_the_stream_witness :
  let w := Sample.serving (Ok Sample.png_headers)
             (Ok (Sample.png_response Sample.picture)) in
  success (fetch_image (H := Sample.lib) w "http://x/test.png" Sample.fresh).1
  = true
  ∧ ∃ response p,
      session_get w "http://x/test.png" = Ok response
      ∧ fs (fetch_image (H := Sample.lib) w "http://x/test.png" Sample.fresh).2
          !! p = Some (File (concat (chunks_of response)) true).
Proof.
  cbv zeta. split; [reflexivity|].
  destruct (saved_file_is_the_stream (H := Sample.lib)
              (Sample.serving (Ok Sample.png_headers)
                 (Ok (Sample.png_response Sample.picture)))
              "http://x/test.png" Sample.fresh eq_refl)
    as (response & p & Hget & _ & _ & _ & _ & _ & Hfile & _).
  exists response, p. split; [exact Hget|exact Hfile].
Defined.

Lemma fetch_succeeds_witness :
  let w := Sample.serving (Ok Sample.png_headers)
             (Ok SampleCli.brimful_response) in
  streamed (chunks_of SampleCli.brimful_response) ≤ max_size
  ∧ success (fetch_image (H := Sample.lib) w "http://x/big.png" Sample.fresh).1
    = true.
Proof.
  cbv zeta. split; [exact streamed_brim|].
  rewrite (fetch_succeeds (H := Sample.lib)
             (Sample.serving (Ok Sample.png_headers)
                (Ok SampleCli.brimful_response))
             "http://x/big.png" Sample.fresh "image/png"
             SampleCli.brimful_response);
    [reflexivity | reflexivity | reflexivity | reflexivity | reflexivity
    | exact streamed_brim | reflexivity | apply not_elem_of_empty
    | reflexivity | reflexivity | reflexivity
    | intros; reflexivity | intros; reflexivity].
Defined.

Lemma broken_stream_leaves_no_trace_witness :
  let w := Sample.serving (Ok Sample.png_headers)
             (Ok (Response 200 Sample.png_headers [Sample.picture]
                    (Some ConnectionError))) in
  fetch_image (H := Sample.lib) w "http://x/test.png" Sample.fresh
  = ((false, ConnectionFailed, None), Sample.fresh).
Proof.
  cbv zeta.
  apply (broken_stream_leaves_no_trace (H := Sample.lib) _ "http://x/test.png"
           Sample.fresh "image/png"
           (Response 200 Sample.png_headers [Sample.picture]
              (Some ConnectionError)) ConnectionError);
    try reflexivity.
  by vm_compute.
Defined.

Lemma failed_request_is_reported_witness :
  let w := Sample.serving (Ok Sample.png_headers)
             (Ok (Response 404 (Headers (Some "text/html") None) [] None)) in
  (probe (H := Sample.lib) w "http://x/gone.png" Sample.fresh).1
  = Val "image/png"
  ∧ fetch_image (H := Sample.lib) w "http://x/gone.png" Sample.fresh
    = ((false, HttpErrorStatus 404, None), Sample.fresh).
Proof.
  cbv zeta. split; [reflexivity|].
  destruct (failed_request_is_reported (H := Sample.lib)
              (Sample.serving (Ok Sample.png_headers)
                 (Ok (Response 404 (Headers (Some "text/html") None) [] None)))
              "http://x/gone.png" Sample.fresh "image/png" eq_refl)
    as [_ Hstatus].
  apply (Hstatus (Response 404 (Headers (Some "text/html") None) [] None));
    [reflexivity | done].
Defined.

(** ** The probe's verdicts (lines 96-114) *)

Section Probe.
Context `{PyLib}.

(** X8. A HEAD answer whose content type is not accepted ends the fetch:
    the result names that type, the state is what it was, and the GET
    request plays no part. An answer without a content-type header is
    such an answer, its type being read as the empty string. *)
Theorem head_refusal_is_final
    (w : world) (url : string) (s : state) (head_response : headers) :
  session_head w url = Ok head_response →
  _is_safe_content_type (default "" (content_type_header head_response))
  = false →
  fetch_image w url s
  = ((false, NotSafeType (default "" (content_type_header head_response)), None),
     s)
  ∧ (content_type_header head_response = None →
     fetch_image w url s = ((false, NotSafeType "", None), s)).
Proof.
  intros Hhead Hsafe.
  assert (fetch_image w url s
          = ((false, NotSafeType (default "" (content_type_header head_response)),
              None), s)) as Hrun.
  { apply fetch_image_returned.
    by rewrite download_unfold, probe_unfold, Hhead; simpl; rewrite Hsafe. }
  split; [done|]. intros Hnone. by rewrite Hrun, Hnone.
Qed.

(** X9. A length declared by the HEAD answer ends the fetch only when it
    is strictly greater than 50 MiB: the result is then the too-large
    failure and the state is what it was. A declared length up to the
    limit, the limit included, lets the probe pass with the answer's
    content type. *)
Theorem declared_length_limit
    (w : world) (url : string) (s : state) (head_response : headers)
    (cl : string) (n : Z) :
  session_head w url = Ok head_response →
  _is_safe_content_type (default "" (content_type_header head_response))
  = true →
  content_length_header head_response = Some cl →
  Str.truthy cl = true →
  int_of_str cl = Some n →
  (max_size < n →
   fetch_image w url s = ((false, TooLargeDeclared, None), s))
  ∧ (n ≤ max_size →
     probe w url s
     = (Val (default "" (content_type_header head_response)), s)).
Proof.
  intros Hhead Hsafe Hcl Ht Hint. split; intros Hn.
  - apply fetch_image_returned.
    rewrite download_unfold, probe_unfold, Hhead. simpl.
    rewrite Hsafe, Hcl, Ht, Hint. simpl.
    by destruct (Z.ltb_spec max_size n); [|lia].
  - rewrite probe_unfold, Hhead. simpl. rewrite Hsafe, Hcl, Ht, Hint. simpl.
    by destruct (Z.ltb_spec max_size n); [lia|].
Qed.

(** X10. Only exceptions of the [requests] library are forgiven in the
    probe. A HEAD request that raises any other exception, and a declared
    length that [int] rejects, end the fetch with the unexpected-error
    report; the state is what it was and the GET request plays no part. *)
Theorem other_probe_errors_abort (w : world) (url : string) (s : state) :
  (∀ e, session_head w url = Fail e →
        is_request_exception e = false →
        fetch_image w url s = ((false, UnexpectedError e, None), s))
  ∧ (∀ head_response cl,
       session_head w url = Ok head_response →
       _is_safe_content_type (default "" (content_type_header head_response))
       = true →
       content_length_header head_response = Some cl →
       Str.truthy cl = true →
       int_of_str cl = None →
       fetch_image w url s
       = ((false, UnexpectedError (ValueError cl), None), s)).
Proof.
  split.
  - intros e Hhead He. rewrite (fetch_image_raised w url s e).
    + by destruct e.
    + by rewrite download_unfold, probe_unfold, Hhead, He.
  - intros head_response cl Hhead Hsafe Hcl Ht Hint.
    rewrite (fetch_image_raised w url s (ValueError cl)); [done|].
    rewrite download_unfold, probe_unfold, Hhead. simpl.
    by rewrite Hsafe, Hcl, Ht, Hint.
Qed.

End Probe.

Lemma head_refusal_is_final_witness :
  let w := Sample.serving (Ok (Headers None None))
             (Ok (Sample.png_response Sample.picture)) in
  session_head w "http://x/test.png" = Ok (Headers None None)
  ∧ fetch_image (H := Sample.lib) w "http://x/test.png" Sample.fresh
    = ((false, NotSafeType "", None), Sample.fresh).
Proof.
  cbv zeta. split; [reflexivity|].
  apply (head_refusal_is_final (H := Sample.lib) _ "http://x/test.png"
           Sample.fresh (Headers None None)); reflexivity.
Defined.

Lemma declared_length_limit_witness :
  let over := Sample.serving (Ok (Headers (Some "image/png") (Some "52428801")))
                (Ok (Sample.png_response Sample.picture)) in
  let at_limit := Sample.serving
                    (Ok (Headers (Some "image/png") (Some "52428800")))
                    (Ok (Sample.png_response Sample.picture)) in
  fetch_image (H := Sample.lib) over "http://x/test.png" Sample.fresh
  = ((false, TooLargeDeclared, None), Sample.fresh)
  ∧ probe (H := Sample.lib) at_limit "http://x/test.png" Sample.fresh
    = (Val "image/png", Sample.fresh).
Proof.
  cbv zeta. split.
  - apply (declared_length_limit (H := Sample.lib) _ "http://x/test.png"
             Sample.fresh (Headers (Some "image/png") (Some "52428801"))
             "52428801" 52428801); reflexivity.
  - apply (declared_length_limit (H := Sample.lib) _ "http://x/test.png"
             Sample.fresh (Headers (Some "image/png") (Some "52428800"))
             "52428800" 52428800); reflexivity.
Defined.

Lemma other_probe_errors_abort_witness :
  let w := Sample.serving (Ok (Headers (Some "image/png") (Some "12 kB")))
             (Ok (Sample.png_response Sample.picture)) in
  int_of_str (PyLib := Sample.lib) "12 kB" = None
  ∧ fetch_image (H := Sample.lib) w "http://x/test.png" Sample.fresh
    = ((false, UnexpectedError (ValueError "12 kB"), None), Sample.fresh).
Proof.
  cbv zeta. split; [reflexivity|].
  destruct (other_probe_errors_abort (H := Sample.lib)
              (Sample.serving
                 (Ok (Headers (Some "image/png") (Some "12 kB")))
                 (Ok (Sample.png_response Sample.picture)))
              "http://x/test.png" Sample.fresh) as [_ Hlength].
  apply (Hlength (Headers (Some "image/png") (Some "12 kB")) "12 kB");
    reflexivity.
Defined.

(** ** Files saved in one run *)

Section Distinct.
Context `{PyLib}.
Local Arguments _generate_filename : simpl never.

(** X11. Two fetches of one run that both succeed saved different
    contents at different paths, and after the second both files are
    there with what was saved in them. *)
Theorem saved_files_are_distinct
    (w1 w2 : world) (url1 url2 : string) (between : list (world * string))
    (s : state) :
  let s1 := (fetch_image w1 url1 s).2 in
  let s2 := fetch_all between s1 in
  let s3 := (fetch_image w2 url2 s2).2 in
  success (fetch_image w1 url1 s).1 = true →
  success (fetch_image w2 url2 s2).1 = true →
  ∃ p1 p2 content1 content2,
    filepath_of (fetch_image w1 url1 s).1 = Some p1
    ∧ filepath_of (fetch_image w2 url2 s2).1 = Some p2
    ∧ p1 ≠ p2
    ∧ md5_hexdigest content1 ≠ md5_hexdigest content2
    ∧ fs s3 !! p1 = Some (File content1 true)
    ∧ fs s3 !! p2 = Some (File content2 true).
Proof.
  intros s1 s2 s3 Hok1 Hok2.
  destruct (fetch_image_success_inv w1 url1 s Hok1)
    as (act1 & content1 & _ & _ & Hrun1).
  destruct (fetch_image_success_inv w2 url2 s2 Hok2)
    as (act2 & content2 & _ & Hnew2 & Hrun2).
  cbv zeta in Hrun1, Hrun2.
  set (p1 := resolve_conflict (ensure_directory (fs s) (directory s))
               (Path.join (directory s)
                  (_generate_filename (clock w1) url1 act1 None))) in *.
  set (p2 := resolve_conflict (ensure_directory (fs s2) (directory s2))
               (Path.join (directory s2)
                  (_generate_filename (clock w2) url2 act2 None))) in *.
  assert (fs s1 !! p1 = Some (File content1 true)) as Hp1.
  { unfold s1. rewrite Hrun1. simpl. apply lookup_insert_eq. }
  assert (md5_hexdigest content1 ∈ downloaded_hashes s1) as Hh1.
  { unfold s1. rewrite Hrun1. simpl. apply elem_of_union_l.
    by apply elem_of_singleton. }
  destruct (fetch_all_grows between s1) as (_ & Hhashes & Hfs).
  fold s2 in Hhashes, Hfs.
  assert (fs s2 !! p1 = Some (File content1 true)) as Hp1'.
  { by eapply lookup_weaken. }
  assert (ensure_directory (fs s2) (directory s2) !! p1
          = Some (File content1 true)) as Hp1''.
  { unfold ensure_directory.
    destruct (fs s2 !! directory s2) eqn:Hd; [done|].
    rewrite lookup_insert_ne; [done|]. intros <-. congruence. }
  assert (p1 ≠ p2) as Hne.
  { intros Heq. pose proof (resolve_conflict_free
      (ensure_directory (fs s2) (directory s2))
      (Path.join (directory s2) (_generate_filename (clock w2) url2 act2 None)))
      as Hfree.
    fold p2 in Hfree. rewrite <-Heq in Hfree. congruence. }
  exists p1, p2, content1, content2.
  split; [by rewrite Hrun1|]. split; [by rewrite Hrun2|]. split; [done|].
  split.
  { intros Heq. apply Hnew2. rewrite <-Heq. by apply Hhashes. }
  unfold s3. rewrite Hrun2. simpl. split.
  - by rewrite lookup_insert_ne.
  - apply lookup_insert_eq.
Qed.

End Distinct.

Lemma saved_files_are_distinct_witness :
  let w1 := Sample.serving (Ok Sample.png_headers)
              (Ok (Sample.png_response Sample.picture)) in
  let w2 := Sample.serving (Ok Sample.png_headers)
              (Ok (Sample.png_response Sample.drawing)) in
  let s1 := (fetch_image (H := Sample.lib) w1 "http://x/cat.png" Sample.fresh).2 in
  success (fetch_image (H := Sample.lib) w1 "http://x/cat.png" Sample.fresh).1
  = true
  ∧ success (fetch_image (H := Sample.lib) w2 "http://x/cat.png" s1).1 = true
  ∧ ∃ p1 p2,
      filepath_of (fetch_image (H := Sample.lib) w1 "http://x/cat.png"
                     Sample.fresh).1 = Some p1
      ∧ filepath_of (fetch_image (H := Sample.lib) w2 "http://x/cat.png" s1).1
        = Some p2
      ∧ p1 ≠ p2.
Proof.
  cbv zeta. split; [reflexivity|]. split; [reflexivity|].
  destruct (saved_files_are_distinct (H := Sample.lib)
              (Sample.serving (Ok Sample.png_headers)
                 (Ok (Sample.png_response Sample.picture)))
              (Sample.serving (Ok Sample.png_headers)
                 (Ok (Sample.png_response Sample.drawing)))
              "http://x/cat.png" "http://x/cat.png" [] Sample.fresh
              eq_refl eq_refl)
    as (p1 & p2 & _ & _ & Hp1 & Hp2 & Hne & _).
  exists p1, p2. split; [exact Hp1|]. split; [exact Hp2|exact Hne].
Defined.

(** ** Batches and their summary (lines 175-210) *)

Lemma regular_files_insert_file (f : gmap string node) p data readable :
  f !! p = None →
  regular_files (<[p := File data readable]> f) = S (regular_files f).
Proof.
  intros Hp. unfold regular_files.
  rewrite map_filter_insert_True by done.
  apply map_size_insert_None. by rewrite map_lookup_filter_None_2; [|left].
Qed.

Lemma regular_files_insert_dir (f : gmap string node) p :
  f !! p = None → regular_files (<[p := Dir]> f) = regular_files f.
Proof.
  intros Hp. unfold regular_files.
  rewrite map_filter_insert_not'; [done|done|]. intros y Hy. congruence.
Qed.

Lemma regular_files_ensure_directory (f : gmap string node) d :
  regular_files (ensure_directory f d) = regular_files f.
Proof.
  unfold ensure_directory. destruct (f !! d) eqn:Hd; [done|].
  by apply regular_files_insert_dir.
Qed.

Lemma count_successful_cons url r (results : list (string * result)) :
  count_successful ((url, r) :: results)
  = if success r then 1 + count_successful results
    else count_successful results.
Proof. done. Qed.

Lemma count_successful_filter (results : list (string * result)) :
  count_successful results
  = Z.of_nat (length (filter (λ entry, success entry.2 = true) results)).
Proof.
  induction results as [|[url r] results IH]; [done|].
  rewrite filter_cons, count_successful_cons. simpl.
  destruct (success r) eqn:Hok.
  - rewrite decide_True by done. simpl length. lia.
  - by rewrite decide_False by done.
Qed.

Section BatchFacts.
Context `{PyLib}.
Local Arguments _generate_filename : simpl never.

Lemma makedirs_files w s :
  regular_files (fs (makedirs w s).2) = regular_files (fs s).
Proof.
  rewrite makedirs_unfold. destruct (negb (Str.truthy (directory s))); [done|].
  destruct (fs s !! directory s) as [[|data readable| |]|] eqn:Hdir; try done.
  destruct (makedirs_fault w); [done|]. by apply regular_files_insert_dir.
Qed.

(** A fetch adds one regular file when it succeeds. When it fails it
    adds none, unless the write failed after [open] had made the file. *)
Lemma fetch_image_files w url s :
  let before := regular_files (fs s) in
  let after := regular_files (fs (fetch_image w url s).2) in
  if success (fetch_image w url s).1 then after = S before
  else after = before
       ∨ (after = S before ∧ ∃ p, is_Some (write_fault w p)).
Proof.
  cbv zeta. destruct (success (fetch_image w url s).1) eqn:Hok.
  - destruct (fetch_image_success_inv w url s Hok)
      as (act & content & _ & _ & Hrun).
    cbv zeta in Hrun. rewrite Hrun. simpl.
    rewrite regular_files_insert_file by apply resolve_conflict_free.
    by rewrite regular_files_ensure_directory.
  - destruct (download w url s).1 as [[act content]|r|e] eqn:Hd.
    + rewrite (fetch_image_downloaded _ _ _ _ _ Hd) in *.
      rewrite save_unfold in *.
      unfold _check_duplicate, add_hash, mbind, M_bind in *. simpl in *.
      destruct (bool_decide _); simpl in *; [by left|].
      pose proof (makedirs_files w
                    (with_hashes ({[md5_hexdigest content]} ∪ downloaded_hashes s) s))
        as Hmk.
      destruct (makedirs w _) as [[[]|r|e] s2]; simpl in *; [|by left..].
      destruct (urlparse_error url); [by left|]. cbv zeta in *.
      rewrite write_file_unfold in *.
      destruct (open_fault w _); [by left|].
      destruct (write_fault w _) as [[what written]|] eqn:Hwrite; [|done].
      right. simpl. split; [|by eauto].
      rewrite regular_files_insert_file by apply resolve_conflict_free.
      by rewrite Hmk.
    + left. by rewrite (fetch_image_returned _ _ _ _ Hd).
    + left. by rewrite (fetch_image_raised _ _ _ _ Hd).
Qed.

Lemma count_successful_app (results1 results2 : list (string * result)) :
  count_successful (results1 ++ results2)
  = count_successful results1 + count_successful results2.
Proof.
  induction results1 as [|[url r] results1 IH]; [done|].
  rewrite <-app_comm_cons, !count_successful_cons.
  destruct (success r); lia.
Qed.

Lemma fetch_loop_files W i urls results s :
  let before := Z.of_nat (regular_files (fs s)) in
  let after := Z.of_nat (regular_files (fs (fetch_loop W i urls results s).2)) in
  let saved := count_successful (fetch_loop W i urls results s).1
               - count_successful results in
  before + saved ≤ after ≤ before + Z.of_nat (length urls)
  ∧ ((∀ j p, write_fault (W j) p = None) → after = before + saved).
Proof.
  cbv zeta. revert i results s.
  induction urls as [|url urls IH]; intros i results s.
  - simpl. split; [lia|]. intros _. lia.
  - rewrite fetch_loop_cons.
    pose proof (IH (S i)
                  (results ++ [(url, (fetch_image (W i) (Str.strip url) s).1)])
                  (fetch_image (W i) (Str.strip url) s).2) as [Hbounds Heq].
    rewrite count_successful_app in Hbounds, Heq.
    pose proof (fetch_image_files (W i) (Str.strip url) s) as Hone.
    cbv zeta in Hone. simpl in Hbounds, Heq. simpl length.
    destruct (success (fetch_image (W i) (Str.strip url) s).1).
    + split; [lia|]. intros Hnone. specialize (Heq Hnone). lia.
    + split; [destruct Hone as [?|[? _]]; lia|].
      intros Hnone. specialize (Heq Hnone).
      destruct Hone as [?|[_ [p [x Hp]]]]; [lia|].
      rewrite Hnone in Hp. done.
Qed.

(** The loop does not look at the results it has gathered. *)
Lemma fetch_loop_results W i urls results s :
  fetch_loop W i urls results s
  = (results ++ (fetch_loop W i urls [] s).1, (fetch_loop W i urls [] s).2).
Proof.
  revert i results s. induction urls as [|url urls IH]; intros i results s.
  - simpl. by rewrite app_nil_r.
  - rewrite !fetch_loop_cons, IH.
    rewrite (IH _ ([] ++ _)). simpl. by rewrite <-app_assoc.
Qed.

Lemma fetch_loop_shift W k i urls results s :
  fetch_loop W (k + i) urls results s
  = fetch_loop (λ j, W (k + j)%nat) i urls results s.
Proof.
  revert i results s. induction urls as [|url urls IH]; intros i results s.
  - done.
  - rewrite !fetch_loop_cons. by rewrite <-IH, Nat.add_succ_r.
Qed.

Lemma fetch_loop_app W i urls1 urls2 results s :
  fetch_loop W i (urls1 ++ urls2) results s
  = fetch_loop W (length urls1 + i) urls2
      (fetch_loop W i urls1 results s).1 (fetch_loop W i urls1 results s).2.
Proof.
  revert i results s. induction urls1 as [|url urls1 IH]; intros i results s.
  - done.
  - simpl app. rewrite !fetch_loop_cons, IH. simpl length.
    by rewrite Nat.add_succ_r.
Qed.

(** X12. A batch may be cut anywhere: fetching a list of URLs gives the
    results of fetching its first part followed by those of fetching the
    rest, in the state the first part left, the requests of the rest
    being numbered on from the first part's. *)
Theorem batch_splits (W : nat → world) (urls1 urls2 : list string) (s : state) :
  let first := fetch_multiple_images W urls1 s in
  let rest :=
    fetch_multiple_images (λ i, W (length urls1 + i)%nat) urls2 first.2 in
  fetch_multiple_images W (urls1 ++ urls2) s = (first.1 ++ rest.1, rest.2).
Proof.
  cbv zeta. unfold fetch_multiple_images.
  rewrite fetch_loop_app, fetch_loop_results, fetch_loop_shift. done.
Qed.

(** X13. Each successful result of a batch stands for one new regular
    file: the number of regular files after the batch is at least the
    number before plus the number of successful results, and at most the
    number before plus the number of URLs. The two counts are equal when
    no write fails after its file was opened; such a write is the only
    failure that leaves a file behind. *)
Theorem batch_adds_one_file_per_success
    (W : nat → world) (urls : list string) (s : state) :
  let before := Z.of_nat (regular_files (fs s)) in
  let after :=
    Z.of_nat (regular_files (fs (fetch_multiple_images W urls s).2)) in
  let saved :=
    Z.of_nat (length (filter (λ entry, success entry.2 = true)
                        (fetch_multiple_images W urls s).1)) in
  before + saved ≤ after ≤ before + Z.of_nat (length urls)
  ∧ ((∀ i p, write_fault (W i) p = None) → after = before + saved).
Proof.
  cbv zeta. unfold fetch_multiple_images.
  pose proof (fetch_loop_files W 1 urls [] s) as Hfiles.
  cbv zeta in Hfiles. simpl count_successful in Hfiles.
  rewrite Z.sub_0_r, count_successful_filter in Hfiles. exact Hfiles.
Qed.

End BatchFacts.

Lemma batch_adds_one_file_per_success_witness :
  let W := λ i : nat,
    if (i =? 2)%nat
    then Sample.serving (Ok Sample.png_headers)
           (Ok (Sample.png_response Sample.drawing))
    else Sample.serving (Ok Sample.png_headers)
           (Ok (Sample.png_response Sample.picture)) in
  let urls := ["http://x/a.png"; "http://x/b.png"; "http://x/c.png"] in
  let batch := fetch_multiple_images (H := Sample.lib) W urls Sample.fresh in
  length (filter (λ entry, success entry.2 = true) batch.1) = 2%nat
  ∧ Z.of_nat (regular_files (fs batch.2))
    = Z.of_nat (regular_files (fs Sample.fresh))
      + Z.of_nat (length (filter (λ entry, success entry.2 = true) batch.1)).
Proof.
  cbv zeta. split; [by vm_compute|].
  apply (batch_adds_one_file_per_success (H := Sample.lib)).
  intros i p. by destruct (i =? 2)%nat.
Defined.

(** A write that fails after [open] made the file: the fetch fails and
    the file stays, with the bytes that reached it. *)
Lemma failed_write_leaves_file :
  let w := Sample.disk_full (Ok Sample.png_headers)
             (Ok (Sample.png_response Sample.picture)) 2 in
  let r := fetch_image (H := Sample.lib) w "http://x/test.png" Sample.fresh in
  r.1 = (false, UnexpectedError (OSError "No space left on device"), None)
  ∧ fs r.2 !! "Fetched_Images/test.png" = Some (File [x89; x50] true)
  ∧ regular_files (fs Sample.fresh) = 0%nat
  ∧ regular_files (fs r.2) = 1%nat.
Proof. cbv zeta. repeat split; by vm_compute. Qed.

Section SummaryFacts.
Context `{PyLib} `{PyOs}.

Lemma length_filter_split {A} (P : A → bool) (l : list A) :
  (length (filter (λ x, P x = true) l) + length (filter (λ x, P x = false) l)
   = length l)%nat.
Proof.
  induction l as [|x l IH]; [done|]. rewrite !filter_cons.
  destruct (P x) eqn:HP.
  - rewrite decide_True, decide_False by done. simpl. lia.
  - rewrite decide_False, decide_True by done. simpl. lia.
Qed.

(** X14. The summary changes nothing and its numbers add up: it shows
    the number of successful results, the number of unsuccessful ones,
    which together make the number of results shown as connections, and
    the absolute path of the directory; it celebrates exactly when some
    result is successful. *)
Theorem summary_counts (results : list (string * result)) (s : state) :
  ∃ shown,
    display_summary results s = (Val shown, s)
    ∧ successful shown
      = Z.of_nat (length (filter (λ entry, success entry.2 = true) results))
    ∧ failed shown
      = Z.of_nat (length (filter (λ entry, success entry.2 = false) results))
    ∧ connections shown = Z.of_nat (length results)
    ∧ successful shown + failed shown = connections shown
    ∧ stored_in shown = abspath (directory s)
    ∧ (celebrated shown = true ↔ ∃ entry, entry ∈ results ∧ success entry.2 = true).
Proof.
  eexists. split; [reflexivity|]. simpl.
  pose proof (length_filter_split (λ entry : string * result, success entry.2)
                results) as Hsplit.
  rewrite count_successful_filter.
  split; [done|]. split; [lia|]. split; [done|]. split; [lia|]. split; [done|].
  rewrite Z.ltb_lt. split.
  - intros Hpos.
    destruct (filter (λ entry, success entry.2 = true) results)
      as [|entry l] eqn:Hf; [simpl in Hpos; lia|].
    exists entry.
    assert (entry ∈ filter (λ entry, success entry.2 = true) results) as Hin.
    { rewrite Hf. apply elem_of_cons. by left. }
    by apply list_elem_of_filter in Hin as [? ?].
  - intros (entry & Hin & Hok).
    assert (entry ∈ filter (λ entry, success entry.2 = true) results) as Hin'.
    { by apply list_elem_of_filter. }
    destruct (filter _ results); [by apply elem_of_nil in Hin'|]. simpl. lia.
Qed.

End SummaryFacts.

(** ** The command line (lines 213-260) *)

Section MainFacts.
Context `{PyLib} `{PyOs}.

Lemma behaves_input stdin : behaves grows (input stdin).
Proof. destruct stdin; simpl; auto with behave. Qed.

Lemma behaves_read_urls stdin urls : behaves grows (read_urls stdin urls).
Proof.
  revert urls. induction stdin as [|line stdin IH]; intros urls; simpl.
  - auto with behave.
  - destruct (Str.truthy (Str.strip line)); auto with behave.
Qed.

Lemma behaves_run_fetch_image w url : behaves grows (run (fetch_image w url)).
Proof.
  intros s. unfold run. pose proof (fetch_image_grows w url s) as Hg.
  by destruct (fetch_image w url s).
Qed.

Lemma behaves_run_batch W urls :
  behaves grows (run (fetch_multiple_images W urls)).
Proof.
  intros s. unfold run, fetch_multiple_images.
  pose proof (fetch_loop_grows W 1 urls [] s) as Hg.
  by destruct (fetch_loop W 1 urls [] s).
Qed.

Lemma behaves_display_summary results :
  behaves grows (display_summary results).
Proof. by intros s. Qed.

Lemma behaves_main W stdin : behaves grows (main W stdin).
Proof.
  unfold main. pose proof behaves_load_existing_hashes.
  pose proof behaves_input. pose proof behaves_read_urls.
  pose proof behaves_run_fetch_image. pose proof behaves_run_batch.
  pose proof behaves_display_summary. behave.
Qed.

(** The loop of lines 245-249 on lines that end with a blank one. *)
Lemma read_urls_until_blank lines blank rest urls s :
  Forall (λ line, Str.truthy (Str.strip line) = true) lines →
  Str.strip blank = "" →
  read_urls (lines ++ blank :: rest) urls s
  = (Val (urls ++ (Str.strip <$> lines)), s).
Proof.
  intros Hlines Hblank. revert urls.
  induction Hlines as [|line lines Hline _ IH]; intros urls; simpl.
  - by rewrite Hblank, app_nil_r.
  - by rewrite Hline, IH, <-app_assoc.
Qed.

(** The same loop on lines none of which is blank. *)
Lemma read_urls_without_blank lines urls s :
  Forall (λ line, Str.truthy (Str.strip line) = true) lines →
  read_urls lines urls s = (Raise (OtherException "EOFError"), s).
Proof.
  intros Hlines. revert urls.
  induction Hlines as [|line lines Hline _ IH]; intros urls; simpl; [done|].
  by rewrite Hline, IH.
Qed.

(** The scan ends normally where nothing exists at the directory's path
    and where a directory that can be listed is there. *)
Lemma scan_ends s :
  path_exists (fs s) (directory s) = false ∨ fs s !! directory s = Some Dir →
  _load_existing_hashes s = (Val (), (_load_existing_hashes s).2).
Proof.
  intros [Hd|Hd].
  - by rewrite scan_absent.
  - by destruct (scan_result s Hd) as (s' & -> & _).
Qed.

Lemma default_directory_scan (f : gmap string node) :
  f !! "Fetched_Images" = None ∨ f !! "Fetched_Images" = Some Dir →
  let s := State "Fetched_Images" ∅ f in
  path_exists (fs s) (directory s) = false ∨ fs s !! directory s = Some Dir.
Proof.
  intros [Hd|Hd]; [left|by right]. simpl. unfold path_exists. by rewrite Hd.
Qed.

(** X15. In multi-URL mode, when the start-up scan passes (nothing is at
    the directory's path, or a directory that can be listed), the program
    fetches the lines typed before the first blank line, each without the
    blanks around it, in their order and in one batch; it shows the
    summary of that batch, and what follows the blank line is not
    read. *)
Theorem main_fetches_lines_before_blank
    (W : nat → world) (f : gmap string node) (choice blank : string)
    (lines rest : list string) :
  f !! "Fetched_Images" = None ∨ f !! "Fetched_Images" = Some Dir →
  Str.strip choice = "2" →
  lines ≠ [] →
  Forall (λ line, Str.truthy (Str.strip line) = true) lines →
  Str.strip blank = "" →
  let fetcher := (__init__ "Fetched_Images" f).2 in
  let batch := fetch_multiple_images W (Str.strip <$> lines) fetcher in
  ∃ shown,
    run_main W (choice :: lines ++ blank :: rest) f
    = (Val (BatchFetched batch.1 shown), batch.2)
    ∧ display_summary batch.1 batch.2 = (Val shown, batch.2)
    ∧ batch.1.*1 = Str.strip <$> lines.
Proof.
  intros Hscan%default_directory_scan Hchoice Hne Hlines Hblank. cbv zeta.
  unfold run_main, main, __init__.
  unfold mbind at 1, M_bind at 1. rewrite scan_ends by done.
  set (fetcher := (_load_existing_hashes (State "Fetched_Images" ∅ f)).2).
  unfold mbind at 1, M_bind at 1. simpl input.
  unfold mret at 1, M_ret at 1. cbv beta iota.
  rewrite Hchoice.
  rewrite (bool_decide_eq_false_2 ("2" = "1")) by done.
  rewrite (bool_decide_eq_true_2 ("2" = "2")) by done.
  unfold mbind at 1, M_bind at 1.
  rewrite (read_urls_until_blank lines blank rest [] fetcher) by done.
  rewrite app_nil_l. cbn [snd].
  destruct lines as [|line lines]; [done|]. rewrite fmap_cons.
  unfold mbind at 1, M_bind at 1, run at 1.
  destruct (fetch_multiple_images W (Str.strip line :: (Str.strip <$> lines))
              fetcher) as [results s'] eqn:Hbatch.
  exists (Summary (count_successful results)
            (Z.of_nat (length results) - count_successful results)
            (abspath (directory s')) (Z.of_nat (length results))
            (0 <? count_successful results)).
  split; [done|]. split; [done|]. simpl.
  pose proof (fetch_loop_lookup W (Str.strip line :: (Str.strip <$> lines)) 1
                [] fetcher) as Hlookup.
  unfold fetch_multiple_images in Hbatch. rewrite Hbatch in Hlookup.
  apply list_eq. intros i. rewrite list_lookup_fmap. specialize (Hlookup i).
  simpl in Hlookup. rewrite Hlookup.
  by destruct ((Str.strip line :: (Str.strip <$> lines)) !! i).
Qed.

(** X16. Nothing is fetched without a URL and a way to end the list.
    When the start-up scan passes, the program reports the invalid choice
    after a choice that is neither 1 nor 2, and it ends with [EOFError]
    when the input of multi-URL mode ends before a blank line; in both
    cases the state is the one the scan left. When the scan does not
    pass, because what is at the directory's path is not a directory or
    cannot be listed, the program ends with the error of [os.listdir]
    before it reads any input, whatever is typed. *)
Theorem main_fetches_nothing
    (W : nat → world) (f : gmap string node) (choice : string)
    (lines : list string) :
  (f !! "Fetched_Images" = None ∨ f !! "Fetched_Images" = Some Dir →
   (Str.strip choice ≠ "1" → Str.strip choice ≠ "2" →
    run_main W (choice :: lines) f
    = (Val InvalidChoice, (__init__ "Fetched_Images" f).2))
   ∧ (Str.strip choice = "2" →
      Forall (λ line, Str.truthy (Str.strip line) = true) lines →
      run_main W (choice :: lines) f
      = (Raise (OtherException "EOFError"), (__init__ "Fetched_Images" f).2)))
  ∧ (∀ n stdin,
       f !! "Fetched_Images" = Some n → n ≠ Dir →
       run_main W stdin f
       = (Raise (OSError (match n with
                          | Sealed => "Permission denied"
                          | _ => "Not a directory"
                          end)),
          State "Fetched_Images" ∅ f)).
Proof.
  unfold run_main, main, __init__. split.
  - intros Hscan%default_directory_scan. split.
    + intros H1 H2. unfold mbind at 1, M_bind at 1. rewrite scan_ends by done.
      unfold mbind at 1, M_bind at 1. simpl input.
      unfold mret at 1, M_ret at 1. cbv beta iota.
      by rewrite !bool_decide_eq_false_2 by done.
    + intros Hchoice Hlines.
      unfold mbind at 1, M_bind at 1. rewrite scan_ends by done.
      unfold mbind at 1, M_bind at 1. simpl input.
      unfold mret at 1, M_ret at 1. cbv beta iota.
      rewrite Hchoice.
      rewrite (bool_decide_eq_false_2 ("2" = "1")) by done.
      rewrite (bool_decide_eq_true_2 ("2" = "2")) by done.
      unfold mbind at 1, M_bind at 1.
      by rewrite read_urls_without_blank.
  - intros n stdin Hn Hne. unfold mbind at 1, M_bind at 1.
    by rewrite (scan_raises (State "Fetched_Images" ∅ f) n).
Qed.

(** X17. Whatever is typed and whatever the network answers, the program
    keeps every entry the file system had, with its content, and works on
    the directory [Fetched_Images]. *)
Theorem main_keeps_files
    (W : nat → world) (stdin : list string) (f : gmap string node) :
  f ⊆ fs (run_main W stdin f).2
  ∧ directory (run_main W stdin f).2 = "Fetched_Images".
Proof.
  destruct (behaves_main W stdin (State "Fetched_Images" ∅ f))
    as [(Hd & _ & Hfs) _].
  done.
Qed.

End MainFacts.

Lemma main_fetches_lines_before_blank_witness :
  let W := λ i : nat,
    if (i =? 2)%nat
    then Sample.serving (Ok Sample.png_headers)
           (Ok (Sample.png_response Sample.drawing))
    else Sample.serving (Ok Sample.png_headers)
           (Ok (Sample.png_response Sample.picture)) in
  ∃ shown,
    run_main (H := Sample.lib) (H0 := SampleCli.os) W
      [" 2"; " http://a/x.png "; "http://b/y.png"; "  "; "http://c/z.png"]
      SampleCli.gallery
    = (Val (BatchFetched
              [("http://a/x.png", (false, DuplicateDetected, None));
               ("http://b/y.png",
                (true, Saved "y.png" 4, Some "Fetched_Images/y.png"))]
              shown),
       (fetch_multiple_images (H := Sample.lib) W
          ["http://a/x.png"; "http://b/y.png"]
          (__init__ (H := Sample.lib) "Fetched_Images" SampleCli.gallery).2).2).
Proof.
  cbv zeta.
  destruct (main_fetches_lines_before_blank (H := Sample.lib)
              (H0 := SampleCli.os)
              (λ i : nat,
                 if (i =? 2)%nat
                 then Sample.serving (Ok Sample.png_headers)
                        (Ok (Sample.png_response Sample.drawing))
                 else Sample.serving (Ok Sample.png_headers)
                        (Ok (Sample.png_response Sample.picture)))
              SampleCli.gallery " 2" "  "
              [" http://a/x.png "; "http://b/y.png"] ["http://c/z.png"])
    as (shown & Hrun & _); [by right | reflexivity | done | | reflexivity |].
  - repeat constructor.
  - exists shown. exact Hrun.
Defined.

Lemma main_fetches_nothing_witness :
  run_main (H := Sample.lib) (H0 := SampleCli.os) (λ _, Sample.offline)
    ["2"; "http://a/x.png"; "http://b/y.png"] SampleCli.gallery
  = (Raise (OtherException "EOFError"),
     (__init__ (H := Sample.lib) "Fetched_Images" SampleCli.gallery).2)
  ∧ run_main (H := Sample.lib) (H0 := SampleCli.os) (λ _, Sample.offline)
      ["2"; "http://a/x.png"; ""] {["Fetched_Images" := Sealed]}
    = (Raise (OSError "Permission denied"),
       State "Fetched_Images" ∅ {["Fetched_Images" := Sealed]}).
Proof.
  split.
  - apply (main_fetches_nothing (H := Sample.lib) (H0 := SampleCli.os));
      [by right | reflexivity | repeat constructor].
  - apply (proj2 (main_fetches_nothing (H := Sample.lib) (H0 := SampleCli.os)
                    (λ _, Sample.offline) {["Fetched_Images" := Sealed]} "" [])
             Sealed); [reflexivity | done].
Defined.

(** ** Where files are written (lines 145-159) *)

Lemma rev_app_app s acc : String.rev_app s acc = String.rev_app s "" +:+ acc.
Proof.
  revert acc. induction s as [|a s IH]; intros acc; simpl; [done|].
  rewrite (IH (String a acc)), (IH (String a "")).
  by rewrite StrFacts.app_assoc.
Qed.

Lemma rev_app_rev_app s a b :
  String.rev_app (String.rev_app s a) b = String.rev_app a (s +:+ b).
Proof.
  revert a b. induction s as [|c s IH]; intros a b; simpl; [done|].
  by rewrite IH.
Qed.

Lemma endswith_sep_inv p :
  Path.endswith_sep p = true → ∃ q, p = q +:+ "/".
Proof.
  unfold Path.endswith_sep. intros Hp.
  destruct (String.rev p) as [|a t] eqn:Hrev; [done|].
  assert (a = "/"%char) as ->.
  { destruct (decide (a = "/"%char)) as [->|Hne]; [done|].
    destruct a as [[] [] [] [] [] [] [] []]; done. }
  exists (String.rev t). unfold String.rev in *.
  pose proof (rev_app_rev_app p "" "") as Hinv. rewrite Hrev in Hinv.
  simpl in Hinv. rewrite StrFacts.app_nil_r in Hinv.
  by rewrite <-Hinv, rev_app_app.
Qed.

(** The prefix a directory puts before a relative name is empty or ends
    with a separator. *)
Lemma join_prefix_shape d :
  Path.join d "" = "" ∨ ∃ q, Path.join d "" = q +:+ "/".
Proof.
  unfold Path.join. simpl. destruct d as [|a d]; [by left|]. simpl.
  destruct (Path.endswith_sep (String a d)) eqn:He.
  - right. apply endswith_sep_inv in He as [q Hq]. exists q.
    by rewrite StrFacts.app_nil_r.
  - right. exists (String a d). by rewrite StrFacts.app_cons.
Qed.

(** Numbering a name keeps the directory prefix in front. *)
Lemma splitext_keeps_prefix prefix name :
  prefix = "" ∨ (∃ q, prefix = q +:+ "/") →
  ∃ root,
    (Path.splitext (prefix +:+ name)).1 = prefix +:+ root
    ∧ root +:+ (Path.splitext (prefix +:+ name)).2 = name.
Proof.
  intros Hprefix.
  assert (∃ root, (Path.splitext (prefix +:+ name)).1 = prefix +:+ root)
    as [root Hroot].
  { unfold Path.splitext. case_match eqn:Hcond; simpl; [|by exists name].
    apply andb_true_iff in Hcond as [Hlt%Z.ltb_lt _].
    destruct Hprefix as [->|[q ->]]; [by eexists|].
    pose proof (rfind_app_ge "/" q name) as Hsep.
    assert ((q +:+ "/") +:+ name = q +:+ String "/" name) as Heq.
    { by rewrite StrFacts.app_assoc. }
    rewrite <-Heq in Hsep. unfold Str.upto.
    rewrite take_app_ge; [by eexists|].
    rewrite StrFacts.length_app. simpl. lia. }
  exists root. split; [done|].
  pose proof (PathFacts.splitext_app (prefix +:+ name)) as Happ.
  rewrite Hroot, StrFacts.app_assoc in Happ.
  by apply (inj (String.app prefix)) in Happ.
Qed.

Section Under.
Context `{PyLib}.
Local Arguments _generate_filename : simpl never.

(** X18. A file is only ever written under the fetcher's directory: the
    path of a successful fetch is the directory's prefix, the one
    [os.path.join] puts before a relative name, followed by a non-empty
    rest. When the base name of the URL's path contains a dot, that rest
    is the base name, possibly with [_k] put between two parts of it, and
    has no separator in it: the file lies directly in the directory,
    whatever the URL. *)
Theorem files_are_written_under_the_directory
    (w : world) (url : string) (s : state) :
  success (fetch_image w url s).1 = true →
  ∃ p rest,
    filepath_of (fetch_image w url s).1 = Some p
    ∧ p = Path.join (directory s) "" +:+ rest
    ∧ Str.truthy rest = true
    ∧ (Str.has_char "." (Path.basename (urlparse_path url)) = true →
       Str.has_char "/" rest = false
       ∧ (rest = Path.basename (urlparse_path url)
          ∨ ∃ root ext (k : nat),
              root +:+ ext = Path.basename (urlparse_path url)
              ∧ rest = root +:+ "_" +:+ pretty k +:+ ext)).
Proof.
  intros Hok.
  destruct (fetch_image_success_inv w url s Hok)
    as (act & content & _ & _ & Hrun).
  cbv zeta in Hrun.
  set (f := ensure_directory (fs s) (directory s)) in *.
  set (filename := _generate_filename (clock w) url act None) in *.
  destruct (generate_filename_relative (clock w) url act) as [Ht Hrel].
  fold filename in Ht, Hrel.
  pose proof (join_relative (directory s) filename Hrel) as Hjoin.
  pose proof (resolve_conflict_find f (Path.join (directory s) filename))
    as Hfind.
  apply find_free_Some in Hfind as [_ Hcases].
  destruct Hcases as [Heq|(_ & k & _ & Heq & _)].
  - exists (Path.join (directory s) filename), filename.
    split; [by rewrite Hrun, Heq|]. split; [exact Hjoin|]. split; [done|].
    intros Hdot. unfold filename. rewrite generate_filename_with_dot by done.
    split; [apply PathFacts.basename_no_sep|by left].
  - destruct (splitext_keeps_prefix (Path.join (directory s) "") filename
                (join_prefix_shape (directory s))) as (root & Hroot & Hext).
    destruct (Path.splitext (Path.join (directory s) "" +:+ filename))
      as [name ext] eqn:Hsplit.
    simpl in Hroot, Hext. subst name.
    exists (candidate (Path.join (directory s) filename) k),
      (root +:+ "_" +:+ pretty k +:+ ext).
    split; [by rewrite Hrun, Heq|]. split.
    { unfold candidate. rewrite Hjoin, Hsplit. by rewrite StrFacts.app_assoc. }
    split; [by destruct root|]. intros Hdot.
    unfold filename in Hext. rewrite generate_filename_with_dot in Hext by done.
    pose proof (PathFacts.basename_no_sep (urlparse_path url)) as Hsep.
    rewrite <-Hext, StrFacts.has_char_app in Hsep.
    apply orb_false_iff in Hsep as [Hrootsep Hextsep]. split.
    + by rewrite !StrFacts.has_char_app, Hrootsep, Hextsep, pretty_nat_no_sep.
    + right. by exists root, ext, k.
Qed.

End Under.

Lemma files_are_written_under_the_directory_witness :
  let w := Sample.serving (Ok Sample.png_headers)
             (Ok (Sample.png_response Sample.picture)) in
  success (fetch_image (H := Sample.lib) w "http://x/a/../../etc/passwd.png"
             Sample.fresh).1 = true
  ∧ ∃ rest,
      filepath_of (fetch_image (H := Sample.lib) w
                     "http://x/a/../../etc/passwd.png" Sample.fresh).1
      = Some ("Fetched_Images/" +:+ rest)
      ∧ Str.has_char "/" rest = false.
Proof.
  cbv zeta. split; [reflexivity|].
  destruct (files_are_written_under_the_directory (H := Sample.lib)
              (Sample.serving (Ok Sample.png_headers)
                 (Ok (Sample.png_response Sample.picture)))
              "http://x/a/../../etc/passwd.png" Sample.fresh eq_refl)
    as (p & rest & Hp & -> & _ & Hrest).
  exists rest. split; [exact Hp|]. by apply Hrest.
Defined.

(** ** Blanks around URLs (lines 185 and 246) *)

Lemma rstrip_cons_kept a t :
  Str.isspace a = false → ∃ r, Str.rstrip (String a t) = String a r.
Proof.
  intros Ha. simpl. destruct (Str.rstrip t); rewrite ?Ha; by eexists.
Qed.

Lemma rstrip_idempotent t : Str.rstrip (Str.rstrip t) = Str.rstrip t.
Proof.
  induction t as [|a t IH]; [done|]. simpl.
  destruct (Str.rstrip t) as [|b r] eqn:Hr.
  - destruct (Str.isspace a) eqn:Ha; [done|]. simpl. by rewrite Ha.
  - simpl in *. by rewrite IH.
Qed.

Lemma lstrip_shape t :
  Str.lstrip t = "" ∨ ∃ a r, Str.lstrip t = String a r ∧ Str.isspace a = false.
Proof.
  induction t as [|a t IH]; [by left|]. simpl.
  destruct (Str.isspace a) eqn:Ha; [done|]. right. by exists a, t.
Qed.

Lemma strip_idempotent t : Str.strip (Str.strip t) = Str.strip t.
Proof.
  unfold Str.strip. destruct (lstrip_shape t) as [->|(a & r & -> & Ha)]; [done|].
  destruct (rstrip_cons_kept a r Ha) as [r' Hr']. rewrite Hr'.
  simpl Str.lstrip. rewrite Ha, <-Hr'. apply rstrip_idempotent.
Qed.

Section Blanks.
Context `{PyLib}.

(** X19. Blanks around a URL do not matter to a batch, and stripping them
    beforehand, as [main] does, changes nothing: the results of a batch
    pair each URL as given with the result of fetching it stripped, and a
    batch over the stripped URLs yields the same results and state, the
    URLs in its entries being the stripped ones. *)
Theorem batch_ignores_blanks (W : nat → world) (urls : list string) (s : state) :
  (fetch_multiple_images W (Str.strip <$> urls) s).2
  = (fetch_multiple_images W urls s).2
  ∧ (fetch_multiple_images W (Str.strip <$> urls) s).1
    = (λ entry, (Str.strip entry.1, entry.2))
      <$> (fetch_multiple_images W urls s).1.
Proof.
  unfold fetch_multiple_images.
  assert (∀ i results,
            (fetch_loop W i (Str.strip <$> urls)
               ((λ entry, (Str.strip entry.1, entry.2)) <$> results) s).2
            = (fetch_loop W i urls results s).2
            ∧ (fetch_loop W i (Str.strip <$> urls)
                 ((λ entry, (Str.strip entry.1, entry.2)) <$> results) s).1
              = (λ entry, (Str.strip entry.1, entry.2))
                <$> (fetch_loop W i urls results s).1) as Hloop.
  { revert s. induction urls as [|url urls IH]; intros s i results; [done|].
    rewrite fmap_cons, !fetch_loop_cons, strip_idempotent.
    specialize (IH (fetch_image (W i) (Str.strip url) s).2 (S i)
                  (results ++ [(url, (fetch_image (W i) (Str.strip url) s).1)])).
    by rewrite fmap_app in IH. }
  apply (Hloop 1%nat []).
Qed.

(** X20. The duplicate check answers [False] at most once for a content:
    its answer tells whether the digest was in the registry, afterwards
    the digest is there and nothing else has changed, and a second check
    of the same content answers [True] and changes nothing. *)
Theorem duplicate_check_twice (content : list byte) (s : state) :
  let first := _check_duplicate content s in
  first.1 = Val (bool_decide (md5_hexdigest content ∈ downloaded_hashes s))
  ∧ downloaded_hashes first.2
    = {[md5_hexdigest content]} ∪ downloaded_hashes s
  ∧ fs first.2 = fs s
  ∧ directory first.2 = directory s
  ∧ _check_duplicate content first.2 = (Val true, first.2).
Proof.
  cbv zeta. unfold _check_duplicate, add_hash, mbind, M_bind. simpl.
  case_bool_decide as Hin; simpl.
  - rewrite bool_decide_eq_true_2 by done.
    split; [done|]. split; [|done]. apply leibniz_equiv. intros x.
    rewrite elem_of_union, elem_of_singleton. split; [by right|].
    by intros [->|?].
  - rewrite bool_decide_eq_true_2; [done|].
    apply elem_of_union_l. by apply elem_of_singleton.
Qed.

End Blanks.
